(** * Usage-aggregation query builder (flexprice, package [builder])

    A shallow embedding of
    [internal/repository/clickhouse/builder/query_builder.go]: the builder
    that turns a usage query, a list of filter groups and a request context
    into a ClickHouse statement text with positional placeholders and the
    list of arguments bound to them.

    - Go strings are [string]; [fmt.Sprintf] with [%s]/[%d] verbs is written
      out as concatenation ([+:+]), a [?%d] verb pair as [ph n].
    - [[]interface{}] argument slices are lists of [Arg].
    - The builder object mutated by every method is passed and returned
      explicitly.
    - A Go [map] is a [gmap]; a [for ... range] loop over a map visits the
      entries in an order the language leaves unspecified, so every such
      loop takes the visited sequence as an argument, constrained by
      [ranges].
    - The statement is run by ClickHouse, not by the builder: what is
      stated of a statement is stated of its text and of its arguments.
    - Module [builder_prev] holds what the earlier revision of the package
      found among the sources does differently.

    - [formatClickHouseDateTime] is modelled in module [gotime], the
      input of the price sync workflow in module [models], the fixtures of
      the builder's tests in module [builder_test].

    Definitions come first (modules [types], [events], [builder],
    [builder_prev], [examples], [vocabulary], [layout], [prev_layout],
    [gotime], [ierr], [models], [builder_test], [syntax], [occurrence]),
    then the facts, then one theorem per claim in module [claims], then
    the further properties in module [coverage]. *)

From Stdlib Require Import ZArith String Ascii List DecimalString Decimal DecimalNat.
From Stdlib Require Import Permutation Lia.
From stdpp Require Import gmap strings list fin_maps.

Local Open Scope string_scope.
Local Open Scope list_scope.

(** ** Text helpers: the parts of [fmt] and [strings] the builder uses *)

Definition nl : string := String "010" "".
Definition tab : string := String "009" "".

Fixpoint tabs (n : nat) (s : string) : string :=
  match n with
  | O => s
  | S k => tab +:+ tabs k s
  end.

(** [%d] applied to a non-negative [int]. *)
Definition itoa (n : nat) : string := NilEmpty.string_of_uint (Nat.to_uint n).

(** [%d] applied to any [int]. *)
Definition itoaZ (z : Z) : string := NilEmpty.string_of_int (Z.to_int z).

(** The verb pair [?%d]: one positional placeholder. *)
Definition ph (n : nat) : string := "?" +:+ itoa n.

(** [strings.Join]. *)
Fixpoint Join (elems : list string) (sep : string) : string :=
  match elems with
  | [] => ""
  | [s] => s
  | s :: rest => s +:+ sep +:+ Join rest sep
  end.

(** [strings.Split] on a one-character separator. *)
Fixpoint Split (s : string) (sep : ascii) : list string :=
  match s with
  | EmptyString => [""]
  | String c r =>
      if Ascii.eqb c sep then "" :: Split r sep
      else match Split r sep with
           | p :: ps => String c p :: ps
           | [] => [String c ""]
           end
  end.

(** White space, for texts of ASCII characters: space, tab, newline,
    vertical tab, form feed, carriage return. *)
Definition is_space (c : ascii) : bool :=
  let n := nat_of_ascii c in
  ((n =? 32) || ((9 <=? n) && (n <=? 13)))%nat.

Fixpoint TrimLeft (s : string) : string :=
  match s with
  | EmptyString => ""
  | String c r => if is_space c then TrimLeft r else s
  end.

Fixpoint TrimRight (s : string) : string :=
  match s with
  | EmptyString => ""
  | String c r =>
      match TrimRight r with
      | EmptyString => if is_space c then "" else String c ""
      | r' => String c r'
      end
  end.

(** [strings.TrimSpace]. *)
Definition TrimSpace (s : string) : string := TrimRight (TrimLeft s).

Fixpoint strip_prefix (p s : string) : option string :=
  match p, s with
  | EmptyString, _ => Some s
  | String a p', String b s' => if Ascii.eqb a b then strip_prefix p' s' else None
  | String _ _, EmptyString => None
  end.

(** [strings.HasPrefix]. *)
Definition HasPrefix (s p : string) : bool :=
  match strip_prefix p s with Some _ => true | None => false end.

(** [strings.TrimPrefix]. *)
Definition TrimPrefix (s p : string) : string :=
  match strip_prefix p s with Some r => r | None => s end.

(** ** Reading placeholders back from a statement text

    [placeholders] returns, in order of appearance, the numbers of all
    matches of the pattern [\?\d+] (the pattern the repository's own tests
    use to find placeholders). *)

Definition digit_of (c : ascii) : option nat :=
  let n := nat_of_ascii c in
  if ((48 <=? n) && (n <=? 57))%nat then Some (n - 48) else None.

Definition is_digit (c : ascii) : bool :=
  match digit_of c with Some _ => true | None => false end.

Fixpoint read_digits (acc : nat) (s : string) : nat :=
  match s with
  | EmptyString => acc
  | String c r =>
      match digit_of c with
      | Some d => read_digits (10 * acc + d) r
      | None => acc
      end
  end.

Definition leading_number (s : string) : option nat :=
  match s with
  | EmptyString => None
  | String c _ => if is_digit c then Some (read_digits 0 s) else None
  end.

Fixpoint placeholders (s : string) : list nat :=
  match s with
  | EmptyString => []
  | String c r =>
      if Ascii.eqb c "?" then
        match leading_number r with
        | Some n => n :: placeholders r
        | None => placeholders r
        end
      else placeholders r
  end.

(** ** Packages [types] and [events]: the declarations the builder uses *)

Module types.

(** Modelled from the spec: [types.AggregationType] is declared outside
  the builder; the four kinds the builder switches on are its named
  constants, and [AggregationOther] stands for every other value of
  the type (the switch has no default case). *)
Inductive AggregationType : Type :=
| AggregationCount
| AggregationSum
| AggregationAvg
| AggregationCountUnique
| AggregationOther (kind : string).

(** Modelled from the spec: the request context exposes read-only tenant
  and environment lookups; [types.GetTenantID] and
  [types.GetEnvironmentID] return the empty string when the context
  carries no value. *)
Record Context : Type := {
  ctx_tenant_id : option string;
  ctx_environment_id : option string
}.

Definition GetTenantID (ctx : Context) : string :=
  default "" (ctx_tenant_id ctx).

Definition GetEnvironmentID (ctx : Context) : string :=
  default "" (ctx_environment_id ctx).

End types.

(** [time.Time], as seconds and nanoseconds from Go's zero instant. *)
Record Time : Type := { sec : Z; nsec : Z }.

(** [Time.IsZero]: the zero instant, January 1, year 1, 00:00:00 UTC. *)
Definition IsZero (t : Time) : bool := ((sec t =? 0) && (nsec t =? 0))%Z.

Module events.

(** Modelled from the spec: [events.UsageParams], with the fields the
  builder and its tests read. A nil [Filters] map ranges like the empty
  map. *)
Record UsageParams : Type := {
  EventName : string;
  PropertyName : string;
  AggregationType : types.AggregationType;
  StartTime : Time;
  EndTime : Time;
  ExternalCustomerID : string;
  CustomerID : string;
  Filters : gmap string (list string)
}.

(** Modelled from the spec: [events.FilterGroup]. *)
Module FilterGroup.
Record t : Type := {
  ID : string;
  Priority : Z;
  Filters : gmap string (list string)
}.
End FilterGroup.

End events.

(** One execution of [for k, v := range m]: the entries as visited. *)
Definition Visit : Type := list (string * list string).

(** Go visits every entry of the map exactly once, in an unspecified
    order. *)
Definition ranges (m : gmap string (list string)) (v : Visit) : Prop :=
  v ≡ₚ map_to_list m.

(** An element of an [[]interface{}] argument slice. *)
Inductive Arg : Type :=
| ArgString (s : string)
| ArgTime (t : Time)
| ArgInt (n : Z).

(** ** Package [builder] *)

Module builder.

Import types events.

Record ParameterizedQuery : Type := {
  Query : string;
  Args : list Arg
}.

(** [CQuery] and [CArgs] are the fields [Query] and [Args] of the Go
    struct. *)
Record CTEComponent : Type := {
  Name : string;
  CQuery : string;
  CArgs : list Arg
}.

Record QueryBuilder : Type := {
  baseQuery : ParameterizedQuery;
  filterQuery : ParameterizedQuery;
  matchedQuery : ParameterizedQuery;
  finalQuery : ParameterizedQuery;
  cteComponents : list CTEComponent;
  params : option UsageParams
}.

Definition emptyQuery : ParameterizedQuery := {| Query := ""; Args := [] |}.

Definition NewQueryBuilder : QueryBuilder :=
  {| baseQuery := emptyQuery;
     filterQuery := emptyQuery;
     matchedQuery := emptyQuery;
     finalQuery := emptyQuery;
     cteComponents := [];
     params := None |}.

Definition getDeduplicationKey : string :=
  "tenant_id, environment_id, timestamp, id".

(** The conditions, arguments and next placeholder index a builder method
    accumulates while it runs. *)
Definition Acc : Type := (list string * list Arg * nat)%type.

Definition parseTimeConditionsWithIndex (params : UsageParams) (startIndex : nat) : Acc :=
  let conditions : list string := [] in
  let args : list Arg := [] in
  let argIndex := startIndex in
  let '(conditions, args, argIndex) :=
    if negb (IsZero (StartTime params)) then
      (conditions ++ ["timestamp >= toDateTime64(" +:+ ph argIndex +:+ ", 3)"],
       args ++ [ArgTime (StartTime params)],
       argIndex + 1)
    else (conditions, args, argIndex) in
  let '(conditions, args, argIndex) :=
    if negb (IsZero (EndTime params)) then
      (conditions ++ ["timestamp < toDateTime64(" +:+ ph argIndex +:+ ", 3)"],
       args ++ [ArgTime (EndTime params)],
       argIndex + 1)
    else (conditions, args, argIndex) in
  (conditions, args, argIndex).

(** The condition compiled for one visited entry with at least one value
    (the body of the [len(values) > 0] branch, the same text in
    [WithBaseFilters] and [WithFilterGroups]): the condition text, the
    arguments appended for it, and the next index. *)
Definition propertyCondition (argIndex : nat) (property : string) (values : list string)
  : string * list Arg * nat :=
  match values with
  | [v0] =>
      ("JSONExtractString(properties, " +:+ ph argIndex +:+ ") = " +:+ ph (argIndex + 1),
       [ArgString property; ArgString v0],
       argIndex + 2)
  | _ =>
      let placeholders := imap (fun i _ => ph (argIndex + i + 1)) values in
      ("JSONExtractString(properties, " +:+ ph argIndex +:+ ") IN ("
         +:+ Join placeholders "," +:+ ")",
       (ArgString <$> values) ++ [ArgString property],
       argIndex + length values + 1)
  end.

(** One iteration of [for property, values := range filters]. *)
Definition filterStep (acc : Acc) (entry : string * list string) : Acc :=
  let '(conditions, args, argIndex) := acc in
  let '(property, values) := entry in
  match values with
  | [] => acc
  | _ =>
      let '(condition, newArgs, argIndex') := propertyCondition argIndex property values in
      (conditions ++ [condition], args ++ newArgs, argIndex')
  end.

Definition baseConditions (ctx : Context) (params : UsageParams) (visit : Visit) : Acc :=
  let conditions : list string := [] in
  let args : list Arg := [] in
  let argIndex := 1 in
  (* Event name parameter *)
  let conditions := conditions ++ ["event_name = " +:+ ph argIndex] in
  let args := args ++ [ArgString (EventName params)] in
  let argIndex := argIndex + 1 in
  (* Tenant ID parameter *)
  let tenantID := GetTenantID ctx in
  let '(conditions, args, argIndex) :=
    if negb (String.eqb tenantID "") then
      (conditions ++ ["tenant_id = " +:+ ph argIndex], args ++ [ArgString tenantID], argIndex + 1)
    else (conditions, args, argIndex) in
  (* Environment ID parameter *)
  let environmentID := GetEnvironmentID ctx in
  let '(conditions, args, argIndex) :=
    if negb (String.eqb environmentID "") then
      (conditions ++ ["environment_id = " +:+ ph argIndex], args ++ [ArgString environmentID],
       argIndex + 1)
    else (conditions, args, argIndex) in
  (* Time conditions *)
  let '(timeConditions, timeArgs, newArgIndex) := parseTimeConditionsWithIndex params argIndex in
  let conditions := conditions ++ timeConditions in
  let args := args ++ timeArgs in
  let argIndex := newArgIndex in
  (* Customer ID parameters *)
  let '(conditions, args, argIndex) :=
    if negb (String.eqb (ExternalCustomerID params) "") then
      (conditions ++ ["external_customer_id = " +:+ ph argIndex],
       args ++ [ArgString (ExternalCustomerID params)], argIndex + 1)
    else (conditions, args, argIndex) in
  let '(conditions, args, argIndex) :=
    if negb (String.eqb (CustomerID params) "") then
      (conditions ++ ["customer_id = " +:+ ph argIndex],
       args ++ [ArgString (CustomerID params)], argIndex + 1)
    else (conditions, args, argIndex) in
  (* Filter parameters *)
  fold_left filterStep visit (conditions, args, argIndex).

Definition baseText (whereClause : string) : string :=
  "base_events AS (" +:+ nl
  +:+ tabs 3 "SELECT * FROM (" +:+ nl
  +:+ tabs 4 "SELECT DISTINCT ON (" +:+ getDeduplicationKey +:+ ") * FROM events WHERE "
  +:+ whereClause +:+ " ORDER BY " +:+ getDeduplicationKey +:+ " DESC" +:+ nl
  +:+ tabs 3 ")" +:+ nl
  +:+ tabs 2 ")".

Definition WithBaseFilters (ctx : Context) (params : UsageParams) (visit : Visit)
  (qb : QueryBuilder) : QueryBuilder :=
  let '(conditions, args, _) := baseConditions ctx params visit in
  let whereClause := Join conditions " AND " in
  let query := baseText whereClause in
  {| baseQuery := {| Query := query; Args := args |};
     filterQuery := filterQuery qb;
     matchedQuery := matchedQuery qb;
     finalQuery := finalQuery qb;
     cteComponents :=
       cteComponents qb ++ [{| Name := "base_events"; CQuery := query; CArgs := args |}];
     params := Some params |}.

(** One iteration of [for _, group := range groups]; [visit] is the order
    in which the inner loop ranges over [group.Filters]. *)
Definition groupStep (acc : Acc) (gv : FilterGroup.t * Visit) : Acc :=
  let '(filterConditions, allArgs, argIndex) := acc in
  let '(group, visit) := gv in
  let conditions : list string := [] in
  let groupArgs : list Arg := [] in
  let localArgIndex := argIndex in
  let '(conditions, groupArgs, localArgIndex) :=
    fold_left filterStep visit (conditions, groupArgs, localArgIndex) in
  (* Update the global argument index *)
  let argIndex := localArgIndex in
  if (0 <? length conditions)%nat then
    (filterConditions ++
       ["(" +:+ ph argIndex +:+ ", " +:+ ph (argIndex + 1) +:+ ", ("
          +:+ Join conditions " AND " +:+ "))"],
     (allArgs ++ [ArgString (FilterGroup.ID group); ArgInt (FilterGroup.Priority group)])
       ++ groupArgs,
     argIndex + 2)
  else
    (filterConditions ++
       ["(" +:+ ph argIndex +:+ ", " +:+ ph (argIndex + 1) +:+ ", 1)"],
     allArgs ++ [ArgString (FilterGroup.ID group); ArgInt (FilterGroup.Priority group)],
     argIndex + 2).

Definition filterConditions (groups : list (FilterGroup.t * Visit)) : Acc :=
  fold_left groupStep groups ([], [], 1).

Definition filterText (joined : string) : string :=
  "filter_matches AS (" +:+ nl
  +:+ tabs 2 "SELECT " +:+ nl
  +:+ tabs 3 "id," +:+ nl
  +:+ tabs 3 "timestamp," +:+ nl
  +:+ tabs 3 "properties," +:+ nl
  +:+ tabs 3 "arrayMap(x -> (" +:+ nl
  +:+ tabs 4 "x.1," +:+ nl
  +:+ tabs 4 "x.2," +:+ nl
  +:+ tabs 4 "x.3" +:+ nl
  +:+ tabs 3 "), [" +:+ joined +:+ "]) as group_matches" +:+ nl
  +:+ tabs 2 "FROM base_events" +:+ nl
  +:+ tabs 1 ")".

Definition matchedQueryText : string :=
  Join [ "matched_events AS (";
         tabs 2 "SELECT";
         tabs 3 "id,";
         tabs 3 "timestamp,";
         tabs 3 "properties,";
         tabs 3 "arrayJoin(group_matches) as matched_group,";
         tabs 3 "matched_group.1 as group_id,";
         tabs 3 "matched_group.2 as total_filters,";
         tabs 3 "matched_group.3 as matches";
         tabs 2 "FROM filter_matches";
         tabs 1 "),";
         tabs 1 "best_matches AS (";
         tabs 2 "SELECT";
         tabs 3 "id,";
         tabs 3 "properties,";
         tabs 3 "argMax(group_id, (total_filters, group_id)) as best_match_group";
         tabs 2 "FROM matched_events";
         tabs 2 "WHERE matches = 1";
         tabs 2 "GROUP BY id, properties";
         tabs 1 ")" ] nl.

(** The loop that splits the matched query at every comma and appends the
    non-empty pieces as components. *)
Definition matchedComponents : list CTEComponent :=
  concat (imap (fun i cte =>
    let cte := TrimSpace cte in
    if negb (String.eqb cte "") then
      let cte :=
        if (i =? 0)%nat then TrimPrefix cte "matched_events AS (" else TrimSpace cte in
      [{| Name := "matched_cte_" +:+ itoa i; CQuery := cte; CArgs := [] |}]
    else []) (Split matchedQueryText ",")).

Definition WithFilterGroups (ctx : Context) (groups : list (FilterGroup.t * Visit))
  (qb : QueryBuilder) : QueryBuilder :=
  match groups with
  | [] => qb
  | _ =>
      let '(fcs, allArgs, _) := filterConditions groups in
      let query := filterText (Join fcs ("," +:+ nl +:+ tabs 3 "")) in
      {| baseQuery := baseQuery qb;
         filterQuery := {| Query := query; Args := allArgs |};
         matchedQuery := {| Query := matchedQueryText; Args := [] |};
         finalQuery := finalQuery qb;
         cteComponents :=
           (cteComponents qb
              ++ [{| Name := "filter_matches"; CQuery := query; CArgs := allArgs |}])
             ++ matchedComponents;
         params := params qb |}
  end.

Definition aggregationClause (aggType : types.AggregationType) (propertyName : string)
  : string * list Arg * nat :=
  let aggClause := "" in
  let args : list Arg := [] in
  let argIndex := 1 in
  match aggType with
  | AggregationCount => ("COUNT(*)", args, argIndex)
  | AggregationSum =>
      ("SUM(CAST(JSONExtractString(properties, " +:+ ph argIndex +:+ ") AS Float64))",
       args ++ [ArgString propertyName], argIndex + 1)
  | AggregationAvg =>
      ("AVG(CAST(JSONExtractString(properties, " +:+ ph argIndex +:+ ") AS Float64))",
       args ++ [ArgString propertyName], argIndex + 1)
  | AggregationCountUnique =>
      ("COUNT(DISTINCT JSONExtractString(properties, " +:+ ph argIndex +:+ "))",
       args ++ [ArgString propertyName], argIndex + 1)
  | AggregationOther _ => (aggClause, args, argIndex)
  end.

Definition WithAggregation (ctx : Context) (aggType : types.AggregationType)
  (propertyName : string) (qb : QueryBuilder) : QueryBuilder :=
  let '(aggClause, args, _) := aggregationClause aggType propertyName in
  let query :=
    "SELECT best_match_group as filter_group_id, " +:+ aggClause
    +:+ " as value FROM best_matches GROUP BY best_match_group ORDER BY best_match_group" in
  {| baseQuery := baseQuery qb;
     filterQuery := filterQuery qb;
     matchedQuery := matchedQuery qb;
     finalQuery := {| Query := query; Args := args |};
     cteComponents := cteComponents qb;
     params := params qb |}.

Definition Build (qb : QueryBuilder) : string * list Arg :=
  let cteParts := CQuery <$> cteComponents qb in
  let allArgs := concat (CArgs <$> cteComponents qb) in
  (* Join CTEs with commas *)
  let ctePart := Join cteParts ("," +:+ nl) in
  (* Combine CTEs with final query *)
  let finalQueryText := "WITH " +:+ ctePart +:+ nl +:+ Query (finalQuery qb) in
  (finalQueryText, allArgs ++ Args (finalQuery qb)).

(** The call sequence of the repository's tests:
    [NewQueryBuilder().WithBaseFilters(..).WithFilterGroups(..).WithAggregation(..).Build()]. *)
Definition compile (ctx : Context) (params : UsageParams) (visit : Visit)
  (groups : list (FilterGroup.t * Visit)) (aggType : types.AggregationType)
  (propertyName : string) : string * list Arg :=
  Build (WithAggregation ctx aggType propertyName
           (WithFilterGroups ctx groups
              (WithBaseFilters ctx params visit NewQueryBuilder))).

End builder.

(** ** The earlier revision of the builder

    The sources also carry an earlier revision of the same package (the
    one the test suite was written against). It differs from the builder
    above in that property names, group identifiers and priorities are
    written into the text between quotes, time bounds are passed as
    formatted strings behind an unnumbered [?], and [Build] wraps every
    component in [name AS (...)]. Only what differs is modelled. *)

Module builder_prev.

Import types events builder.

Section WithFormat.

(** [formatClickHouseDateTime]: [t.UTC().Format("2006-01-02 15:04:05.000")],
    the rendering of Go's [time] package. *)
Variable formatClickHouseDateTime : Time -> string.

Definition parseTimeConditions (params : UsageParams) : list string * list Arg :=
  let conditions : list string := [] in
  let args : list Arg := [] in
  let '(conditions, args) :=
    if negb (IsZero (StartTime params)) then
      (conditions ++ ["timestamp >= toDateTime64(?, 3)"],
       args ++ [ArgString (formatClickHouseDateTime (StartTime params))])
    else (conditions, args) in
  let '(conditions, args) :=
    if negb (IsZero (EndTime params)) then
      (conditions ++ ["timestamp < toDateTime64(?, 3)"],
       args ++ [ArgString (formatClickHouseDateTime (EndTime params))])
    else (conditions, args) in
  (conditions, args).

Definition propertyCondition (argIndex : nat) (property : string) (values : list string)
  : string * list Arg * nat :=
  match values with
  | [v0] =>
      ("JSONExtractString(properties, '" +:+ property +:+ "') = " +:+ ph argIndex,
       [ArgString v0],
       argIndex + 1)
  | _ =>
      let placeholders := imap (fun i _ => ph (argIndex + i)) values in
      ("JSONExtractString(properties, '" +:+ property +:+ "') IN ("
         +:+ Join placeholders "," +:+ ")",
       ArgString <$> values,
       argIndex + length values)
  end.

Definition filterStep (acc : Acc) (entry : string * list string) : Acc :=
  let '(conditions, args, argIndex) := acc in
  let '(property, values) := entry in
  match values with
  | [] => acc
  | _ =>
      let '(condition, newArgs, argIndex') := propertyCondition argIndex property values in
      (conditions ++ [condition], args ++ newArgs, argIndex')
  end.

Definition baseConditions (ctx : Context) (params : UsageParams) (visit : Visit) : Acc :=
  let conditions : list string := [] in
  let args : list Arg := [] in
  let argIndex := 1 in
  let conditions := conditions ++ ["event_name = " +:+ ph argIndex] in
  let args := args ++ [ArgString (EventName params)] in
  let argIndex := argIndex + 1 in
  let tenantID := GetTenantID ctx in
  let '(conditions, args, argIndex) :=
    if negb (String.eqb tenantID "") then
      (conditions ++ ["tenant_id = " +:+ ph argIndex], args ++ [ArgString tenantID], argIndex + 1)
    else (conditions, args, argIndex) in
  let environmentID := GetEnvironmentID ctx in
  let '(conditions, args, argIndex) :=
    if negb (String.eqb environmentID "") then
      (conditions ++ ["environment_id = " +:+ ph argIndex], args ++ [ArgString environmentID],
       argIndex + 1)
    else (conditions, args, argIndex) in
  let '(timeConditions, timeArgs) := parseTimeConditions params in
  let conditions := conditions ++ timeConditions in
  let args := args ++ timeArgs in
  let argIndex := argIndex + length timeArgs in
  let '(conditions, args, argIndex) :=
    if negb (String.eqb (ExternalCustomerID params) "") then
      (conditions ++ ["external_customer_id = " +:+ ph argIndex],
       args ++ [ArgString (ExternalCustomerID params)], argIndex + 1)
    else (conditions, args, argIndex) in
  let '(conditions, args, argIndex) :=
    if negb (String.eqb (CustomerID params) "") then
      (conditions ++ ["customer_id = " +:+ ph argIndex],
       args ++ [ArgString (CustomerID params)], argIndex + 1)
    else (conditions, args, argIndex) in
  fold_left filterStep visit (conditions, args, argIndex).

Definition WithBaseFilters (ctx : Context) (params : UsageParams) (visit : Visit)
  (qb : QueryBuilder) : QueryBuilder :=
  let '(conditions, args, _) := baseConditions ctx params visit in
  let whereClause := Join conditions " AND " in
  let query := baseText whereClause in
  {| baseQuery := {| Query := query; Args := args |};
     filterQuery := filterQuery qb;
     matchedQuery := matchedQuery qb;
     finalQuery := finalQuery qb;
     cteComponents :=
       cteComponents qb ++ [{| Name := "base_events"; CQuery := query; CArgs := args |}];
     params := Some params |}.

Definition groupStep (acc : Acc) (gv : FilterGroup.t * Visit) : Acc :=
  let '(filterConditions, allArgs, argIndex) := acc in
  let '(group, visit) := gv in
  let '(conditions, groupArgs, localArgIndex) :=
    fold_left filterStep visit ([], [], argIndex) in
  let argIndex := localArgIndex in
  if (0 <? length conditions)%nat then
    (filterConditions ++
       ["('" +:+ FilterGroup.ID group +:+ "', " +:+ itoaZ (FilterGroup.Priority group)
          +:+ ", (" +:+ Join conditions " AND " +:+ "))"],
     allArgs ++ groupArgs,
     argIndex)
  else
    (filterConditions ++
       ["('" +:+ FilterGroup.ID group +:+ "', " +:+ itoaZ (FilterGroup.Priority group)
          +:+ ", 1)"],
     allArgs,
     argIndex).

Definition WithFilterGroups (ctx : Context) (groups : list (FilterGroup.t * Visit))
  (qb : QueryBuilder) : QueryBuilder :=
  match groups with
  | [] => qb
  | _ =>
      let '(fcs, allArgs, _) := fold_left groupStep groups ([], [], 1) in
      let query := filterText (Join fcs ("," +:+ nl +:+ tabs 3 "")) in
      {| baseQuery := baseQuery qb;
         filterQuery := {| Query := query; Args := allArgs |};
         matchedQuery := {| Query := matchedQueryText; Args := [] |};
         finalQuery := finalQuery qb;
         cteComponents :=
           (cteComponents qb
              ++ [{| Name := "filter_matches"; CQuery := query; CArgs := allArgs |}])
             ++ matchedComponents;
         params := params qb |}
  end.

Definition Build (qb : QueryBuilder) : string * list Arg :=
  let cteParts :=
    (fun component => Name component +:+ " AS (" +:+ CQuery component +:+ ")")
      <$> cteComponents qb in
  let allArgs := concat (CArgs <$> cteComponents qb) in
  let ctePart := Join cteParts ("," +:+ nl) in
  let finalQueryText := "WITH " +:+ ctePart +:+ nl +:+ Query (finalQuery qb) in
  (finalQueryText, allArgs ++ Args (finalQuery qb)).

Definition compile (ctx : Context) (params : UsageParams) (visit : Visit)
  (groups : list (FilterGroup.t * Visit)) (aggType : types.AggregationType)
  (propertyName : string) : string * list Arg :=
  Build (WithAggregation ctx aggType propertyName
           (WithFilterGroups ctx groups
              (WithBaseFilters ctx params visit NewQueryBuilder))).

End WithFormat.

End builder_prev.

(** ** Worked examples *)

Module examples.

Import types events builder.

Definition T0 : Time := {| sec := 63839664000; nsec := 0 |}.
Definition T1 : Time := {| sec := 63842342399; nsec := 0 |}.

Definition noContext : Context := {| ctx_tenant_id := None; ctx_environment_id := None |}.

Definition apiCall : UsageParams :=
  {| EventName := "api_call";
     PropertyName := "";
     AggregationType := AggregationCount;
     StartTime := T0;
     EndTime := T1;
     ExternalCustomerID := "";
     CustomerID := "";
     Filters := {[ "region" := ["us-east-1"; "us-west-1"] ]} |}.

Definition goldGroup : FilterGroup.t :=
  {| FilterGroup.ID := "g1";
     FilterGroup.Priority := 2;
     FilterGroup.Filters := {[ "tier" := ["gold"] ]} |}.

Definition twoFilters : UsageParams :=
  {| EventName := "api_call";
     PropertyName := "";
     AggregationType := AggregationCount;
     StartTime := {| sec := 0; nsec := 0 |};
     EndTime := {| sec := 0; nsec := 0 |};
     ExternalCustomerID := "";
     CustomerID := "";
     Filters := <[ "method" := ["GET"] ]> {[ "endpoint" := ["/users"; "/orders"] ]} |}.

Definition endpointFirst : Visit :=
  [("endpoint", ["/users"; "/orders"]); ("method", ["GET"])].
Definition methodFirst : Visit :=
  [("method", ["GET"]); ("endpoint", ["/users"; "/orders"])].

Definition silverGroup : FilterGroup.t :=
  {| FilterGroup.ID := "g2";
     FilterGroup.Priority := 1;
     FilterGroup.Filters := {[ "tier" := ["gold"] ]} |}.

(** A stand-in for the formatted rendering of a time value. *)
Definition fixedFormat (t : Time) : string := "2024-01-01 00:00:00.000".

Definition regionVisit : Visit := [("region", ["us-east-1"; "us-west-1"])].
Definition tierVisit : Visit := [("tier", ["gold"])].

End examples.

(** ** Vocabulary of the statements

    The predicates the facts below are stated with: what a text emits
    when it is read for placeholders, the invariants of the accumulators,
    and the shape of an input. *)

Module vocabulary.

Import types events builder.

(** A text that is empty or starts with something else than a digit: what
    may follow a placeholder without being read as part of its number. *)
Definition nodigit (s : string) : Prop :=
  match s with
  | EmptyString => True
  | String c _ => is_digit c = false
  end.

Fixpoint no_qmark (s : string) : bool :=
  match s with
  | EmptyString => true
  | String c r => negb (Ascii.eqb c "?") && no_qmark r
  end.

Definition nodigit_b (s : string) : bool :=
  match s with
  | EmptyString => true
  | String c _ => negb (is_digit c)
  end.

(** [emits s ns]: wherever the text [s] is followed by something that does
    not start with a digit, the placeholders read from it are [ns], and
    reading goes on after it. *)
Definition emits (s : string) (ns : list nat) : Prop :=
  forall r, nodigit r -> placeholders (s +:+ r) = ns ++ placeholders r.

(** A condition or fragment: it emits [ns] and may itself follow a
    placeholder. *)
Definition cond_ok (c : string) (ns : list nat) : Prop := emits c ns /\ nodigit c.

(** The invariant of an accumulator whose placeholder numbering started at
    [start]: the conditions emit [start], [start+1], ... in order, one
    number per accumulated argument, and the index is the next free
    number. *)
Definition acc_ok (start : nat) (acc : Acc) : Prop :=
  exists nss : list (list nat),
    Forall2 cond_ok acc.1.1 nss
    /\ concat nss = seq start (acc.2 - start)
    /\ length acc.1.2 = acc.2 - start
    /\ start <= acc.2.

(** The invariant of the accumulator of [WithFilterGroups]: numbering
    starts at 1, every number below the index is used exactly once, but
    not in textual order (a group's identifier and priority are numbered
    after its conditions and written before them). *)
Definition facc_ok (acc : Acc) : Prop :=
  exists nss : list (list nat),
    Forall2 cond_ok acc.1.1 nss
    /\ concat nss ≡ₚ seq 1 (acc.2 - 1)
    /\ length acc.1.2 = acc.2 - 1
    /\ 1 <= acc.2.

Definition is_property_condition (c : string) : Prop :=
  HasPrefix c "JSONExtractString(properties, " = true.

Definition is_string_arg (a : Arg) : Prop :=
  match a with ArgString _ => True | _ => False end.

(** [has_condition prefix conditions]: one of the ANDed conditions starts
    with [prefix]. *)
Definition has_condition (prefix : string) (conditions : list string) : bool :=
  existsb (fun c => HasPrefix c prefix) conditions.

Definition arg_time (a : Arg) : option Time :=
  match a with ArgTime t => Some t | _ => None end.

(** A component, or the final query, is well numbered when its text uses
    every number from 1 to the number of its arguments exactly once. *)
Definition well_numbered (text : string) (args : list Arg) : Prop :=
  exists ns : list nat, cond_ok text ns /\ ns ≡ₚ seq 1 (length args).

Definition comp_ok (c : CTEComponent) : Prop := well_numbered (CQuery c) (CArgs c).

Definition qb_ok (qb : QueryBuilder) : Prop :=
  Forall comp_ok (cteComponents qb)
  /\ well_numbered (Query (finalQuery qb)) (Args (finalQuery qb)).

Definition plain_component (c : CTEComponent) : bool :=
  no_qmark (CQuery c) && nodigit_b (CQuery c) && bool_decide (length (CArgs c) = 0).

Definition same_shape_visit (v v' : Visit) : Prop :=
  Forall2 (fun e e' : string * list string => length e.2 = length e'.2) v v'.

Definition same_shape_params (p p' : UsageParams) : Prop :=
  IsZero (StartTime p) = IsZero (StartTime p')
  /\ IsZero (EndTime p) = IsZero (EndTime p')
  /\ String.eqb (ExternalCustomerID p) "" = String.eqb (ExternalCustomerID p') ""
  /\ String.eqb (CustomerID p) "" = String.eqb (CustomerID p') "".

Definition same_shape_context (ctx ctx' : Context) : Prop :=
  String.eqb (GetTenantID ctx) "" = String.eqb (GetTenantID ctx') ""
  /\ String.eqb (GetEnvironmentID ctx) "" = String.eqb (GetEnvironmentID ctx') "".

Definition same_shape_groups (gs gs' : list (FilterGroup.t * Visit)) : Prop :=
  Forall2 (fun g g' : FilterGroup.t * Visit => same_shape_visit g.2 g'.2) gs gs'.

(** The caller strings of one visited filter map all occur in [args]. *)
Definition binds_visit (visit : Visit) (args : list Arg) : Prop :=
  forall (property : string) (values : list string),
    In (property, values) visit -> values <> [] ->
    In (ArgString property) args
    /\ forall v : string, In v values -> In (ArgString v) args.

(** The caller values of every filter group all occur in [args]. *)
Definition binds_groups (groups : list (FilterGroup.t * Visit)) (args : list Arg) : Prop :=
  forall (g : FilterGroup.t) (visit : Visit),
    In (g, visit) groups ->
    In (ArgString (FilterGroup.ID g)) args
    /\ In (ArgInt (FilterGroup.Priority g)) args
    /\ binds_visit visit args.

(** The builder states any sequence of method calls can produce. *)
Inductive reachable : QueryBuilder -> Prop :=
| reach_new : reachable NewQueryBuilder
| reach_base ctx params visit qb :
    reachable qb -> reachable (WithBaseFilters ctx params visit qb)
| reach_groups ctx groups qb :
    reachable qb -> reachable (WithFilterGroups ctx groups qb)
| reach_aggregation ctx aggType propertyName qb :
    reachable qb -> reachable (WithAggregation ctx aggType propertyName qb).

(** A fragment of a compiled statement: the placeholder numbers its text
    shows, in order, and the arguments it contributes. *)
Definition Fragment : Type := (list nat * list Arg)%type.

(** Numbering is per fragment: exactly the numbers 1..n, each once, for
    the fragment's n arguments. *)
Definition fragment_numbered (f : Fragment) : Prop := f.1 ≡ₚ seq 1 (length f.2).

(** The numbering the output contract asks of a whole statement: the
    placeholders read 1, 2, ..., N for the N returned arguments. *)
Definition contiguous_numbering (out : string * list Arg) : Prop :=
  placeholders out.1 = seq 1 (length out.2).

End vocabulary.

(** ** Closed forms of the argument lists

    What the builder's loops add up to, written without the loops: the
    statements about the layout of the argument lists compare the
    accumulators of [builder] with these. *)

(** [strings.Contains]. *)
Fixpoint Contains (s substr : string) : bool :=
  HasPrefix s substr
  || match s with
     | EmptyString => false
     | String _ r => Contains r substr
     end.

Module layout.

Import types events builder.

(** A visited entry that compiles to a condition: one with at least one
    value. *)
Definition usable (entry : string * list string) : Prop := entry.2 <> [].

(** The arguments one visited filter entry contributes: nothing for an
    entry without values, the property name and the value for a single
    value, the values and then the property name for several. *)
Definition entryArgs (entry : string * list string) : list Arg :=
  match entry.2 with
  | [] => []
  | [v] => [ArgString entry.1; ArgString v]
  | vs => (ArgString <$> vs) ++ [ArgString entry.1]
  end.

Definition visitArgs (visit : Visit) : list Arg := concat (entryArgs <$> visit).

(** An optional string argument: bound only when it is not empty. *)
Definition optionalArg (s : string) : list Arg :=
  if String.eqb s "" then [] else [ArgString s].

(** An optional time bound: bound only when it is set. *)
Definition optionalTime (t : Time) : list Arg :=
  if IsZero t then [] else [ArgTime t].

Definition baseArgs (ctx : Context) (params : UsageParams) (visit : Visit) : list Arg :=
  [ArgString (EventName params)]
    ++ optionalArg (GetTenantID ctx) ++ optionalArg (GetEnvironmentID ctx)
    ++ optionalTime (StartTime params) ++ optionalTime (EndTime params)
    ++ optionalArg (ExternalCustomerID params) ++ optionalArg (CustomerID params)
    ++ visitArgs visit.

Definition groupArgs (gv : FilterGroup.t * Visit) : list Arg :=
  [ArgString (FilterGroup.ID gv.1); ArgInt (FilterGroup.Priority gv.1)] ++ visitArgs gv.2.

(** The number of arguments a visited entry contributes. *)
Definition entryCount (entry : string * list string) : nat :=
  match entry.2 with
  | [] => 0
  | vs => 1 + length vs
  end.

(** The number of arguments of the final query. *)
Definition aggregationCount (aggType : types.AggregationType) : nat :=
  match aggType with
  | AggregationSum | AggregationAvg | AggregationCountUnique => 1
  | AggregationCount | AggregationOther _ => 0
  end.

(** A time value among the arguments is a bound that is set. *)
Definition time_arg_set (a : Arg) : Prop :=
  match a with ArgTime t => IsZero t = false | _ => True end.

(** A filter group without filters, the bucket of everything else. *)
Definition otherGroup : FilterGroup.t :=
  {| FilterGroup.ID := "other";
     FilterGroup.Priority := 0;
     FilterGroup.Filters := ∅ |}.

End layout.

(** The same for the earlier revision, which binds the values only and
    the time bounds as formatted strings. *)

Module prev_layout.

Import types events builder layout vocabulary.

Section WithFormat.

Variable formatClickHouseDateTime : Time -> string.

Definition optionalBound (t : Time) : list Arg :=
  if IsZero t then [] else [ArgString (formatClickHouseDateTime t)].

Definition visitValues (visit : Visit) : list Arg :=
  concat ((fun e : string * list string => ArgString <$> e.2) <$> visit).

Definition baseArgs (ctx : Context) (params : UsageParams) (visit : Visit) : list Arg :=
  [ArgString (EventName params)]
    ++ optionalArg (GetTenantID ctx) ++ optionalArg (GetEnvironmentID ctx)
    ++ optionalBound (StartTime params) ++ optionalBound (EndTime params)
    ++ optionalArg (ExternalCustomerID params) ++ optionalArg (CustomerID params)
    ++ visitValues visit.

End WithFormat.

(** The earlier revision writes property names and group identifiers
    into the text: its numbering is stated for names and identifiers
    without a question mark. *)
Definition plain_group (gv : FilterGroup.t * Visit) : Prop :=
  no_qmark (FilterGroup.ID gv.1) = true
  /\ Forall (fun e : string * list string => no_qmark e.1 = true) gv.2.

End prev_layout.

(** ** [formatClickHouseDateTime]

    [t.UTC().Format("2006-01-02 15:04:05.000")]: the civil date and the
    clock of an instant in UTC, as Go's [time] package computes them, in
    zero-padded decimal fields, with the nanoseconds cut to three digits.
    A [Time] counts from January 1 of year 1, so that day 0 is the first
    day of a 400-year cycle. *)

Module gotime.

Definition secondsPerDay : Z := 86400.
Definition daysPer400Years : Z := 146097.
Definition daysPer100Years : Z := 36524.
Definition daysPer4Years : Z := 1461.

Definition isLeap (year : Z) : bool :=
  ((year mod 4 =? 0) && (negb (year mod 100 =? 0) || (year mod 400 =? 0)))%Z.

(** [daysBefore[m]]: the days of a non-leap year before month [m+1]. *)
Definition daysBefore : list Z :=
  [0; 31; 59; 90; 120; 151; 181; 212; 243; 273; 304; 334; 365]%Z.

(** The year and the zero-based day of the year of day [d]. *)
Definition absDate (d : Z) : Z * Z :=
  ((* Account for 400 year cycles. *)
   let n := d / daysPer400Years in
   let y := 400 * n in
   let d := d - daysPer400Years * n in
   (* Cut off 100-year cycles. *)
   let n := d / daysPer100Years in
   let n := n - Z.shiftr n 2 in
   let y := y + 100 * n in
   let d := d - daysPer100Years * n in
   (* Cut off 4-year cycles. *)
   let n := d / daysPer4Years in
   let y := y + 4 * n in
   let d := d - daysPer4Years * n in
   (* Cut off years within a 4-year cycle. *)
   let n := d / 365 in
   let n := n - Z.shiftr n 2 in
   let y := y + n in
   let d := d - 365 * n in
   (y + 1, d))%Z.

(** The month and the day of the month of the zero-based day [yday] of
    [year]. *)
Definition monthDay (year yday : Z) : Z * Z :=
  (let day := yday in
   if isLeap year && (day =? 31 + 29 - 1) then (2, 29)
   else
     let day := if isLeap year && (31 + 29 - 1 <? day) then day - 1 else day in
     (* Estimate month on assumption that every month has 31 days. *)
     let month := day / 31 in
     let end_ := nth (Z.to_nat (month + 1)) daysBefore 0 in
     let '(month, begin) :=
       if end_ <=? day then (month + 1, end_)
       else (month, nth (Z.to_nat month) daysBefore 0) in
     (month + 1, day - begin + 1))%Z.

Definition digit_char (d : Z) : ascii := ascii_of_nat (48 + Z.to_nat d).

(** The [n] lowest decimal digits of [u], most significant first. *)
Fixpoint digits (n : nat) (u : Z) : string :=
  match n with
  | O => ""
  | S k => digits k (u / 10) +:+ String (digit_char (u mod 10)) ""
  end.

(** The number of decimal digits of a 64-bit [u] (none for 0): the loop
    [for u2 := u; u2 > 0; u2 /= 10], which ends within 20 rounds. *)
Fixpoint digitsLen (rounds : nat) (u : Z) : nat :=
  match rounds with
  | O => 0
  | S f => if (0 <? u)%Z then S (digitsLen f (u / 10)) else 0
  end.

(** [appendInt]: [x] in decimal, padded with zeros to [width] digits. *)
Definition appendInt (x : Z) (width : nat) : string :=
  let u := Z.abs x in
  let n := if (u =? 0)%Z then 1%nat else digitsLen 20 u in
  (if (x <? 0)%Z then "-" else "") +:+ digits (Nat.max width n) u.

(** The fraction [.000]: the nanoseconds as nine digits, cut to three. *)
Definition appendNano3 (nanosec : Z) : string :=
  "." +:+ substring 0 3 (appendInt nanosec 9).

Definition formatClickHouseDateTime (t : Time) : string :=
  let days := (sec t / secondsPerDay)%Z in
  let rest := (sec t mod secondsPerDay)%Z in
  let '(year, yday) := absDate days in
  let '(month, day) := monthDay year yday in
  let hour := (rest / 3600)%Z in
  let min := (rest mod 3600 / 60)%Z in
  let second := (rest mod 60)%Z in
  appendInt year 4 +:+ "-" +:+ appendInt month 2 +:+ "-" +:+ appendInt day 2
  +:+ " " +:+ appendInt hour 2 +:+ ":" +:+ appendInt min 2 +:+ ":" +:+ appendInt second 2
  +:+ appendNano3 (nsec t).

(** The pattern the tests match a formatted bound against:
    [^\d{4}-\d{2}-\d{2} \d{2}:\d{2}:\d{2}\.\d{3}$]. *)
Inductive Class : Type := Digit | Lit (c : ascii).

Definition class_matches (k : Class) (c : ascii) : bool :=
  match k with
  | Digit => is_digit c
  | Lit l => Ascii.eqb c l
  end.

Fixpoint matches_classes (ks : list Class) (s : string) : bool :=
  match ks, s with
  | [], EmptyString => true
  | k :: ks', String c r => class_matches k c && matches_classes ks' r
  | _, _ => false
  end.

Definition datetime_pattern : list Class :=
  [Digit; Digit; Digit; Digit; Lit "-"; Digit; Digit; Lit "-"; Digit; Digit; Lit " ";
   Digit; Digit; Lit ":"; Digit; Digit; Lit ":"; Digit; Digit; Lit "."; Digit; Digit; Digit].

(** An instant of the years 1 to 9999, with its nanoseconds within the
    second. *)
Definition year_range (t : Time) : Prop :=
  (0 <= sec t < 315537897600 /\ 0 <= nsec t < 1000000000)%Z.

(** December 25, 2024, 14:30:45.123 UTC, the instant of the format test. *)
Definition christmas : Time := {| sec := 63870733845; nsec := 123000000 |}.

End gotime.

(** ** Package [models]: the input of the price sync workflow *)

(** Modelled from the spec: the error builder of package [errors], as far
    as [Validate] uses it: an error carries a message, a hint and the
    sentinel it is marked with. *)
Module ierr.

Inductive Sentinel : Type := ErrValidation.

Record Error : Type := {
  message : string;
  hint : string;
  marked : option Sentinel
}.

Definition NewError (msg : string) : Error :=
  {| message := msg; hint := ""; marked := None |}.

Definition WithHint (h : string) (e : Error) : Error :=
  {| message := message e; hint := h; marked := marked e |}.

Definition Mark (s : Sentinel) (e : Error) : Error :=
  {| message := message e; hint := hint e; marked := Some s |}.

End ierr.

Module models.

Record PriceSyncWorkflowInput : Type := {
  PlanID : string;
  TenantID : string;
  EnvironmentID : string;
  UserID : string
}.

(** [Validate] returns [nil] ([None]) or the error. *)
Definition Validate (p : PriceSyncWorkflowInput) : option ierr.Error :=
  if String.eqb (PlanID p) "" then
    Some (ierr.Mark ierr.ErrValidation
            (ierr.WithHint "Plan ID is required" (ierr.NewError "plan ID is required")))
  else if String.eqb (TenantID p) "" || String.eqb (EnvironmentID p) ""
          || String.eqb (UserID p) "" then
    Some (ierr.Mark ierr.ErrValidation
            (ierr.WithHint "Tenant ID and environment ID are required"
               (ierr.NewError "tenant ID, environment ID and user ID are required")))
  else None.

Definition completeInput : PriceSyncWorkflowInput :=
  {| PlanID := "plan_1"; TenantID := "tenant_1"; EnvironmentID := "env_1"; UserID := "user_1" |}.

End models.

(** ** The fixtures of the builder's test suite *)

Module builder_test.

Import types events builder.

(** Modelled from the spec: [context.Background()] carries no value, and
    [types.SetTenantID] and [types.SetEnvironmentID] return a context in
    which the corresponding lookup yields the value set. *)
Definition Background : Context := {| ctx_tenant_id := None; ctx_environment_id := None |}.

Definition SetTenantID (ctx : Context) (tenantID : string) : Context :=
  {| ctx_tenant_id := Some tenantID; ctx_environment_id := ctx_environment_id ctx |}.

Definition SetEnvironmentID (ctx : Context) (environmentID : string) : Context :=
  {| ctx_tenant_id := ctx_tenant_id ctx; ctx_environment_id := Some environmentID |}.

Definition createTestContext (tenantID environmentID : string) : Context :=
  let ctx := Background in
  let ctx := if negb (String.eqb tenantID "") then SetTenantID ctx tenantID else ctx in
  let ctx :=
    if negb (String.eqb environmentID "") then SetEnvironmentID ctx environmentID else ctx in
  ctx.

Definition createTestUsageParams (eventName : string) (startTime endTime : Time)
  : UsageParams :=
  {| EventName := eventName;
     PropertyName := "test_property";
     AggregationType := AggregationCount;
     StartTime := startTime;
     EndTime := endTime;
     ExternalCustomerID := "test_customer";
     CustomerID := "cust_123";
     Filters := {[ "region" := ["us-west-1"; "us-east-1"] ]} |}.

End builder_test.

(** ** Characters of a statement text

    Counting the characters of a text by weight: the quoting characters
    of SQL, and the parentheses. *)

Module syntax.

(** The sum of the weights of the characters of a text. *)
Fixpoint weight (w : ascii -> Z) (s : string) : Z :=
  match s with
  | EmptyString => 0%Z
  | String c r => (w c + weight w r)%Z
  end.

(** The characters that open or close a literal, a statement or a comment
    in SQL: double quote, hash, single quote, slash, semicolon, backslash
    and backquote. *)
Definition quoting_char (c : ascii) : bool :=
  existsb (Nat.eqb (nat_of_ascii c)) [34; 35; 39; 47; 59; 92; 96].

(** Weight 1 for a quoting character: the weight of a text is the number
    of its quoting characters. *)
Definition quoting (c : ascii) : Z := if quoting_char c then 1%Z else 0%Z.

(** Weight 1 for a closing and -1 for an opening parenthesis: the weight
    of a text is the number of parentheses it closes and has not opened. *)
Definition paren_excess (c : ascii) : Z :=
  if Ascii.eqb c ")" then 1%Z else if Ascii.eqb c "(" then (-1)%Z else 0%Z.

Definition count_char (x : ascii) (s : string) : nat :=
  Z.to_nat (weight (fun c => if Ascii.eqb c x then 1%Z else 0%Z) s).

Definition known_weight (w : ascii -> Z) : Prop := w = quoting \/ w = paren_excess.

(** The total weight of a list of texts. *)
Definition total (w : ascii -> Z) (texts : list string) : Z :=
  foldr Z.add 0%Z (weight w <$> texts).

(** The injection vectors of the test suite. *)
Definition sqlInjectionVectors : list string :=
  [ "'; DROP TABLE events; --";
    "' OR 1=1; --";
    "' UNION SELECT * FROM events; --";
    "'; INSERT INTO events VALUES ('malicious'); --";
    "' OR 'x'='x";
    String (ascii_of_nat 34) "; DROP TABLE events; --";
    "' AND SLEEP(5); --";
    "'; EXEC xp_cmdshell('dir'); --";
    "1' OR '1'='1";
    "admin'--";
    "admin'/*";
    "' OR 1=1#";
    "' OR 'a'='a";
    "') OR ('1'='1";
    "'; DELETE FROM events WHERE 1=1; --";
    "' OR EXISTS(SELECT * FROM events); --";
    "' UNION ALL SELECT NULL,NULL,NULL; --" ].

End syntax.

(** ** Occurrence of a text in a statement

    [strings.Contains] of the tests, as a decomposition of the text. *)

Module occurrence.
(** [v] occurs in [s]: some text, then [v], then some text. *)
Definition occurs (v s : string) : Prop := exists x y : string, s = x +:+ v +:+ y.

(** [c] is one of the characters of [v]. *)
Fixpoint mentions (v : string) (c : ascii) : bool :=
  match v with
  | EmptyString => false
  | String x r => Ascii.eqb x c || mentions r c
  end.

(** No character of [s] is one of the characters of [v]. *)
Fixpoint avoids (v s : string) : bool :=
  match s with
  | EmptyString => true
  | String c r => negb (mentions v c) && avoids v r
  end.

(** The last character of [s] is none of the characters of [v]. *)
Fixpoint last_outside (v s : string) : bool :=
  match s with
  | EmptyString => false
  | String c EmptyString => negb (mentions v c)
  | String _ r => last_outside v r
  end.

(** A text [v] that can be searched for in a statement piece by piece: it
    is not empty, it has none of the characters of a placeholder, of a
    list of placeholders, of a parenthesis or of a line break, and it
    occurs in none of the fixed texts that stand between the placeholders
    of a property condition or of a triple. *)
Definition quiet (v : string) : bool :=
  negb (String.eqb v "")
  && avoids v ("?0123456789,()" +:+ nl +:+ tab)
  && negb (Contains " AND JSONExtractString(properties, " v)
  && negb (Contains "JSONExtractString(properties, " v)
  && negb (Contains ") = " v)
  && negb (Contains ") IN (" v)
  && negb (Contains ", " v)
  && negb (Contains ", 1" v).

(** A condition that holds no occurrence of [v] and lets none start in
    what stands before its call or run into what follows it. *)
Definition condition_free (v c : string) : Prop :=
  forall lead post : string,
    Contains (lead +:+ "JSONExtractString(properties, ") v = false ->
    Contains (lead +:+ c +:+ post) v = Contains post v.

(** A text in front of which an occurrence of [v] is an occurrence in
    what follows it. *)
Definition transparent (v t : string) : Prop :=
  forall post : string, Contains (t +:+ post) v = Contains post v.

(** The elements of a list, each behind the separator, before [post]:
    what follows the first element in [Join (a :: l) sep +:+ post]. *)
Definition suffix_with (sep : string) (l : list string) (post : string) : string :=
  foldr (fun c r => sep +:+ c +:+ r) post l.

(** The fixed texts around the where clause of the base fragment and around
    the triples of the filter fragment. *)
Definition baseHead : string :=
  "base_events AS (" +:+ nl
  +:+ tabs 3 "SELECT * FROM (" +:+ nl
  +:+ tabs 4 "SELECT DISTINCT ON (" +:+ builder.getDeduplicationKey
  +:+ ") * FROM events WHERE ".

Definition baseTail : string :=
  " ORDER BY " +:+ builder.getDeduplicationKey +:+ " DESC" +:+ nl
  +:+ tabs 3 ")" +:+ nl
  +:+ tabs 2 ")".

Definition filterHead : string :=
  "filter_matches AS (" +:+ nl
  +:+ tabs 2 "SELECT " +:+ nl
  +:+ tabs 3 "id," +:+ nl
  +:+ tabs 3 "timestamp," +:+ nl
  +:+ tabs 3 "properties," +:+ nl
  +:+ tabs 3 "arrayMap(x -> (" +:+ nl
  +:+ tabs 4 "x.1," +:+ nl
  +:+ tabs 4 "x.2," +:+ nl
  +:+ tabs 4 "x.3" +:+ nl
  +:+ tabs 3 "), [".

Definition filterTail : string :=
  "]) as group_matches" +:+ nl
  +:+ tabs 2 "FROM base_events" +:+ nl
  +:+ tabs 1 ")".

(** What a statement holds between its base fragment and its final query:
    nothing without filter groups, else the filter fragment and the pieces
    of the matched query, each behind the separator of [Build]. *)
Definition groupsText (groups : list (events.FilterGroup.t * Visit)) : string :=
  match groups with
  | [] => ""
  | _ =>
      "," +:+ nl
      +:+ builder.filterText
            (Join (builder.filterConditions groups).1.1 ("," +:+ nl +:+ tabs 3 ""))
      +:+ "," +:+ nl
      +:+ Join (builder.CQuery <$> builder.matchedComponents) ("," +:+ nl)
  end.

(** The texts the tests and the claims look for in a statement: the heads
    of the tenant, environment and time window conditions. *)
Definition probes : list string :=
  ["tenant_id = "; "environment_id = "; "timestamp >= "; "timestamp < "].
End occurrence.

(** * Facts *)

Import vocabulary.

(** ** Text *)

Local Arguments String.append !_ _ / : simpl nomatch.

Lemma append_assoc (a b c : string) : (a +:+ b) +:+ c = a +:+ (b +:+ c).
Proof. induction a as [|x a IH]; simpl; [reflexivity | now rewrite IH]. Qed.

Lemma append_nil_r (a : string) : a +:+ "" = a.
Proof. induction a as [|x a IH]; simpl; [reflexivity | now rewrite IH]. Qed.

Lemma nodigit_app (s r : string) : nodigit s -> nodigit r -> nodigit (s +:+ r).
Proof. destruct s; simpl; auto. Qed.

Lemma read_digits_nodigit (acc : nat) (r : string) : nodigit r -> read_digits acc r = acc.
Proof.
  destruct r as [|c r]; simpl; [reflexivity|].
  unfold is_digit. destruct (digit_of c); [discriminate | reflexivity].
Qed.

Lemma read_digits_uint (d : uint) (acc : nat) (r : string) :
  read_digits acc (NilEmpty.string_of_uint d +:+ r) = read_digits (Nat.of_uint_acc d acc) r.
Proof.
  revert acc; induction d; intros acc; simpl; try reflexivity;
    rewrite IHd; do 2 f_equal; rewrite Nat.tail_mul_spec; lia.
Qed.

Lemma placeholders_uint (d : uint) (r : string) :
  placeholders (NilEmpty.string_of_uint d +:+ r) = placeholders r.
Proof. induction d; simpl; auto. Qed.

Lemma uint_head_digit (d : uint) (r : string) :
  d <> Nil ->
  exists c s, NilEmpty.string_of_uint d +:+ r = String c s /\ is_digit c = true.
Proof. destruct d; intros H; try congruence; simpl; eauto. Qed.

Lemma to_uint_nonnil (n : nat) : Nat.to_uint n <> Nil.
Proof.
  pose proof (Unsigned.to_of (Nat.to_uint n)) as H.
  rewrite Unsigned.of_to in H. rewrite H.
  unfold unorm. destruct (nzhead (Nat.to_uint n)); discriminate.
Qed.

Lemma itoa_head_digit (n : nat) (r : string) :
  exists c s, itoa n +:+ r = String c s /\ is_digit c = true.
Proof. apply uint_head_digit, to_uint_nonnil. Qed.

Lemma leading_number_itoa (n : nat) (r : string) :
  nodigit r -> leading_number (itoa n +:+ r) = Some n.
Proof.
  intros Hr. destruct (itoa_head_digit n r) as (c & s & E & Hc).
  unfold leading_number. rewrite E, Hc, <- E. f_equal.
  unfold itoa. rewrite read_digits_uint, read_digits_nodigit by assumption.
  apply Unsigned.of_to.
Qed.

Lemma placeholders_itoa (n : nat) (r : string) :
  placeholders (itoa n +:+ r) = placeholders r.
Proof. apply placeholders_uint. Qed.

Lemma emits_placeholders (s : string) (ns : list nat) :
  emits s ns -> placeholders s = ns.
Proof.
  intros H. specialize (H "" I). simpl in H.
  now rewrite append_nil_r, app_nil_r in H.
Qed.

Lemma emits_nil : emits "" [].
Proof. intros r _. reflexivity. Qed.

Lemma placeholders_lit (s r : string) :
  no_qmark s = true -> placeholders (s +:+ r) = placeholders r.
Proof.
  intros H. induction s as [|c s IH]; simpl in *; [reflexivity|].
  apply andb_true_iff in H as [Hc Hs].
  destruct (Ascii.eqb c "?"); [discriminate | auto].
Qed.

Lemma emits_lit (s : string) : no_qmark s = true -> emits s [].
Proof. intros H r _. now apply placeholders_lit. Qed.

Lemma emits_ph (n : nat) : emits (ph n) [n].
Proof.
  intros r Hr. unfold ph. simpl.
  now rewrite leading_number_itoa, placeholders_itoa.
Qed.

Lemma emits_app (s1 s2 : string) (n1 n2 : list nat) :
  emits s1 n1 -> emits s2 n2 -> nodigit s2 -> emits (s1 +:+ s2) (n1 ++ n2).
Proof.
  intros H1 H2 Hd r Hr.
  rewrite append_assoc, H1 by now apply nodigit_app.
  now rewrite H2, app_assoc.
Qed.

Lemma emits_eq (s : string) (ns ms : list nat) : emits s ns -> ns = ms -> emits s ms.
Proof. now intros H <-. Qed.

Lemma nodigit_ph (n : nat) : nodigit (ph n).
Proof. reflexivity. Qed.

Lemma emits_lit_app (s1 s2 : string) (ns : list nat) :
  no_qmark s1 = true -> emits s2 ns -> emits (s1 +:+ s2) ns.
Proof.
  intros H1 H2 r Hr. rewrite append_assoc, placeholders_lit by assumption. now apply H2.
Qed.

Lemma nodigit_Join (conds : list string) (sep : string) :
  nodigit sep -> sep <> "" -> Forall nodigit conds -> nodigit (Join conds sep).
Proof.
  intros Hd Hne H. destruct H as [|c rest Hc Hrest]; [exact I|].
  destruct rest; simpl; [assumption|].
  destruct c; [|exact Hc]. destruct sep; [congruence | exact Hd].
Qed.

Lemma emits_Join (conds : list string) (nss : list (list nat)) (sep : string) :
  no_qmark sep = true -> nodigit sep -> sep <> "" ->
  Forall2 cond_ok conds nss -> emits (Join conds sep) (concat nss).
Proof.
  intros Hq Hd Hne H. induction H as [|c ns rest nss [Hc Hn] Hrest IH].
  - apply emits_nil.
  - destruct Hrest as [|c' ns' rest' nss' Hc' Hrest'].
    + simpl. now rewrite app_nil_r.
    + change (emits (c +:+ sep +:+ Join (c' :: rest') sep) (ns ++ concat (ns' :: nss'))).
      apply emits_app; [assumption | now apply emits_lit_app |].
      destruct sep; [congruence | exact Hd].
Qed.

Lemma cond_ok_Join (conds : list string) (nss : list (list nat)) (sep : string) :
  no_qmark sep = true -> nodigit sep -> sep <> "" ->
  Forall2 cond_ok conds nss -> cond_ok (Join conds sep) (concat nss).
Proof.
  intros Hq Hd Hne H. split; [now apply emits_Join|].
  apply nodigit_Join; [assumption .. |]. induction H as [|? ? ? ? [_ ?]]; constructor; auto.
Qed.

(** Proves [emits s ?ns] for a text assembled from literals, [ph] and
    pieces already known to emit. *)
Ltac emits_step :=
  lazymatch goal with
  | |- emits ((_ +:+ _) +:+ _) _ => rewrite append_assoc
  | |- emits (ph _) _ => apply emits_ph
  | |- emits (ph _ +:+ _) _ => eapply emits_app; [apply emits_ph | | exact eq_refl]
  | H : emits ?x _ |- emits (?x +:+ _) _ => eapply emits_app; [exact H | | exact eq_refl]
  | H : emits ?x _ |- emits ?x _ => exact H
  | |- emits (_ +:+ _) _ => eapply emits_lit_app; [reflexivity |]
  | |- emits _ _ => apply emits_lit; reflexivity
  end.

Ltac emits_tac :=
  eapply emits_eq; [repeat emits_step | simpl; rewrite ?app_nil_r, ?Nat.add_1_r; try reflexivity].

(** ** The builder: placeholders and arguments of every piece *)

Module builder_facts.

Import types events builder.

Lemma placeholder_list_emits (k a : nat) :
  cond_ok (Join ((fun j => ph (j + 1)) <$> seq a k) ",") (seq (a + 1) k).
Proof.
  assert (Hc : concat ((fun j => [j + 1]) <$> seq a k) = seq (a + 1) k).
  { revert a. induction k as [|k IH]; intros a; simpl; [reflexivity|].
    f_equal. rewrite IH. f_equal. }
  rewrite <- Hc. apply cond_ok_Join; [reflexivity | exact eq_refl | discriminate |].
  apply Forall2_fmap, Forall_Forall2_diag, Forall_forall.
  intros j _. split; [apply emits_ph | exact eq_refl].
Qed.

Lemma placeholder_list_imap (argIndex : nat) (values : list string) :
  imap (fun i (_ : string) => ph (argIndex + i + 1)) values
  = (fun j => ph (j + 1)) <$> seq argIndex (length values).
Proof. exact (imap_seq values (fun j => ph (j + 1)) argIndex). Qed.

(** What one compiled property condition emits and consumes. *)
Lemma propertyCondition_ok (argIndex : nat) (property : string) (values : list string) :
  values <> [] ->
  cond_ok (propertyCondition argIndex property values).1.1
          (seq argIndex (1 + length values))
  /\ length (propertyCondition argIndex property values).1.2 = 1 + length values
  /\ (propertyCondition argIndex property values).2 = argIndex + (1 + length values).
Proof.
  intros Hne. destruct values as [|v0 [|v1 vs]]; [congruence | |].
  - cbn [propertyCondition fst snd length]. repeat split; try lia.
    + emits_tac.
  - remember (v0 :: v1 :: vs) as values eqn:E.
    assert (Hp : propertyCondition argIndex property values
      = ("JSONExtractString(properties, " +:+ ph argIndex +:+ ") IN ("
           +:+ Join (imap (fun i _ => ph (argIndex + i + 1)) values) "," +:+ ")",
         (ArgString <$> values) ++ [ArgString property],
         argIndex + length values + 1)) by now subst.
    rewrite Hp. cbn [fst snd]. rewrite placeholder_list_imap.
    destruct (placeholder_list_emits (length values) argIndex) as [He Hd].
    repeat split; try lia.
    + emits_tac.
    + rewrite length_app, length_fmap. simpl. lia.
Qed.

Lemma acc_ok_init (start : nat) : acc_ok start ([], [], start).
Proof.
  exists []. cbn [fst snd]. rewrite Nat.sub_diag. repeat split; auto.
Qed.

Lemma acc_ok_app (start : nat) (c1 c2 : list string) (a1 a2 : list Arg) (i1 i2 : nat) :
  acc_ok start (c1, a1, i1) -> acc_ok i1 (c2, a2, i2) ->
  acc_ok start (c1 ++ c2, a1 ++ a2, i2).
Proof.
  intros (n1 & F1 & C1 & L1 & B1) (n2 & F2 & C2 & L2 & B2). cbn [fst snd] in *.
  exists (n1 ++ n2). cbn [fst snd]. repeat split.
  - now apply Forall2_app.
  - rewrite concat_app, C1, C2.
    replace (i2 - start) with ((i1 - start) + (i2 - i1)) by lia.
    rewrite seq_app. do 2 f_equal. lia.
  - rewrite length_app. lia.
  - lia.
Qed.

Lemma acc_ok_one (idx : nat) (c : string) (newArgs : list Arg) :
  cond_ok c (seq idx (length newArgs)) ->
  acc_ok idx ([c], newArgs, idx + length newArgs).
Proof.
  intros H. exists [seq idx (length newArgs)]. cbn [fst snd].
  replace (idx + length newArgs - idx) with (length newArgs) by lia.
  repeat split; try lia.
  - constructor; [assumption | constructor].
  - simpl. now rewrite app_nil_r.
Qed.

Lemma acc_ok_push (start idx : nat) (conds : list string) (args newArgs : list Arg)
  (c : string) :
  acc_ok start (conds, args, idx) ->
  cond_ok c (seq idx (length newArgs)) ->
  acc_ok start (conds ++ [c], args ++ newArgs, idx + length newArgs).
Proof. intros H Hc. eapply acc_ok_app; [exact H | now apply acc_ok_one]. Qed.

(** A single [?%d] condition with one argument. *)
Lemma simple_cond_ok (lit : string) (idx : nat) :
  no_qmark lit = true -> nodigit lit -> lit <> "" ->
  cond_ok (lit +:+ ph idx) (seq idx 1).
Proof.
  intros Hq Hd Hne. split.
  - apply emits_lit_app; [assumption | apply emits_ph].
  - destruct lit; [congruence | exact Hd].
Qed.

Lemma filterStep_ok (start : nat) (acc : Acc) (entry : string * list string) :
  acc_ok start acc -> acc_ok start (filterStep acc entry).
Proof.
  destruct acc as [[conds args] idx], entry as [property values]. intros H.
  unfold filterStep. destruct values as [|v vs] eqn:E; [assumption|]. rewrite <- E.
  assert (Hne : values <> []) by (subst; discriminate).
  destruct (propertyCondition_ok idx property values Hne) as (Hc & Hl & Hi).
  destruct (propertyCondition idx property values) as [[c newArgs] idx'].
  cbn [fst snd] in *. subst idx'. rewrite <- Hl in *. now apply acc_ok_push.
Qed.

Lemma fold_filterStep_ok (start : nat) (visit : Visit) (acc : Acc) :
  acc_ok start acc -> acc_ok start (fold_left filterStep visit acc).
Proof.
  revert acc. induction visit as [|e visit IH]; intros acc H; simpl; [assumption|].
  now apply IH, filterStep_ok.
Qed.

Ltac cond_tac := split; [emits_tac | exact eq_refl].

Ltac push_tac :=
  lazymatch goal with
  | |- acc_ok ?s (?c ++ [?x], ?a ++ [?y], ?i + 1) =>
      apply (acc_ok_push s i c a [y] x); [| cond_tac]
  | |- acc_ok ?s ([], [], ?s) => apply acc_ok_init
  end.

Lemma parseTimeConditionsWithIndex_ok (params : UsageParams) (startIndex : nat) :
  acc_ok startIndex (parseTimeConditionsWithIndex params startIndex).
Proof.
  unfold parseTimeConditionsWithIndex.
  destruct (IsZero (StartTime params)), (IsZero (EndTime params)); cbn [negb];
    repeat push_tac.
Qed.

Lemma baseConditions_ok (ctx : Context) (params : UsageParams) (visit : Visit) :
  acc_ok 1 (baseConditions ctx params visit).
Proof.
  unfold baseConditions.
  pose proof (parseTimeConditionsWithIndex_ok params) as Ht.
  destruct (String.eqb (GetTenantID ctx) ""), (String.eqb (GetEnvironmentID ctx) "");
    cbn [negb];
    match goal with
    | |- context [parseTimeConditionsWithIndex params ?i] =>
        specialize (Ht i); destruct (parseTimeConditionsWithIndex params i) as [[tc ta] ti]
    end;
    destruct (String.eqb (ExternalCustomerID params) ""),
             (String.eqb (CustomerID params) "");
    cbn [negb]; apply fold_filterStep_ok;
    repeat first [ push_tac | eapply acc_ok_app; [| exact Ht] ].
Qed.

(** The conditions of a property-filter loop do not depend on what was
    accumulated before it, only on the index it starts from. *)
Lemma filterStep_app (conds : list string) (args : list Arg) (idx : nat)
  (entry : string * list string) :
  filterStep (conds, args, idx) entry
  = (conds ++ (filterStep ([], [], idx) entry).1.1,
     args ++ (filterStep ([], [], idx) entry).1.2,
     (filterStep ([], [], idx) entry).2).
Proof.
  destruct entry as [property values]. unfold filterStep.
  destruct values as [|v vs]; [cbn [fst snd]; now rewrite !app_nil_r|].
  destruct (propertyCondition idx property (v :: vs)) as [[c a] i]. reflexivity.
Qed.

Lemma fold_filterStep_app (visit : Visit) (conds : list string) (args : list Arg)
  (idx : nat) :
  fold_left filterStep visit (conds, args, idx)
  = (conds ++ (fold_left filterStep visit ([], [], idx)).1.1,
     args ++ (fold_left filterStep visit ([], [], idx)).1.2,
     (fold_left filterStep visit ([], [], idx)).2).
Proof.
  revert conds args idx. induction visit as [|e visit IH]; intros conds args idx.
  - cbn [fold_left fst snd]. now rewrite !app_nil_r.
  - cbn [fold_left]. rewrite (filterStep_app conds args idx e).
    destruct (filterStep ([], [], idx) e) as [[ce ae] ie]. cbn [fst snd].
    rewrite (IH (conds ++ ce)), (IH ce). cbn [fst snd]. now rewrite !app_assoc.
Qed.

Lemma propertyCondition_shape (idx : nat) (property : string) (values : list string) :
  values <> [] ->
  is_property_condition (propertyCondition idx property values).1.1
  /\ Forall is_string_arg (propertyCondition idx property values).1.2.
Proof.
  intros Hne. destruct values as [|v0 [|v1 vs]]; [congruence | |].
  - split; [reflexivity | repeat constructor].
  - split; [reflexivity|]. cbn [propertyCondition fst snd].
    apply Forall_app. split; [|repeat constructor].
    apply Forall_fmap, Forall_forall. now intros.
Qed.

Lemma filterStep_shape (idx : nat) (entry : string * list string) :
  Forall is_property_condition (filterStep ([], [], idx) entry).1.1
  /\ Forall is_string_arg (filterStep ([], [], idx) entry).1.2.
Proof.
  destruct entry as [property values]. unfold filterStep.
  destruct values as [|v vs]; [split; constructor|].
  destruct (propertyCondition_shape idx property (v :: vs) ltac:(discriminate)) as [Hc Ha].
  destruct (propertyCondition idx property (v :: vs)) as [[c a] i]. cbn [fst snd] in *.
  split; [now constructor | assumption].
Qed.

Lemma fold_filterStep_shape (visit : Visit) (idx : nat) :
  Forall is_property_condition (fold_left filterStep visit ([], [], idx)).1.1
  /\ Forall is_string_arg (fold_left filterStep visit ([], [], idx)).1.2.
Proof.
  revert idx. induction visit as [|e visit IH]; intros idx.
  - split; constructor.
  - cbn [fold_left]. destruct (filterStep_shape idx e) as [Hc Ha].
    destruct (filterStep ([], [], idx) e) as [[ce ae] ie]. cbn [fst snd] in *.
    rewrite fold_filterStep_app. cbn [fst snd]. destruct (IH ie) as [IHc IHa].
    split; apply Forall_app; split; auto.
Qed.

Lemma prefix_clash (c : string) (a1 a2 : ascii) (p1 p2 : string) :
  a1 <> a2 -> HasPrefix c (String a1 p1) = true -> HasPrefix c (String a2 p2) = false.
Proof.
  intros Hne. destruct c as [|a c]; unfold HasPrefix; simpl; [discriminate|].
  destruct (Ascii.eqb_spec a1 a) as [->|]; [|discriminate]. intros _.
  destruct (Ascii.eqb_spec a2 a) as [->|]; [congruence | reflexivity].
Qed.

Lemma property_conditions_only (a : ascii) (p : string) (conds : list string) :
  a <> "J"%char -> Forall is_property_condition conds ->
  has_condition (String a p) conds = false.
Proof.
  intros Hne H. induction H as [|c conds Hc _ IH]; [reflexivity|].
  unfold has_condition in *. cbn [existsb]. rewrite IH, orb_false_r.
  eapply prefix_clash; [|exact Hc]. congruence.
Qed.

Lemma has_condition_app (prefix : string) (c1 c2 : list string) :
  has_condition prefix (c1 ++ c2) = has_condition prefix c1 || has_condition prefix c2.
Proof. apply existsb_app. Qed.

Lemma string_args_no_time (args : list Arg) :
  Forall is_string_arg args -> omap arg_time args = [].
Proof.
  induction 1 as [|a args Ha _ IH]; [reflexivity|].
  destruct a; try contradiction. exact IH.
Qed.

Lemma seq_eq_nil (a k : nat) : seq a k = [] -> k = 0.
Proof. now destruct k. Qed.

Lemma groupStep_ok (acc : Acc) (gv : FilterGroup.t * Visit) :
  facc_ok acc -> facc_ok (groupStep acc gv).
Proof.
  destruct acc as [[fcs allArgs] idx], gv as [group visit].
  intros (nss & F & C & L & B). cbn [fst snd] in *. unfold groupStep.
  pose proof (fold_filterStep_ok idx visit _ (acc_ok_init idx)) as Hin.
  destruct (fold_left filterStep visit ([], [], idx)) as [[conds gargs] idx'].
  destruct Hin as (nss' & F' & C' & L' & B'). cbn [fst snd] in *.
  pose proof (cond_ok_Join conds nss' " AND " eq_refl eq_refl ltac:(discriminate) F')
    as [Hj _].
  destruct (0 <? length conds)%nat eqn:E.
  - exists (nss ++ [[idx'; idx' + 1] ++ concat nss']). cbn [fst snd]. repeat split.
    + apply Forall2_app; [assumption|]. constructor; [|constructor]. cond_tac.
    + rewrite concat_app, C, C'. simpl. rewrite app_nil_r.
      replace (idx' + 2 - 1) with ((idx - 1) + ((idx' - idx) + 2)) by lia.
      rewrite (seq_app (idx - 1)), (seq_app (idx' - idx)).
      replace (1 + (idx - 1)) with idx by lia.
      replace (idx + (idx' - idx)) with idx' by lia.
      apply Permutation_app_head. simpl. rewrite Nat.add_1_r.
      exact (Permutation_app_comm [idx'; S idx'] (seq idx (idx' - idx))).
    + rewrite !length_app. simpl. lia.
    + lia.
  - apply Nat.ltb_ge in E. assert (conds = []) as -> by (destruct conds; simpl in E; [easy | lia]).
    inversion F'; subst. simpl in C'. symmetry in C'. apply seq_eq_nil in C'.
    exists (nss ++ [[idx'; idx' + 1]]). cbn [fst snd]. repeat split.
    + apply Forall2_app; [assumption|]. constructor; [|constructor]. cond_tac.
    + rewrite concat_app, C. simpl.
      replace (idx' + 2 - 1) with ((idx - 1) + 2) by lia.
      rewrite (seq_app (idx - 1)). apply Permutation_app_head. simpl.
      replace (S (idx - 1)) with idx' by lia. now rewrite Nat.add_1_r.
    + rewrite !length_app. simpl. lia.
    + lia.
Qed.

Lemma filterConditions_ok (groups : list (FilterGroup.t * Visit)) :
  facc_ok (filterConditions groups).
Proof.
  unfold filterConditions.
  assert (H0 : facc_ok ([], [], 1)) by (exists []; simpl; repeat split; auto).
  revert H0. generalize (([], [], 1) : Acc).
  induction groups as [|g groups IH]; intros acc H; simpl; [assumption|].
  now apply IH, groupStep_ok.
Qed.

(** *** The text depends on the shape of the input only

    Two inputs have the same shape when they agree on which optional parts
    are present and on how many values every visited filter entry has;
    the strings themselves are free. *)

Lemma propertyCondition_text (idx : nat) (p p' : string) (vs vs' : list string) :
  length vs = length vs' ->
  (propertyCondition idx p vs).1.1 = (propertyCondition idx p' vs').1.1
  /\ (propertyCondition idx p vs).2 = (propertyCondition idx p' vs').2.
Proof.
  intros Hl. destruct vs as [|v0 [|v1 vs]], vs' as [|w0 [|w1 ws]]; try discriminate;
    try (split; reflexivity).
  cbn [propertyCondition fst snd]. rewrite !placeholder_list_imap, Hl. now split.
Qed.

Lemma filterStep_text (idx : nat) (e e' : string * list string) :
  length e.2 = length e'.2 ->
  (filterStep ([], [], idx) e).1.1 = (filterStep ([], [], idx) e').1.1
  /\ (filterStep ([], [], idx) e).2 = (filterStep ([], [], idx) e').2.
Proof.
  destruct e as [p vs], e' as [p' vs']. cbn [snd]. intros Hl. unfold filterStep.
  destruct vs as [|v vs], vs' as [|v' vs']; try discriminate; [now split|].
  destruct (propertyCondition_text idx p p' (v :: vs) (v' :: vs') Hl) as [Ht Hi].
  destruct (propertyCondition idx p (v :: vs)) as [[c a] i],
           (propertyCondition idx p' (v' :: vs')) as [[c' a'] i'].
  cbn [fst snd] in *. now subst.
Qed.

Lemma fold_filterStep_text (v v' : Visit) (idx : nat) :
  same_shape_visit v v' ->
  (fold_left filterStep v ([], [], idx)).1.1 = (fold_left filterStep v' ([], [], idx)).1.1
  /\ (fold_left filterStep v ([], [], idx)).2 = (fold_left filterStep v' ([], [], idx)).2.
Proof.
  intros H. revert idx. induction H as [|e e' v v' He _ IH]; intros idx; [now split|].
  cbn [fold_left]. destruct (filterStep_text idx e e' He) as [Ht Hi].
  destruct (filterStep ([], [], idx) e) as [[c a] i],
           (filterStep ([], [], idx) e') as [[c' a'] i'].
  cbn [fst snd] in *. subst c' i'.
  rewrite (fold_filterStep_app v), (fold_filterStep_app v'). cbn [fst snd].
  destruct (IH i) as [-> ->]. now split.
Qed.

Lemma baseConditions_text ctx ctx' p p' v v' :
  same_shape_context ctx ctx' -> same_shape_params p p' -> same_shape_visit v v' ->
  (baseConditions ctx p v).1.1 = (baseConditions ctx' p' v').1.1.
Proof.
  intros [Ht He] (Hs & Hn & Hx & Hc) Hv.
  unfold baseConditions, parseTimeConditionsWithIndex.
  rewrite <- Ht, <- He, <- Hs, <- Hn, <- Hx, <- Hc.
  destruct (String.eqb (GetTenantID ctx) ""), (String.eqb (GetEnvironmentID ctx) ""),
           (IsZero (StartTime p)), (IsZero (EndTime p)),
           (String.eqb (ExternalCustomerID p) ""), (String.eqb (CustomerID p) "");
    cbn [negb];
    rewrite (fold_filterStep_app v), (fold_filterStep_app v'); cbn [fst snd];
    f_equal; now apply fold_filterStep_text.
Qed.

Lemma groupStep_text (acc acc' : Acc) (g g' : FilterGroup.t * Visit) :
  acc.1.1 = acc'.1.1 -> acc.2 = acc'.2 -> same_shape_visit g.2 g'.2 ->
  (groupStep acc g).1.1 = (groupStep acc' g').1.1
  /\ (groupStep acc g).2 = (groupStep acc' g').2.
Proof.
  destruct acc as [[fcs args] idx], acc' as [[fcs' args'] idx'], g as [g v], g' as [g' v'].
  cbn [fst snd]. intros -> -> Hv. unfold groupStep.
  destruct (fold_filterStep_text v v' idx' Hv) as [Ht Hi].
  destruct (fold_left filterStep v ([], [], idx')) as [[c a] i],
           (fold_left filterStep v' ([], [], idx')) as [[c' a'] i'].
  cbn [fst snd] in *. subst c' i'.
  destruct (0 <? length c)%nat; now split.
Qed.

Lemma fold_groupStep_text (gs gs' : list (FilterGroup.t * Visit)) (acc acc' : Acc) :
  same_shape_groups gs gs' -> acc.1.1 = acc'.1.1 -> acc.2 = acc'.2 ->
  (fold_left groupStep gs acc).1.1 = (fold_left groupStep gs' acc').1.1.
Proof.
  intros H. revert acc acc'.
  induction H as [|g g' gs gs' Hg _ IH]; intros acc acc' Hc Hi; [assumption|].
  cbn [fold_left]. destruct (groupStep_text acc acc' g g' Hc Hi Hg). now apply IH.
Qed.

Lemma aggregationClause_text aggType (p p' : string) :
  (aggregationClause aggType p).1.1 = (aggregationClause aggType p').1.1.
Proof. now destruct aggType. Qed.

Lemma compile_text ctx ctx' p p' v v' gs gs' aggType prop prop' :
  same_shape_context ctx ctx' -> same_shape_params p p' -> same_shape_visit v v' ->
  same_shape_groups gs gs' ->
  (compile ctx p v gs aggType prop).1 = (compile ctx' p' v' gs' aggType prop').1.
Proof.
  intros Hctx Hp Hv Hg.
  pose proof (baseConditions_text ctx ctx' p p' v v' Hctx Hp Hv) as Hb.
  pose proof (fold_groupStep_text gs gs' ([], [], 1) ([], [], 1) Hg eq_refl eq_refl) as Hf.
  pose proof (aggregationClause_text aggType prop prop') as Ha.
  unfold compile, Build, WithAggregation, WithFilterGroups, WithBaseFilters, filterConditions
    in *.
  destruct (baseConditions ctx p v) as [[bc ba] bi],
           (baseConditions ctx' p' v') as [[bc' ba'] bi'].
  destruct (aggregationClause aggType prop) as [[ac aa] ai],
           (aggregationClause aggType prop') as [[ac' aa'] ai'].
  cbn [fst snd] in *. subst bc' ac'.
  destruct Hg as [|g g' gs gs' Hg Hgs]; [reflexivity|].
  destruct (fold_left groupStep (g :: gs) ([], [], 1)) as [[fc fa] fi],
           (fold_left groupStep (g' :: gs') ([], [], 1)) as [[fc' fa'] fi'].
  cbn [fst snd] in *. now subst fc'.
Qed.

(** *** Every caller string is among the arguments *)

Lemma propertyCondition_binds (idx : nat) (property : string) (values : list string) :
  In (ArgString property) (propertyCondition idx property values).1.2
  /\ forall v : string, In v values ->
       In (ArgString v) (propertyCondition idx property values).1.2.
Proof.
  destruct values as [|v0 [|v1 vs]]; cbn [propertyCondition fst snd].
  - split; [apply in_or_app; right; now left | intros v []].
  - split; [now left | intros v [<-|[]]; right; now left].
  - split; [apply in_or_app; right; now left|].
    intros v Hv. apply in_or_app. left. now apply (in_map ArgString).
Qed.

Lemma filterStep_unfold (conds : list string) (args : list Arg) (idx : nat)
  (property : string) (values : list string) :
  filterStep (conds, args, idx) (property, values)
  = match values with
    | [] => (conds, args, idx)
    | _ => (conds ++ [(propertyCondition idx property values).1.1],
            args ++ (propertyCondition idx property values).1.2,
            (propertyCondition idx property values).2)
    end.
Proof.
  unfold filterStep. destruct values as [|v vs]; [reflexivity|].
  now destruct (propertyCondition idx property (v :: vs)) as [[c a] i].
Qed.

Lemma fold_filterStep_binds (visit : Visit) (conds : list string) (args : list Arg)
  (idx : nat) :
  binds_visit visit (fold_left filterStep visit (conds, args, idx)).1.2
  /\ forall a : Arg, In a args -> In a (fold_left filterStep visit (conds, args, idx)).1.2.
Proof.
  revert conds args idx.
  induction visit as [|[property values] visit IH]; intros conds args idx.
  - split; [intros ? ? [] | auto].
  - cbn [fold_left]. rewrite (filterStep_unfold conds args idx property values).
    pose proof (propertyCondition_binds idx property values) as [Hp Hv].
    destruct (propertyCondition idx property values) as [[c a] i]. cbn [fst snd] in *.
    destruct values as [|v vs] eqn:E.
    + destruct (IH conds args idx) as [Hb Hk]. split; [|assumption].
      intros q ws [[= <- <-]|Hin] Hne; [congruence | now apply Hb].
    + destruct (IH (conds ++ [c]) (args ++ a) i) as [Hb Hk]. split.
      * intros q ws [[= <- <-]|Hin] Hne; [|now apply Hb].
        split; [apply Hk, in_or_app; now right|].
        intros w Hw. apply Hk, in_or_app. right. now apply Hv.
      * intros x Hx. apply Hk, in_or_app. now left.
Qed.

Lemma groupStep_binds (acc : Acc) (g : FilterGroup.t) (visit : Visit) :
  (In (ArgString (FilterGroup.ID g)) (groupStep acc (g, visit)).1.2
   /\ In (ArgInt (FilterGroup.Priority g)) (groupStep acc (g, visit)).1.2
   /\ binds_visit visit (groupStep acc (g, visit)).1.2)
  /\ forall a : Arg, In a acc.1.2 -> In a (groupStep acc (g, visit)).1.2.
Proof.
  destruct acc as [[fcs args] idx]. unfold groupStep.
  pose proof (fold_filterStep_binds visit [] [] idx) as [Hb _].
  pose proof (fold_filterStep_ok idx visit _ (acc_ok_init idx)) as (nss & F & C & L & B).
  destruct (fold_left filterStep visit ([], [], idx)) as [[conds gargs] idx'].
  cbn [fst snd] in *. destruct (0 <? length conds)%nat eqn:E; cbn [fst snd].
  - split; [split; [|split]|].
    + apply in_or_app. left. apply in_or_app. right. now left.
    + apply in_or_app. left. apply in_or_app. right. right. now left.
    + intros q ws Hin Hne. destruct (Hb q ws Hin Hne) as [Hq Hw].
      split; [|intros w Hi]; apply in_or_app; right; auto.
    + intros a Ha. apply in_or_app. left. apply in_or_app. now left.
  - apply Nat.ltb_ge in E. assert (conds = []) as -> by (destruct conds; simpl in E; [easy | lia]).
    inversion F; subst. simpl in C. symmetry in C. apply seq_eq_nil in C.
    assert (gargs = []) as -> by (destruct gargs; simpl in L; [easy | lia]).
    split; [split; [|split]|].
    + apply in_or_app. right. now left.
    + apply in_or_app. right. right. now left.
    + intros q ws Hin Hne. destruct (Hb q ws Hin Hne) as [[] _].
    + intros a Ha. apply in_or_app. now left.
Qed.

Lemma binds_visit_mono (visit : Visit) (args args' : list Arg) :
  (forall a, In a args -> In a args') -> binds_visit visit args -> binds_visit visit args'.
Proof.
  intros Hk Hb q ws Hin Hne. destruct (Hb q ws Hin Hne) as [Hq Hw]. split; auto.
Qed.

Lemma fold_groupStep_binds (groups : list (FilterGroup.t * Visit)) (acc : Acc) :
  binds_groups groups (fold_left groupStep groups acc).1.2
  /\ forall a : Arg, In a acc.1.2 -> In a (fold_left groupStep groups acc).1.2.
Proof.
  revert acc. induction groups as [|[g visit] groups IH]; intros acc.
  - split; [intros ? ? [] | auto].
  - cbn [fold_left]. destruct (groupStep_binds acc g visit) as [(Hi & Hp & Hb) Hk].
    destruct (IH (groupStep acc (g, visit))) as [IHb IHk]. split; [|auto].
    intros g' visit' [[= <- <-]|Hin]; [|now apply IHb].
    split; [|split]; auto. eapply binds_visit_mono; eauto.
Qed.

(** The argument list of a compiled statement: base arguments, then the
    filter-group arguments, then the aggregation arguments. *)
Lemma compile_args ctx p v gs aggType prop :
  (compile ctx p v gs aggType prop).2
  = (baseConditions ctx p v).1.2
      ++ (match gs with [] => [] | _ => (filterConditions gs).1.2 end)
      ++ (aggregationClause aggType prop).1.2.
Proof.
  unfold compile, Build, WithAggregation, WithFilterGroups, WithBaseFilters.
  destruct (baseConditions ctx p v) as [[bc ba] bi].
  destruct (aggregationClause aggType prop) as [[ac aa] ai].
  destruct gs as [|g gs]; cbn [fst snd cteComponents finalQuery Args].
  - cbn. now rewrite !app_nil_r.
  - destruct (filterConditions (g :: gs)) as [[fc fa] fi].
    cbn [fst snd cteComponents finalQuery Args].
    rewrite !fmap_app, !concat_app.
    assert (Hm : concat (CArgs <$> matchedComponents) = []) by (vm_compute; reflexivity).
    rewrite Hm. cbn. now rewrite !app_nil_r, <- !app_assoc.
Qed.

Lemma baseConditions_binds ctx p v : binds_visit v (baseConditions ctx p v).1.2.
Proof.
  unfold baseConditions, parseTimeConditionsWithIndex.
  destruct (String.eqb (GetTenantID ctx) ""), (String.eqb (GetEnvironmentID ctx) ""),
           (IsZero (StartTime p)), (IsZero (EndTime p)),
           (String.eqb (ExternalCustomerID p) ""), (String.eqb (CustomerID p) "");
    cbn [negb]; apply fold_filterStep_binds.
Qed.

Lemma ranges_In (m : gmap string (list string)) (visit : Visit)
  (property : string) (values : list string) :
  ranges m visit -> m !! property = Some values -> In (property, values) visit.
Proof.
  unfold ranges. intros Hr Hm. apply list_elem_of_In. rewrite Hr.
  now apply elem_of_map_to_list.
Qed.

(** A single-valued filter visited by a loop whose arguments so far fill
    the positions below its starting index is bound in placeholder
    order. *)
Lemma fold_filterStep_single (visit : Visit) (conds : list string) (args : list Arg)
  (idx : nat) (property v : string) :
  1 <= idx -> length args = idx - 1 -> In (property, [v]) visit ->
  exists j : nat,
    1 <= j
    /\ In ("JSONExtractString(properties, " +:+ ph j +:+ ") = " +:+ ph (j + 1))
         (fold_left filterStep visit (conds, args, idx)).1.1
    /\ (fold_left filterStep visit (conds, args, idx)).1.2 !! (j - 1)
       = Some (ArgString property)
    /\ (fold_left filterStep visit (conds, args, idx)).1.2 !! j = Some (ArgString v).
Proof.
  revert conds args idx. induction visit as [|[p vs] visit IH]; intros conds args idx Hi Hl Hin.
  - destruct Hin.
  - cbn [fold_left]. rewrite (filterStep_unfold conds args idx p vs).
    destruct Hin as [[= -> ->]|Hin].
    + exists idx. rewrite fold_filterStep_app. cbn [propertyCondition fst snd].
      split; [assumption|]. split; [|split].
      * apply in_or_app. left. apply in_or_app. right. now left.
      * rewrite <- !app_assoc. rewrite lookup_app_r by lia.
        now replace (idx - 1 - length args) with 0 by lia.
      * rewrite <- !app_assoc. rewrite lookup_app_r by lia.
        now replace (idx - length args) with 1 by lia.
    + destruct vs as [|v0 vs0] eqn:E; [now apply IH|]. rewrite <- E.
      assert (Hne : vs <> []) by (subst; discriminate).
      destruct (propertyCondition_ok idx p vs Hne) as (_ & Hla & Hix).
      apply IH; [lia | | assumption].
      rewrite length_app, Hla, Hix. lia.
Qed.

Lemma baseConditions_single ctx p visit (property v : string) :
  In (property, [v]) visit ->
  exists j : nat,
    1 <= j
    /\ In ("JSONExtractString(properties, " +:+ ph j +:+ ") = " +:+ ph (j + 1))
         (baseConditions ctx p visit).1.1
    /\ (baseConditions ctx p visit).1.2 !! (j - 1) = Some (ArgString property)
    /\ (baseConditions ctx p visit).1.2 !! j = Some (ArgString v).
Proof.
  intros Hin. unfold baseConditions, parseTimeConditionsWithIndex.
  destruct (String.eqb (GetTenantID ctx) ""), (String.eqb (GetEnvironmentID ctx) ""),
           (IsZero (StartTime p)), (IsZero (EndTime p)),
           (String.eqb (ExternalCustomerID p) ""), (String.eqb (CustomerID p) "");
    cbn [negb]; (apply fold_filterStep_single; [lia | reflexivity | assumption]).
Qed.

(** A map with at most one entry has one iteration order. *)
Lemma ranges_unique (m : gmap string (list string)) (v v' : Visit) :
  size m <= 1 -> ranges m v -> ranges m v' -> v = v'.
Proof.
  unfold ranges. intros Hs Hv Hv'.
  assert (Hp : v ≡ₚ v') by (now rewrite Hv, Hv').
  assert (Hl : length v <= 1).
  { rewrite Hv, length_map_to_list. exact Hs. }
  destruct v as [|a [|b v]]; simpl in Hl; try lia.
  - now apply Permutation_nil in Hp.
  - now apply Permutation_length_1_inv in Hp.
Qed.

(** What [Build] joins after [filter_matches]: the matched query cut at
    every comma, its first piece without the [matched_events AS (]
    header. *)
Remark matchedComponents_queries :
  CQuery <$> matchedComponents
  = [ nl +:+ tabs 2 "SELECT" +:+ nl +:+ tabs 3 "id";
      "timestamp";
      "properties";
      "arrayJoin(group_matches) as matched_group";
      "matched_group.1 as group_id";
      "matched_group.2 as total_filters";
      "matched_group.3 as matches" +:+ nl +:+ tabs 2 "FROM filter_matches" +:+ nl
        +:+ tabs 1 ")";
      "best_matches AS (" +:+ nl +:+ tabs 2 "SELECT" +:+ nl +:+ tabs 3 "id";
      "properties";
      "argMax(group_id";
      "(total_filters";
      "group_id)) as best_match_group" +:+ nl +:+ tabs 2 "FROM matched_events" +:+ nl
        +:+ tabs 2 "WHERE matches = 1" +:+ nl +:+ tabs 2 "GROUP BY id";
      "properties" +:+ nl +:+ tabs 1 ")" ].
Proof. vm_compute. reflexivity. Qed.

Lemma nodigit_b_true (s : string) : nodigit_b s = true -> nodigit s.
Proof. destruct s; simpl; [auto|]. now destruct (is_digit a). Qed.

Lemma plain_component_ok (c : CTEComponent) : plain_component c = true -> comp_ok c.
Proof.
  unfold plain_component. rewrite !andb_true_iff, bool_decide_eq_true.
  intros [[Hq Hd] Hl]. exists []. rewrite Hl. repeat split; auto.
  - now apply emits_lit.
  - now apply nodigit_b_true.
Qed.

Lemma matchedComponents_ok : Forall comp_ok matchedComponents.
Proof.
  apply Forall_forall. intros c Hc. apply plain_component_ok.
  assert (H : forallb plain_component matchedComponents = true) by (vm_compute; reflexivity).
  rewrite forallb_forall in H. apply H. now apply list_elem_of_In.
Qed.

Lemma WithBaseFilters_ok ctx params visit qb :
  qb_ok qb -> qb_ok (WithBaseFilters ctx params visit qb).
Proof.
  intros [Hc Hf]. unfold WithBaseFilters.
  pose proof (baseConditions_ok ctx params visit) as Hb.
  destruct (baseConditions ctx params visit) as [[conds args] idx].
  destruct Hb as (nss & F & C & L & B). cbn [fst snd] in *.
  pose proof (cond_ok_Join conds nss " AND " eq_refl eq_refl ltac:(discriminate) F)
    as [Hj _].
  split; cbn [cteComponents finalQuery]; [|assumption].
  apply Forall_app. split; [assumption|]. constructor; [|constructor].
  exists (concat nss). cbn [CQuery CArgs]. split.
  - unfold baseText. cond_tac.
  - now rewrite C, L.
Qed.

Lemma WithFilterGroups_ok ctx groups qb :
  qb_ok qb -> qb_ok (WithFilterGroups ctx groups qb).
Proof.
  intros [Hc Hf]. unfold WithFilterGroups. destruct groups as [|g groups]; [now split|].
  pose proof (filterConditions_ok (g :: groups)) as Hb.
  destruct (filterConditions (g :: groups)) as [[fcs args] idx].
  destruct Hb as (nss & F & C & L & B). cbn [fst snd] in *.
  pose proof (cond_ok_Join fcs nss ("," +:+ nl +:+ tabs 3 "") eq_refl eq_refl
                ltac:(discriminate) F) as [Hj _].
  split; cbn [cteComponents finalQuery]; [|assumption].
  apply Forall_app. split; [|apply matchedComponents_ok].
  apply Forall_app. split; [assumption|]. constructor; [|constructor].
  exists (concat nss). cbn [CQuery CArgs]. split.
  - unfold filterText. cond_tac.
  - now rewrite C, L.
Qed.

Lemma WithAggregation_ok ctx aggType propertyName qb :
  qb_ok qb -> qb_ok (WithAggregation ctx aggType propertyName qb).
Proof.
  intros [Hc Hf]. unfold WithAggregation.
  destruct aggType; cbn [aggregationClause]; (split; [assumption|]);
    cbn [finalQuery Query Args];
    first [ solve [exists []; split; [cond_tac | reflexivity]]
          | solve [exists [1]; split; [cond_tac | reflexivity]] ].
Qed.

Lemma reachable_ok (qb : QueryBuilder) : reachable qb -> qb_ok qb.
Proof.
  induction 1.
  - split; [constructor|]. exists []. split; [split; [apply emits_nil | exact I] | reflexivity].
  - now apply WithBaseFilters_ok.
  - now apply WithFilterGroups_ok.
  - now apply WithAggregation_ok.
Qed.

Lemma components_fragments (comps : list CTEComponent) :
  Forall comp_ok comps ->
  exists frags : list Fragment,
    Forall2 cond_ok (CQuery <$> comps) frags.*1
    /\ CArgs <$> comps = frags.*2
    /\ Forall fragment_numbered frags.
Proof.
  induction 1 as [|c comps (ns & Hc & Hp) _ (frags & F & A & N)].
  - exists []. repeat split; constructor.
  - exists ((ns, CArgs c) :: frags). repeat split.
    + now constructor.
    + now rewrite !fmap_cons, A.
    + now constructor.
Qed.

Lemma fragments_length (frags : list Fragment) :
  Forall fragment_numbered frags ->
  length (concat frags.*1) = length (concat frags.*2).
Proof.
  induction 1 as [|f frags Hf _ IH]; [reflexivity|].
  rewrite !fmap_cons. cbn [concat]. rewrite !length_app, IH. f_equal.
  unfold fragment_numbered in Hf. apply Permutation_length in Hf.
  now rewrite Hf, length_seq.
Qed.

Lemma cond_ok_placeholders (texts : list string) (nss : list (list nat)) :
  Forall2 cond_ok texts nss -> nss = placeholders <$> texts.
Proof.
  induction 1 as [|t ns texts nss [He _] _ IH]; [reflexivity|].
  rewrite fmap_cons, <- IH. f_equal. symmetry. now apply emits_placeholders.
Qed.

Lemma Build_fragments (qb : QueryBuilder) :
  qb_ok qb ->
  exists frags : list Fragment,
    frags.*1 = placeholders <$> ((CQuery <$> cteComponents qb) ++ [Query (finalQuery qb)])
    /\ frags.*2 = (CArgs <$> cteComponents qb) ++ [Args (finalQuery qb)]
    /\ placeholders (Build qb).1 = concat frags.*1
    /\ (Build qb).2 = concat frags.*2
    /\ Forall fragment_numbered frags.
Proof.
  intros [Hc (nf & [Hf _] & Hp)].
  destruct (components_fragments _ Hc) as (frags & F & A & N).
  pose proof (emits_Join _ _ ("," +:+ nl) eq_refl eq_refl ltac:(discriminate) F) as Hj.
  pose proof (cond_ok_placeholders _ _ F) as Hfst.
  exists (frags ++ [(nf, Args (finalQuery qb))]). unfold Build. cbn [fst snd].
  rewrite !fmap_app, !concat_app, A. cbn [fmap list_fmap fst snd concat].
  rewrite !app_nil_r. split; [|split; [reflexivity|split; [|split; [reflexivity|]]]].
  - rewrite Hfst. f_equal. f_equal. symmetry. now apply emits_placeholders.
  - apply emits_placeholders. emits_tac.
  - apply Forall_app. split; [assumption|]. now constructor.
Qed.

(** The shape of [baseConditions]: scalar conditions, then the property
    conditions, for every combination of optional parts. *)
Ltac base_cases ctx params visit :=
  unfold baseConditions, parseTimeConditionsWithIndex;
  destruct (String.eqb (GetTenantID ctx) "") eqn:Etenant,
           (String.eqb (GetEnvironmentID ctx) "") eqn:Eenv,
           (IsZero (StartTime params)) eqn:Estart,
           (IsZero (EndTime params)) eqn:Eend,
           (String.eqb (ExternalCustomerID params) "") eqn:Eext,
           (String.eqb (CustomerID params) "") eqn:Ecust;
  cbn [negb]; rewrite fold_filterStep_app;
  match goal with
  | |- context [fold_left filterStep visit ([], [], ?i)] =>
      let Hc := fresh "Hc" in
      let Ha := fresh "Ha" in
      destruct (fold_filterStep_shape visit i) as [Hc Ha];
      destruct (fold_left filterStep visit ([], [], i)) as [[fc fa] fi]
  end;
  cbn [fst snd] in *.

Ltac base_goal :=
  lazymatch goal with
  | |- _ /\ _ => split; base_goal
  | |- _ -> _ => let H := fresh in intros H; first [discriminate H | base_goal]
  | Hc : Forall is_property_condition ?fc |- has_condition (String ?a ?p) (_ ++ ?fc) = _ =>
      rewrite has_condition_app, (property_conditions_only a p fc)
        by first [discriminate | exact Hc];
      vm_compute; reflexivity
  | |- In _ (_ ++ _) => apply in_or_app; left; vm_compute; tauto
  | |- (_ ++ _) !! _ = Some _ => vm_compute; reflexivity
  | Ha : Forall is_string_arg ?fa |- omap _ (_ ++ ?fa) = _ =>
      rewrite omap_app, (string_args_no_time fa Ha); vm_compute; reflexivity
  end.

End builder_facts.

(** ** The earlier revision: what it does differently *)

Module builder_prev_facts.

Import types events builder examples.

(** The earlier revision writes the property name into the condition,
    between quotes, and numbers only the values. *)
Lemma prev_property_name_in_text (argIndex : nat) (property value : string) :
  builder_prev.propertyCondition argIndex property [value]
  = ("JSONExtractString(properties, '" +:+ property +:+ "') = " +:+ ph argIndex,
     [ArgString value], argIndex + 1).
Proof. reflexivity. Qed.

(** It passes the time bounds as formatted strings, behind a [?] without
    a number, so that a statement with a time window shows fewer numbered
    placeholders than it has arguments. *)
Lemma prev_time_bounds_formatted (format : Time -> string) (params : UsageParams) :
  IsZero (StartTime params) = false -> IsZero (EndTime params) = false ->
  builder_prev.parseTimeConditions format params
  = (["timestamp >= toDateTime64(?, 3)"; "timestamp < toDateTime64(?, 3)"],
     [ArgString (format (StartTime params)); ArgString (format (EndTime params))]).
Proof. intros Hs He. unfold builder_prev.parseTimeConditions. now rewrite Hs, He. Qed.

Lemma prev_scenario_output :
  placeholders (builder_prev.compile fixedFormat noContext apiCall regionVisit []
                  AggregationCount "").1 = [1; 4; 5]
  /\ (builder_prev.compile fixedFormat noContext apiCall regionVisit []
        AggregationCount "").2
     = [ArgString "api_call"; ArgString "2024-01-01 00:00:00.000";
        ArgString "2024-01-01 00:00:00.000"; ArgString "us-east-1"; ArgString "us-west-1"].
Proof. split; vm_compute; reflexivity. Qed.

(** It writes the group identifier and the priority into the triple. *)
Lemma prev_group_identifier_in_text :
  (fold_left (builder_prev.groupStep) [(goldGroup, tierVisit)] ([], [], 1)).1
  = (["('g1', 2, (JSONExtractString(properties, 'tier') = ?1))"], [ArgString "gold"]).
Proof. vm_compute. reflexivity. Qed.

End builder_prev_facts.

(** ** The argument lists without the loops *)

Module layout_facts.

Import types events builder builder_facts layout.

Lemma fold_filterStep_layout (visit : Visit) (idx : nat) :
  (fold_left filterStep visit ([], [], idx)).1.2 = visitArgs visit
  /\ length (fold_left filterStep visit ([], [], idx)).1.1 = length (filter usable visit).
Proof.
  revert idx. induction visit as [|[p vs] visit IH]; intros idx; [now split|].
  cbn [fold_left]. rewrite (filterStep_unfold [] [] idx p vs).
  unfold visitArgs. rewrite fmap_cons. cbn [concat]. fold (visitArgs visit).
  unfold Visit, usable in *. rewrite filter_cons. cbn [snd].
  destruct vs as [|v0 vs0].
  - rewrite decide_False by congruence. apply IH.
  - rewrite decide_True by discriminate. cbv iota.
    rewrite fold_filterStep_app. cbn [fst snd length].
    destruct (IH (propertyCondition idx p (v0 :: vs0)).2) as [-> Hl].
    rewrite length_app, Hl. cbn [length app]. split; [|lia].
    f_equal. unfold entryArgs. cbn [fst snd]. now destruct vs0.
Qed.

Lemma baseConditions_layout (ctx : Context) (params : UsageParams) (visit : Visit) :
  (baseConditions ctx params visit).1.2 = baseArgs ctx params visit
  /\ (baseConditions ctx params visit).2 = 1 + length (baseArgs ctx params visit)
  /\ length (baseConditions ctx params visit).1.1
     = length (baseArgs ctx params []) + length (filter usable visit).
Proof.
  assert (Ha : (baseConditions ctx params visit).1.2 = baseArgs ctx params visit
               /\ length (baseConditions ctx params visit).1.1
                  = length (baseArgs ctx params []) + length (filter usable visit)).
  { unfold baseConditions, parseTimeConditionsWithIndex, baseArgs, optionalArg, optionalTime.
    destruct (String.eqb (GetTenantID ctx) ""), (String.eqb (GetEnvironmentID ctx) ""),
             (IsZero (StartTime params)), (IsZero (EndTime params)),
             (String.eqb (ExternalCustomerID params) ""), (String.eqb (CustomerID params) "");
      cbn [negb]; rewrite fold_filterStep_app; cbn [fst snd];
      match goal with
      | |- context [fold_left filterStep visit ([], [], ?i)] =>
          destruct (fold_filterStep_layout visit i) as [-> Hl]
      end; rewrite length_app, Hl; split; reflexivity. }
  destruct Ha as [Ha Hc]. split; [exact Ha | split; [|exact Hc]].
  destruct (baseConditions_ok ctx params visit) as (nss & _ & _ & L & B).
  rewrite <- Ha. lia.
Qed.

Lemma visitArgs_nil (visit : Visit) : filter usable visit = [] -> visitArgs visit = [].
Proof.
  unfold Visit, usable in *. induction visit as [|[p vs] visit IH]; intros Hf; [reflexivity|].
  rewrite filter_cons in Hf. cbn [snd] in Hf. destruct vs as [|v vs].
  - rewrite decide_False in Hf by congruence. unfold visitArgs. rewrite fmap_cons.
    cbn [concat]. fold (visitArgs visit). now rewrite IH.
  - rewrite decide_True in Hf by discriminate. discriminate.
Qed.

Lemma groupStep_layout (fcs : list string) (allArgs : list Arg) (idx : nat)
  (gv : FilterGroup.t * Visit) :
  (groupStep (fcs, allArgs, idx) gv).1.2 = allArgs ++ groupArgs gv
  /\ length (groupStep (fcs, allArgs, idx) gv).1.1 = S (length fcs).
Proof.
  destruct gv as [g visit]. unfold groupStep, groupArgs. cbn [fst snd].
  destruct (fold_filterStep_layout visit idx) as [Ha Hc].
  destruct (fold_left filterStep visit ([], [], idx)) as [[conds gargs] idx'].
  cbn [fst snd] in *. subst gargs.
  destruct (0 <? length conds)%nat eqn:E; cbn [fst snd]; rewrite length_app.
  - split; [now rewrite <- app_assoc | simpl; lia].
  - apply Nat.ltb_ge in E. split; [|simpl; lia].
    rewrite (visitArgs_nil visit); [reflexivity|].
    apply length_zero_iff_nil. lia.
Qed.

Lemma fold_groupStep_layout (groups : list (FilterGroup.t * Visit)) (acc : Acc) :
  (fold_left groupStep groups acc).1.2 = acc.1.2 ++ concat (groupArgs <$> groups)
  /\ length (fold_left groupStep groups acc).1.1 = length acc.1.1 + length groups.
Proof.
  revert acc. induction groups as [|gv groups IH]; intros [[fcs allArgs] idx].
  - cbn [fold_left fmap list_fmap concat fst snd length]. rewrite app_nil_r.
    split; [reflexivity | lia].
  - cbn [fold_left]. destruct (groupStep_layout fcs allArgs idx gv) as [Ha Hc].
    destruct (IH (groupStep (fcs, allArgs, idx) gv)) as [-> ->].
    rewrite Ha, Hc, fmap_cons. cbn [concat fst snd length]. rewrite <- app_assoc.
    split; [reflexivity | lia].
Qed.

Lemma filterConditions_layout (groups : list (FilterGroup.t * Visit)) :
  (filterConditions groups).1.2 = concat (groupArgs <$> groups)
  /\ (filterConditions groups).2 = 1 + length (concat (groupArgs <$> groups))
  /\ length (filterConditions groups).1.1 = length groups.
Proof.
  destruct (fold_groupStep_layout groups ([], [], 1)) as [Ha Hc].
  destruct (filterConditions_ok groups) as (nss & _ & _ & L & B).
  unfold filterConditions in *. cbn [fst snd app length] in *.
  split; [exact Ha | split; [|exact Hc]]. rewrite <- Ha. lia.
Qed.

Lemma visitArgs_length (visit : Visit) :
  length (visitArgs visit) = sum_list (entryCount <$> visit).
Proof.
  unfold visitArgs. induction visit as [|[p vs] visit IH]; [reflexivity|].
  rewrite !fmap_cons. cbn [concat sum_list]. rewrite length_app, IH. f_equal.
  unfold entryArgs, entryCount. cbn [fst snd]. destruct vs as [|v0 [|v1 vs]]; try reflexivity.
  rewrite length_app, length_fmap. cbn [length]. unfold Datatypes.id. lia.
Qed.

Lemma groupArgs_length (groups : list (FilterGroup.t * Visit)) :
  length (concat (groupArgs <$> groups))
  = sum_list ((fun gv : FilterGroup.t * Visit => 2 + sum_list (entryCount <$> gv.2))
                <$> groups).
Proof.
  induction groups as [|gv groups IH]; [reflexivity|].
  rewrite !fmap_cons. cbn [concat sum_list]. rewrite length_app, IH. f_equal.
  unfold groupArgs. rewrite length_app, visitArgs_length. reflexivity.
Qed.

Lemma visitArgs_Permutation (v v' : Visit) : v ≡ₚ v' -> visitArgs v ≡ₚ visitArgs v'.
Proof.
  unfold visitArgs. induction 1 as [|e v v' _ IH|e e' v|v v' v'' _ IH1 _ IH2].
  - reflexivity.
  - rewrite !fmap_cons. cbn [concat]. now rewrite IH.
  - rewrite !fmap_cons. cbn [concat]. rewrite !app_assoc.
    apply Permutation_app_tail, Permutation_app_comm.
  - now rewrite IH1.
Qed.

Lemma fold_filterStep_skip (visit : Visit) (acc : Acc) :
  fold_left filterStep visit acc = fold_left filterStep (filter usable visit) acc.
Proof.
  unfold Visit, usable in *. revert acc.
  induction visit as [|[p vs] visit IH]; intros acc; [reflexivity|].
  rewrite filter_cons. cbn [snd fold_left]. destruct vs as [|v vs].
  - rewrite decide_False by congruence. destruct acc as [[c a] i]. apply IH.
  - rewrite decide_True by discriminate. cbn [fold_left]. apply IH.
Qed.

Lemma baseConditions_skip (ctx : Context) (params : UsageParams) (visit : Visit) :
  baseConditions ctx params visit = baseConditions ctx params (filter usable visit).
Proof.
  unfold baseConditions, parseTimeConditionsWithIndex.
  destruct (String.eqb (GetTenantID ctx) ""), (String.eqb (GetEnvironmentID ctx) ""),
           (IsZero (StartTime params)), (IsZero (EndTime params)),
           (String.eqb (ExternalCustomerID params) ""), (String.eqb (CustomerID params) "");
    cbn [negb]; apply fold_filterStep_skip.
Qed.

Lemma fold_groupStep_skip (groups : list (FilterGroup.t * Visit)) (acc : Acc) :
  fold_left groupStep groups acc
  = fold_left groupStep
      ((fun gv : FilterGroup.t * Visit => (gv.1, filter usable gv.2)) <$> groups) acc.
Proof.
  revert acc. induction groups as [|[g v] groups IH]; intros acc; [reflexivity|].
  rewrite fmap_cons. cbn [fold_left fst snd]. rewrite <- IH. f_equal.
  destruct acc as [[fcs allArgs] idx]. unfold groupStep.
  now rewrite (fold_filterStep_skip v).
Qed.

Lemma visitArgs_times_set (visit : Visit) : Forall time_arg_set (visitArgs visit).
Proof.
  unfold visitArgs. induction visit as [|[p vs] visit IH]; [constructor|].
  rewrite fmap_cons. cbn [concat]. apply Forall_app. split; [|exact IH].
  unfold entryArgs. cbn [fst snd]. destruct vs as [|v0 [|v1 vs]]; repeat constructor.
  apply Forall_app. split; [|repeat constructor].
  apply Forall_fmap, Forall_forall. now intros.
Qed.

Lemma baseArgs_times_set (ctx : Context) (params : UsageParams) (visit : Visit) :
  Forall time_arg_set (baseArgs ctx params visit).
Proof.
  unfold baseArgs, optionalArg, optionalTime.
  repeat (apply Forall_app; split); try apply visitArgs_times_set;
    repeat match goal with
           | |- Forall _ (if ?b then _ else _) => destruct b eqn:?
           | |- Forall _ [] => constructor
           | |- Forall _ [_] => constructor; [|constructor]
           end; try exact I; assumption.
Qed.

Lemma groupArgs_times_set (groups : list (FilterGroup.t * Visit)) :
  Forall time_arg_set (concat (groupArgs <$> groups)).
Proof.
  induction groups as [|gv groups IH]; [constructor|].
  rewrite fmap_cons. cbn [concat]. apply Forall_app. split; [|exact IH].
  unfold groupArgs. apply Forall_app. split; [repeat constructor | apply visitArgs_times_set].
Qed.

Lemma matchedComponents_plain :
  Forall (fun c => CArgs c = [] /\ placeholders (CQuery c) = []) matchedComponents.
Proof.
  apply Forall_forall. intros c Hc.
  assert (H : forallb (fun c => bool_decide (CArgs c = [] /\ placeholders (CQuery c) = []))
                matchedComponents = true) by (vm_compute; reflexivity).
  rewrite forallb_forall in H. specialize (H c (proj1 (list_elem_of_In _ _) Hc)).
  now apply bool_decide_eq_true in H.
Qed.

Lemma reachable_times_set (qb : QueryBuilder) :
  reachable qb ->
  Forall (fun c => Forall time_arg_set (CArgs c)) (cteComponents qb)
  /\ Forall time_arg_set (Args (finalQuery qb)).
Proof.
  induction 1 as [|ctx params visit qb _ [IHc IHf]|ctx groups qb _ [IHc IHf]
                  |ctx aggType propertyName qb _ [IHc IHf]].
  - split; constructor.
  - unfold WithBaseFilters.
    pose proof (baseConditions_layout ctx params visit) as [Ha _].
    destruct (baseConditions ctx params visit) as [[c a] i]. cbn [fst snd] in Ha. subst a.
    split; [|exact IHf]. cbn [cteComponents]. apply Forall_app. split; [exact IHc|].
    constructor; [apply baseArgs_times_set | constructor].
  - unfold WithFilterGroups. destruct groups as [|g groups]; [now split|].
    pose proof (filterConditions_layout (g :: groups)) as [Ha _].
    destruct (filterConditions (g :: groups)) as [[c a] i]. cbn [fst snd] in Ha. subst a.
    split; [|exact IHf]. cbn [cteComponents]. apply Forall_app. split.
    + apply Forall_app. split; [exact IHc|].
      constructor; [apply groupArgs_times_set | constructor].
    + eapply Forall_impl; [apply matchedComponents_plain|].
      intros x [-> _]. constructor.
  - unfold WithAggregation.
    destruct aggType; cbn [aggregationClause cteComponents finalQuery Args app];
      (split; [exact IHc | repeat constructor]).
Qed.

Lemma ranges_singleton (property : string) (values : list string) (visit : Visit) :
  ranges {[ property := values ]} visit <-> visit = [(property, values)].
Proof.
  unfold ranges. rewrite map_to_list_singleton. split.
  - intros H. now apply Permutation_length_1_inv, Permutation_sym.
  - now intros ->.
Qed.

Lemma ranges_two (p q : string) (vs ws : list string) :
  p <> q ->
  ranges (<[ q := ws ]> {[ p := vs ]}) [(p, vs); (q, ws)]
  /\ ranges (<[ q := ws ]> {[ p := vs ]}) [(q, ws); (p, vs)].
Proof.
  intros Hne.
  assert (Hm : map_to_list (<[ q := ws ]> ({[ p := vs ]} : gmap string (list string)))
                 ≡ₚ [(q, ws); (p, vs)]).
  { rewrite map_to_list_insert by (now apply lookup_singleton_ne).
    now rewrite map_to_list_singleton. }
  unfold ranges. split; [|now symmetry].
  etransitivity; [apply perm_swap | now symmetry].
Qed.

End layout_facts.

(** ** The earlier revision: numbering and arguments *)

Module prev_numbering_facts.

Import types events builder builder_facts layout prev_layout.

Lemma placeholder_list_plain (k a : nat) : cond_ok (Join (ph <$> seq a k) ",") (seq a k).
Proof.
  assert (Hc : concat ((fun j => [j]) <$> seq a k) = seq a k).
  { generalize (seq a k). intros l. induction l as [|x l IH]; [reflexivity|].
    rewrite fmap_cons. cbn [concat app]. now rewrite IH. }
  rewrite <- Hc at 2. apply cond_ok_Join; [reflexivity | exact eq_refl | discriminate |].
  apply Forall2_fmap, Forall_Forall2_diag, Forall_forall.
  intros j _. split; [apply emits_ph | exact eq_refl].
Qed.

Lemma prev_propertyCondition_ok (idx : nat) (property : string) (values : list string) :
  values <> [] -> no_qmark property = true ->
  cond_ok (builder_prev.propertyCondition idx property values).1.1 (seq idx (length values))
  /\ (builder_prev.propertyCondition idx property values).1.2 = ArgString <$> values
  /\ (builder_prev.propertyCondition idx property values).2 = idx + length values.
Proof.
  intros Hne Hq. pose proof (emits_lit property Hq) as Hp.
  destruct values as [|v0 [|v1 vs]]; [congruence | |].
  - cbn [builder_prev.propertyCondition fst snd length]. repeat split; try lia.
    emits_tac.
  - remember (v0 :: v1 :: vs) as values eqn:E.
    assert (Hpc : builder_prev.propertyCondition idx property values
      = ("JSONExtractString(properties, '" +:+ property +:+ "') IN ("
           +:+ Join (imap (fun i _ => ph (idx + i)) values) "," +:+ ")",
         ArgString <$> values, idx + length values)) by now subst.
    rewrite Hpc. cbn [fst snd].
    rewrite (imap_seq values ph idx).
    destruct (placeholder_list_plain (length values) idx) as [He Hd].
    repeat split. emits_tac.
Qed.

Lemma prev_fold_filterStep (visit : Visit) (conds : list string) (args : list Arg)
  (idx : nat) (nss : list (list nat)) :
  Forall2 cond_ok conds nss ->
  Forall (fun e : string * list string => no_qmark e.1 = true) visit ->
  exists nss' : list (list nat),
    Forall2 cond_ok (fold_left builder_prev.filterStep visit (conds, args, idx)).1.1
      (nss ++ nss')
    /\ concat nss' = seq idx (length (visitValues visit))
    /\ (fold_left builder_prev.filterStep visit (conds, args, idx)).1.2
       = args ++ visitValues visit
    /\ (fold_left builder_prev.filterStep visit (conds, args, idx)).2
       = idx + length (visitValues visit).
Proof.
  intros F Hv. revert conds args idx nss F.
  induction Hv as [|[p vs] visit Hp _ IH]; intros conds args idx nss F.
  - exists []. cbn. rewrite !app_nil_r. repeat split; try assumption; lia.
  - cbn [fold_left]. unfold visitValues. rewrite fmap_cons. cbn [concat snd].
    fold (visitValues visit). cbn [snd fst] in *.
    destruct vs as [|v0 vs0] eqn:E.
    + cbn [builder_prev.filterStep fmap list_fmap app]. apply IH, F.
    + rewrite <- E.
      assert (Hne : vs <> []) by (subst; discriminate).
      destruct (prev_propertyCondition_ok idx p vs Hne Hp) as (Hc & Ha & Hi).
      assert (Hs : builder_prev.filterStep (conds, args, idx) (p, vs)
                   = (conds ++ [(builder_prev.propertyCondition idx p vs).1.1],
                      args ++ (builder_prev.propertyCondition idx p vs).1.2,
                      (builder_prev.propertyCondition idx p vs).2)).
      { unfold builder_prev.filterStep. subst vs.
        now destruct (builder_prev.propertyCondition idx p (v0 :: vs0)) as [[c a] i]. }
      rewrite Hs, Ha, Hi.
      destruct (IH (conds ++ [(builder_prev.propertyCondition idx p vs).1.1])
                  (args ++ (ArgString <$> vs)) (idx + length vs)
                  (nss ++ [seq idx (length vs)])) as (nss' & F' & C' & A' & I').
      { apply Forall2_app; [exact F|]. constructor; [exact Hc | constructor]. }
      exists (seq idx (length vs) :: nss'). rewrite <- app_assoc in F'. cbn [app] in F'.
      split; [exact F'|]. cbn [concat length]. rewrite C', A', I', !length_app, length_fmap.
      rewrite seq_app, <- app_assoc. repeat split; lia.
Qed.

Lemma prev_start_condition : cond_ok "timestamp >= toDateTime64(?, 3)" [].
Proof. split; [intros r _; reflexivity | exact eq_refl]. Qed.

Lemma prev_end_condition : cond_ok "timestamp < toDateTime64(?, 3)" [].
Proof. split; [intros r _; reflexivity | exact eq_refl]. Qed.

Lemma prev_baseConditions_numbering (format : Time -> string)
  (ctx : Context) (params : UsageParams) (visit : Visit) :
  Forall (fun e : string * list string => no_qmark e.1 = true) visit ->
  let out := builder_prev.baseConditions format ctx params visit in
  let k := 1 + length (optionalArg (GetTenantID ctx) ++ optionalArg (GetEnvironmentID ctx)) in
  let t := length (optionalBound format (StartTime params)
                     ++ optionalBound format (EndTime params)) in
  out.1.2 = prev_layout.baseArgs format ctx params visit
  /\ out.2 = 1 + length out.1.2
  /\ placeholders (Join out.1.1 " AND ")
     = seq 1 k ++ seq (k + t + 1) (length out.1.2 - (k + t)).
Proof.
  intros Hv. cbv zeta.
  unfold builder_prev.baseConditions, builder_prev.parseTimeConditions, prev_layout.baseArgs,
    optionalBound, optionalArg.
  destruct (String.eqb (GetTenantID ctx) ""), (String.eqb (GetEnvironmentID ctx) ""),
           (IsZero (StartTime params)), (IsZero (EndTime params)),
           (String.eqb (ExternalCustomerID params) ""), (String.eqb (CustomerID params) "");
    cbn [negb app length Nat.add];
    match goal with
    | |- context [fold_left builder_prev.filterStep visit (?c, ?a, ?i)] =>
        let F := fresh "F" in
        eassert (F : Forall2 cond_ok c _)
          by (repeat (constructor;
                 [first [apply prev_start_condition | apply prev_end_condition | cond_tac]|]);
               constructor);
        destruct (prev_fold_filterStep visit c a i _ F Hv) as (nss' & F' & C' & A' & I');
        pose proof (emits_placeholders _ _
          (emits_Join _ _ " AND " eq_refl eq_refl ltac:(discriminate) F')) as Hp;
        rewrite Hp, A', I', concat_app, C'; clear
    end;
    cbn [concat app length Nat.add]; rewrite ?length_app; cbn [length];
    (split; [reflexivity | split; [lia|]]);
    match goal with
    | |- _ = _ ++ seq ?a ?m =>
        match goal with
        | |- context [seq ?i0 (length ?vv)] =>
            replace m with ((i0 - a) + length vv) by lia;
            rewrite (seq_app (i0 - a) (length vv) a)
        end
    end; reflexivity.
Qed.

Lemma emits_itoaZ (z : Z) : emits (itoaZ z) [].
Proof.
  intros r _. unfold itoaZ. destruct (Z.to_int z) as [d|d]; cbn [NilEmpty.string_of_int].
  - apply placeholders_uint.
  - change (placeholders (String "-" (NilEmpty.string_of_uint d +:+ r)) = [] ++ placeholders r).
    cbn [placeholders]. change (Ascii.eqb "-" "?") with false. cbv iota.
    apply placeholders_uint.
Qed.

Lemma prev_groupStep_ok (acc : Acc) (gv : FilterGroup.t * Visit) :
  acc_ok 1 acc -> plain_group gv ->
  acc_ok 1 (builder_prev.groupStep acc gv)
  /\ (builder_prev.groupStep acc gv).1.2 = acc.1.2 ++ visitValues gv.2
  /\ length (builder_prev.groupStep acc gv).1.1 = S (length acc.1.1).
Proof.
  destruct acc as [[fcs allArgs] idx], gv as [g visit].
  intros (nss & F & C & L & B) [Hid Hv]. cbn [fst snd] in *. unfold builder_prev.groupStep.
  destruct (prev_fold_filterStep visit [] [] idx [] (@Forall2_nil_2 _ _ cond_ok) Hv)
    as (nss' & F' & C' & A' & I').
  destruct (fold_left builder_prev.filterStep visit ([], [], idx)) as [[conds gargs] idx'].
  cbn [fst snd app] in *. subst gargs idx'.
  pose proof (cond_ok_Join conds nss' " AND " eq_refl eq_refl ltac:(discriminate) F')
    as [Hj _].
  pose proof (emits_lit _ Hid) as Hi. pose proof (emits_itoaZ (FilterGroup.Priority g)) as Hz.
  destruct (0 <? length conds)%nat eqn:E; cbn [fst snd].
  - split; [|split; [reflexivity | rewrite length_app; simpl; lia]].
    exists (nss ++ [concat nss']). cbn [fst snd]. repeat split.
    + apply Forall2_app; [assumption|]. constructor; [|constructor]. cond_tac.
    + rewrite concat_app, C, C'. cbn [concat]. rewrite app_nil_r.
      replace (idx + length (visitValues visit) - 1)
        with ((idx - 1) + length (visitValues visit)) by lia.
      rewrite seq_app. do 2 f_equal. lia.
    + rewrite length_app. lia.
    + lia.
  - apply Nat.ltb_ge in E. assert (conds = []) as -> by (destruct conds; simpl in E; [easy | lia]).
    inversion F'; subst. cbn [concat] in C'. symmetry in C'. apply seq_eq_nil in C'.
    apply length_zero_iff_nil in C'. rewrite C'.
    split; [|split; [now rewrite app_nil_r | rewrite length_app; simpl; lia]].
    exists (nss ++ [[]]). cbn [fst snd length]. rewrite Nat.add_0_r. repeat split.
    + apply Forall2_app; [assumption|]. constructor; [|constructor]. cond_tac.
    + rewrite concat_app, C. cbn [concat]. now rewrite !app_nil_r.
    + assumption.
    + assumption.
Qed.

Lemma prev_fold_groupStep (groups : list (FilterGroup.t * Visit)) (acc : Acc) :
  Forall plain_group groups -> acc_ok 1 acc ->
  acc_ok 1 (fold_left builder_prev.groupStep groups acc)
  /\ (fold_left builder_prev.groupStep groups acc).1.2
     = acc.1.2 ++ concat ((fun gv : FilterGroup.t * Visit => visitValues gv.2) <$> groups)
  /\ length (fold_left builder_prev.groupStep groups acc).1.1
     = length acc.1.1 + length groups.
Proof.
  intros Hg. revert acc. induction Hg as [|gv groups Hgv _ IH]; intros acc Hacc.
  - cbn. rewrite app_nil_r. repeat split; [assumption | lia].
  - cbn [fold_left]. destruct (prev_groupStep_ok acc gv Hacc Hgv) as (Hok & Ha & Hl).
    destruct (IH _ Hok) as (Hok' & Ha' & Hl'). rewrite Ha', Hl', Ha, Hl, fmap_cons.
    cbn [concat length]. rewrite <- app_assoc. repeat split; [assumption | lia].
Qed.

End prev_numbering_facts.

(** ** The time format *)

Module gotime_facts.

Import gotime.

Lemma length_append (a b : string) :
  String.length (a +:+ b) = String.length a + String.length b.
Proof. induction a as [|c a IH]; simpl; [reflexivity | now rewrite IH]. Qed.

Lemma absDate_bounds (d : Z) :
  (0 <= d ->
   1 <= (absDate d).1
   /\ 0 <= (absDate d).2 <= 365
   /\ ((absDate d).2 = 365 -> isLeap (absDate d).1 = true)
   /\ (d < 3652059 -> (absDate d).1 <= 9999))%Z.
Proof.
  intros Hd. unfold absDate, isLeap, daysPer400Years, daysPer100Years, daysPer4Years.
  cbv zeta. cbn [fst snd]. rewrite !Z.shiftr_div_pow2 by lia.
  change (2 ^ 2)%Z with 4%Z.
  rewrite andb_true_iff, orb_true_iff, negb_true_iff, !Z.eqb_eq, Z.eqb_neq.
  Z.div_mod_to_equations. lia.
Qed.

Ltac month_cases :=
  repeat match goal with
         | |- context [nth ?n daysBefore 0%Z] =>
             let v := eval vm_compute in (nth n daysBefore 0%Z) in
             change (nth n daysBefore 0%Z) with v
         end;
  match goal with |- context [(?e <=? ?d)%Z] => destruct (Z.leb_spec e d) end;
  cbn [fst snd]; lia.

Ltac month_split day :=
  let m := fresh "m" in
  let Em := fresh "Em" in
  let Hc := fresh "Hc" in
  assert (0 <= day / 31 <= 11)%Z by (Z.div_mod_to_equations; lia);
  remember (day / 31)%Z as m eqn:Em;
  assert (31 * m <= day < 31 * m + 31)%Z by (subst m; Z.div_mod_to_equations; lia);
  clear Em;
  assert (Hc : (m = 0 \/ m = 1 \/ m = 2 \/ m = 3 \/ m = 4 \/ m = 5 \/ m = 6 \/ m = 7
                \/ m = 8 \/ m = 9 \/ m = 10 \/ m = 11)%Z) by lia;
  repeat (destruct Hc as [->|Hc]); try subst m; month_cases.

Lemma monthDay_bounds (year yday : Z) :
  (0 <= yday <= 365 -> (yday = 365 -> isLeap year = true) ->
   1 <= (monthDay year yday).1 <= 12 /\ 1 <= (monthDay year yday).2 <= 31)%Z.
Proof.
  intros Hy Hl. unfold monthDay. cbv zeta.
  destruct (isLeap year); cbn [andb].
  - destruct (Z.eqb_spec yday (31 + 29 - 1)) as [E|E]; [cbn; lia|].
    destruct (Z.ltb_spec (31 + 29 - 1) yday) as [L|L].
    + month_split (yday - 1)%Z.
    + month_split yday.
  - assert (Hn : (yday <= 364)%Z).
    { destruct (Z.eq_dec yday 365%Z) as [E|E]; [specialize (Hl E); discriminate | lia]. }
    month_split yday.
Qed.

Lemma digits_length (n : nat) (u : Z) : String.length (digits n u) = n.
Proof.
  revert u. induction n as [|n IH]; intros u; [reflexivity|].
  cbn [digits]. rewrite length_append, IH. simpl. lia.
Qed.

Lemma digit_char_is_digit (d : Z) : (0 <= d <= 9)%Z -> is_digit (digit_char d) = true.
Proof.
  intros H.
  assert (Hc : (d = 0 \/ d = 1 \/ d = 2 \/ d = 3 \/ d = 4 \/ d = 5 \/ d = 6 \/ d = 7
                \/ d = 8 \/ d = 9)%Z) by lia.
  repeat (destruct Hc as [->|Hc]); try subst d; reflexivity.
Qed.

Lemma matches_classes_app (ks1 ks2 : list Class) (s1 s2 : string) :
  matches_classes ks1 s1 = true -> matches_classes ks2 s2 = true ->
  matches_classes (ks1 ++ ks2) (s1 +:+ s2) = true.
Proof.
  revert s1. induction ks1 as [|k ks1 IH]; intros s1 H1 H2.
  - destruct s1; [exact H2 | discriminate].
  - destruct s1 as [|c s1]; [discriminate|]. cbn [matches_classes] in *. simpl.
    apply andb_true_iff in H1 as [Hc Hs]. rewrite Hc. now apply IH.
Qed.

Lemma digits_match (n : nat) (u : Z) :
  matches_classes (replicate n Digit) (digits n u) = true.
Proof.
  revert u. induction n as [|n IH]; intros u; [reflexivity|].
  cbn [digits]. replace (replicate (S n) Digit) with (replicate n Digit ++ [Digit]).
  - apply matches_classes_app; [apply IH|]. cbn. rewrite andb_true_r.
    apply digit_char_is_digit. pose proof (Z.mod_pos_bound u 10). lia.
  - clear. induction n as [|n IH]; [reflexivity|]. cbn [replicate app]. now rewrite IH.
Qed.

Lemma digitsLen_le (rounds w : nat) (u : Z) :
  (0 <= u < 10 ^ Z.of_nat w)%Z -> digitsLen rounds u <= w.
Proof.
  revert rounds u. induction w as [|w IH]; intros rounds u Hu.
  - change (10 ^ Z.of_nat 0)%Z with 1%Z in Hu. destruct rounds; cbn [digitsLen]; [lia|].
    destruct (Z.ltb_spec 0 u); lia.
  - destruct rounds; cbn [digitsLen]; [lia|]. destruct (Z.ltb_spec 0 u); [|lia].
    apply le_n_S, IH. rewrite Nat2Z.inj_succ, Z.pow_succ_r in Hu by lia.
    Z.div_mod_to_equations. lia.
Qed.

Lemma appendInt_digits (x : Z) (w : nat) :
  1 <= w -> (0 <= x < 10 ^ Z.of_nat w)%Z -> appendInt x w = digits w x.
Proof.
  intros Hw Hx. unfold appendInt. cbv zeta. rewrite Z.abs_eq by lia.
  destruct (Z.ltb_spec x 0); [lia|]. cbn [String.append].
  pose proof (digitsLen_le 20 w x Hx).
  destruct (x =? 0)%Z; f_equal; lia.
Qed.

Lemma digits_split (a b : nat) (u : Z) :
  digits (a + b) u = digits a (u / 10 ^ Z.of_nat b) +:+ digits b u.
Proof.
  revert u. induction b as [|b IH]; intros u.
  - rewrite Nat.add_0_r. cbn [digits]. change (10 ^ Z.of_nat 0)%Z with 1%Z.
    now rewrite Z.div_1_r, append_nil_r.
  - rewrite Nat.add_succ_r. cbn [digits]. rewrite IH, append_assoc. do 2 f_equal.
    rewrite Nat2Z.inj_succ, Z.pow_succ_r by lia. rewrite Z.div_div by lia. reflexivity.
Qed.

Lemma substring_prefix (x y : string) : substring 0 (String.length x) (x +:+ y) = x.
Proof.
  induction x as [|c x IH]; simpl.
  - destruct y; reflexivity.
  - now rewrite IH.
Qed.

Lemma appendNano3_digits (nanosec : Z) :
  (0 <= nanosec < 1000000000)%Z ->
  appendNano3 nanosec = "." +:+ digits 3 (nanosec / 1000000).
Proof.
  intros H. unfold appendNano3. rewrite appendInt_digits by (cbn; lia).
  change 9 with (3 + 6). rewrite (digits_split 3 6 nanosec).
  change (10 ^ Z.of_nat 6)%Z with 1000000%Z.
  rewrite <- (digits_length 3 (nanosec / 1000000)) at 1.
  now rewrite substring_prefix.
Qed.

Lemma format_matches_pattern (t : Time) :
  year_range t -> matches_classes datetime_pattern (formatClickHouseDateTime t) = true.
Proof.
  intros [Hs Hn]. unfold formatClickHouseDateTime, secondsPerDay. cbv zeta.
  assert (Hd : (0 <= sec t / 86400 < 3652059)%Z) by (Z.div_mod_to_equations; lia).
  destruct (absDate_bounds (sec t / 86400) (proj1 Hd)) as (Hy1 & Hyd & Hleap & Hy2).
  specialize (Hy2 (proj2 Hd)).
  destruct (absDate (sec t / 86400)) as [year yday]. cbn [fst snd] in *.
  destruct (monthDay_bounds year yday Hyd Hleap) as [Hm Hdd].
  destruct (monthDay year yday) as [month day]. cbn [fst snd] in *.
  rewrite appendNano3_digits by exact Hn.
  rewrite !appendInt_digits by (cbn; try lia; Z.div_mod_to_equations; lia).
  change datetime_pattern
    with (replicate 4 Digit ++ [Lit "-"] ++ replicate 2 Digit ++ [Lit "-"]
            ++ replicate 2 Digit ++ [Lit " "] ++ replicate 2 Digit ++ [Lit ":"]
            ++ replicate 2 Digit ++ [Lit ":"] ++ replicate 2 Digit ++ [Lit "."]
            ++ replicate 3 Digit).
  repeat (apply matches_classes_app; [first [apply digits_match | reflexivity]|]).
  apply digits_match.
Qed.

Lemma T0_year_range : year_range examples.T0.
Proof. unfold year_range. cbn. lia. Qed.

Lemma T1_year_range : year_range examples.T1.
Proof. unfold year_range. cbn. lia. Qed.

End gotime_facts.

(** ** The characters of the statement text *)

Module syntax_facts.
Import types events builder builder_facts syntax.

Lemma weight_app (w : ascii -> Z) (a b : string) :
  weight w (a +:+ b) = (weight w a + weight w b)%Z.
Proof. induction a as [|c a IH]; simpl; [reflexivity | rewrite IH; lia]. Qed.

Lemma weight_uint (w : ascii -> Z) (d : uint) :
  known_weight w -> weight w (NilEmpty.string_of_uint d) = 0%Z.
Proof.
  intros [-> | ->]; induction d; cbn [NilEmpty.string_of_uint weight]; try reflexivity;
    rewrite IHd; reflexivity.
Qed.

Lemma weight_ph (w : ascii -> Z) (n : nat) : known_weight w -> weight w (ph n) = 0%Z.
Proof.
  intros H. unfold ph, itoa. rewrite weight_app, (weight_uint w _ H).
  destruct H as [-> | ->]; reflexivity.
Qed.

Lemma weight_Join (w : ascii -> Z) (l : list string) (sep : string) :
  weight w sep = 0%Z -> weight w (Join l sep) = total w l.
Proof.
  intros Hs. unfold total. induction l as [|a l IH]; [reflexivity|].
  rewrite fmap_cons. cbn [foldr]. rewrite <- IH. destruct l as [|b l].
  - simpl. lia.
  - change (Join (a :: b :: l) sep) with (a +:+ sep +:+ Join (b :: l) sep).
    rewrite !weight_app, Hs. lia.
Qed.

Lemma total_app (w : ascii -> Z) (l1 l2 : list string) :
  total w (l1 ++ l2) = (total w l1 + total w l2)%Z.
Proof.
  unfold total. induction l1 as [|a l1 IH]; [simpl; lia|].
  rewrite <- app_comm_cons, !fmap_cons. cbn [foldr]. rewrite IH. lia.
Qed.

Lemma total_cons (w : ascii -> Z) (a : string) (l : list string) :
  total w (a :: l) = (weight w a + total w l)%Z.
Proof. reflexivity. Qed.

Lemma total_neutral (w : ascii -> Z) (l : list string) :
  Forall (fun s => weight w s = 0%Z) l -> total w l = 0%Z.
Proof.
  unfold total. induction 1 as [|a l Ha _ IH]; [reflexivity|].
  rewrite fmap_cons. cbn [foldr]. lia.
Qed.

(** Evaluates the weight of a text assembled from literals, placeholders
    and pieces of known weight, for a known weight function. *)
Ltac weigh H :=
  rewrite ?weight_app, ?(weight_ph _ _ H);
  destruct H as [-> | ->]; vm_compute; reflexivity.

Lemma placeholder_list_neutral (w : ascii -> Z) (l : list nat) :
  known_weight w -> weight w (Join (ph <$> l) ",") = 0%Z.
Proof.
  intros H. rewrite weight_Join by (destruct H as [-> | ->]; reflexivity).
  apply total_neutral, Forall_fmap, Forall_forall. intros n _. now apply weight_ph.
Qed.

Lemma propertyCondition_neutral (w : ascii -> Z) (idx : nat) (property : string)
  (values : list string) :
  known_weight w -> values <> [] ->
  weight w (propertyCondition idx property values).1.1 = 0%Z.
Proof.
  intros H Hne. destruct values as [|v0 [|v1 vs]]; [congruence | |].
  - cbn [propertyCondition fst]. weigh H.
  - cbn [propertyCondition fst]. rewrite placeholder_list_imap.
    pose proof (placeholder_list_neutral w ((fun j => j + 1) <$> seq idx (length (v0 :: v1 :: vs))) H)
      as Hl.
    rewrite <- list_fmap_compose in Hl. unfold compose in Hl.
    rewrite !weight_app, Hl, (weight_ph _ _ H). destruct H as [-> | ->]; vm_compute; reflexivity.
Qed.

Lemma fold_filterStep_neutral (w : ascii -> Z) (visit : Visit) (acc : Acc) :
  known_weight w ->
  Forall (fun s => weight w s = 0%Z) acc.1.1 ->
  Forall (fun s => weight w s = 0%Z) (fold_left filterStep visit acc).1.1.
Proof.
  intros H. revert acc. induction visit as [|[p vs] visit IH]; intros [[c a] i] Hacc;
    [exact Hacc|].
  cbn [fold_left]. apply IH. rewrite (filterStep_unfold c a i p vs).
  destruct vs as [|v0 vs0] eqn:E; [exact Hacc|]. rewrite <- E. cbn [fst snd] in *.
  apply Forall_app. split; [exact Hacc|]. constructor; [|constructor].
  apply propertyCondition_neutral; [exact H | subst; discriminate].
Qed.

Lemma baseConditions_neutral (w : ascii -> Z) (ctx : Context) (params : UsageParams)
  (visit : Visit) :
  known_weight w -> Forall (fun s => weight w s = 0%Z) (baseConditions ctx params visit).1.1.
Proof.
  intros H. unfold baseConditions, parseTimeConditionsWithIndex.
  destruct (String.eqb (GetTenantID ctx) ""), (String.eqb (GetEnvironmentID ctx) ""),
           (IsZero (StartTime params)), (IsZero (EndTime params)),
           (String.eqb (ExternalCustomerID params) ""), (String.eqb (CustomerID params) "");
    cbn [negb app]; (apply fold_filterStep_neutral; [exact H|]); cbn [fst snd];
    repeat (constructor; [destruct H as [-> | ->]; reflexivity|]); constructor.
Qed.

Lemma base_component_neutral (w : ascii -> Z) (ctx : Context) (params : UsageParams)
  (visit : Visit) :
  known_weight w ->
  weight w (baseText (Join (baseConditions ctx params visit).1.1 " AND ")) = 0%Z.
Proof.
  intros H. unfold baseText.
  assert (Hj : weight w (Join (baseConditions ctx params visit).1.1 " AND ") = 0%Z).
  { rewrite weight_Join by (destruct H as [-> | ->]; reflexivity).
    now apply total_neutral, baseConditions_neutral. }
  rewrite !weight_app, Hj. destruct H as [-> | ->]; vm_compute; reflexivity.
Qed.

Lemma groupStep_neutral (w : ascii -> Z) (acc : Acc) (gv : FilterGroup.t * Visit) :
  known_weight w ->
  Forall (fun s => weight w s = 0%Z) acc.1.1 ->
  Forall (fun s => weight w s = 0%Z) (groupStep acc gv).1.1.
Proof.
  intros H Hacc. destruct acc as [[fcs allArgs] idx], gv as [g visit]. unfold groupStep.
  pose proof (fold_filterStep_neutral w visit ([], [], idx) H (Forall_nil_2 _)) as Hc.
  destruct (fold_left filterStep visit ([], [], idx)) as [[conds gargs] idx'].
  cbn [fst snd] in *.
  assert (Hj : weight w (Join conds " AND ") = 0%Z).
  { rewrite weight_Join by (destruct H as [-> | ->]; reflexivity). now apply total_neutral. }
  destruct (0 <? length conds)%nat; cbn [fst snd]; (apply Forall_app; split; [exact Hacc|]);
    (constructor; [|constructor]).
  - rewrite !weight_app, Hj, !(weight_ph _ _ H). destruct H as [-> | ->]; vm_compute; reflexivity.
  - rewrite !weight_app, !(weight_ph _ _ H). destruct H as [-> | ->]; vm_compute; reflexivity.
Qed.

Lemma filter_component_neutral (w : ascii -> Z) (groups : list (FilterGroup.t * Visit)) :
  known_weight w ->
  weight w (filterText (Join (filterConditions groups).1.1 ("," +:+ nl +:+ tabs 3 ""))) = 0%Z.
Proof.
  intros H. unfold filterText.
  assert (Hc : Forall (fun s => weight w s = 0%Z) (filterConditions groups).1.1).
  { unfold filterConditions.
    assert (Hg : forall acc, Forall (fun s => weight w s = 0%Z) acc.1.1 ->
              Forall (fun s => weight w s = 0%Z) (fold_left groupStep groups acc).1.1).
    { induction groups as [|gv groups IH]; intros acc Hacc; [exact Hacc|].
      cbn [fold_left]. apply IH. now apply groupStep_neutral. }
    apply Hg. constructor. }
  assert (Hj : weight w (Join (filterConditions groups).1.1 ("," +:+ nl +:+ tabs 3 "")) = 0%Z).
  { rewrite weight_Join by (destruct H as [-> | ->]; reflexivity). now apply total_neutral. }
  rewrite !weight_app, Hj. destruct H as [-> | ->]; vm_compute; reflexivity.
Qed.

Lemma matched_components_weight :
  Forall (fun c => weight quoting (CQuery c) = 0%Z) matchedComponents
  /\ total paren_excess (CQuery <$> matchedComponents) = 1%Z.
Proof.
  split; [|vm_compute; reflexivity].
  apply Forall_forall. intros c Hc.
  assert (H : forallb (fun c => bool_decide (weight quoting (CQuery c) = 0%Z))
                matchedComponents = true) by (vm_compute; reflexivity).
  rewrite forallb_forall in H. specialize (H c (proj1 (list_elem_of_In _ _) Hc)).
  now apply bool_decide_eq_true in H.
Qed.

Lemma final_query_neutral (w : ascii -> Z) (ctx : Context) (aggType : types.AggregationType)
  (propertyName : string) (qb : QueryBuilder) :
  known_weight w ->
  weight w (Query (finalQuery (WithAggregation ctx aggType propertyName qb))) = 0%Z.
Proof.
  intros H. unfold WithAggregation.
  destruct aggType; cbn [aggregationClause finalQuery Query]; destruct H as [-> | ->];
    vm_compute; reflexivity.
Qed.

Lemma Build_weight (w : ascii -> Z) (qb : QueryBuilder) :
  known_weight w ->
  weight w (Build qb).1
  = (total w (CQuery <$> cteComponents qb) + weight w (Query (finalQuery qb)))%Z.
Proof.
  intros H. unfold Build. cbn [fst].
  rewrite !weight_app, weight_Join by (destruct H as [-> | ->]; reflexivity).
  destruct H as [-> | ->]; vm_compute; reflexivity.
Qed.

Lemma strip_prefix_weight (w : ascii -> Z) (v s r : string) :
  strip_prefix v s = Some r -> weight w s = (weight w v + weight w r)%Z.
Proof.
  revert s. induction v as [|a v IH]; intros s H.
  - cbn in H. injection H as <-. simpl. lia.
  - destruct s as [|b s]; [discriminate|]. cbn [strip_prefix] in H.
    destruct (Ascii.eqb_spec a b) as [->|]; [|discriminate].
    cbn [weight]. rewrite (IH s H). lia.
Qed.

Lemma weight_quoting_nonneg (s : string) : (0 <= weight quoting s)%Z.
Proof.
  induction s as [|c s IH]; cbn [weight]; [lia|].
  unfold quoting at 1. destruct (quoting_char c); lia.
Qed.

Lemma Contains_quoting (s v : string) :
  Contains s v = true -> (weight quoting v <= weight quoting s)%Z.
Proof.
  induction s as [|c s IH]; cbn [Contains]; rewrite orb_true_iff; unfold HasPrefix.
  - intros [H|H]; [|discriminate].
    destruct (strip_prefix v "") as [r|] eqn:E; [|discriminate].
    rewrite (strip_prefix_weight quoting _ _ _ E). pose proof (weight_quoting_nonneg r). lia.
  - intros [H|H].
    + destruct (strip_prefix v (String c s)) as [r|] eqn:E; [|discriminate].
      rewrite (strip_prefix_weight quoting _ _ _ E). pose proof (weight_quoting_nonneg r). lia.
    + specialize (IH H). cbn [weight]. unfold quoting at 2. destruct (quoting_char c); lia.
Qed.

Lemma reachable_free_of_quoting (qb : QueryBuilder) :
  reachable qb ->
  Forall (fun c => weight quoting (CQuery c) = 0%Z) (cteComponents qb)
  /\ weight quoting (Query (finalQuery qb)) = 0%Z.
Proof.
  assert (K : known_weight quoting) by now left.
  induction 1 as [|ctx params visit qb _ [IHc IHf]|ctx groups qb _ [IHc IHf]
                  |ctx aggType propertyName qb _ [IHc IHf]].
  - split; [constructor | reflexivity].
  - pose proof (base_component_neutral quoting ctx params visit K) as Hb.
    unfold WithBaseFilters. destruct (baseConditions ctx params visit) as [[c a] i].
    cbn [fst snd cteComponents finalQuery] in *. split; [|exact IHf].
    apply Forall_app. split; [exact IHc|]. constructor; [exact Hb | constructor].
  - unfold WithFilterGroups. destruct groups as [|g groups]; [now split|].
    pose proof (filter_component_neutral quoting (g :: groups) K) as Hb.
    destruct (filterConditions (g :: groups)) as [[c a] i].
    cbn [fst snd cteComponents finalQuery] in *. split; [|exact IHf].
    apply Forall_app. split; [|apply matched_components_weight].
    apply Forall_app. split; [exact IHc|]. constructor; [exact Hb | constructor].
  - split; [|now apply final_query_neutral].
    unfold WithAggregation. now destruct (aggregationClause aggType propertyName) as [[? ?] ?].
Qed.

Lemma count_char_weight (x : ascii) (s : string) :
  weight (fun c => if Ascii.eqb c x then 1%Z else 0%Z) s = Z.of_nat (count_char x s).
Proof.
  unfold count_char. rewrite Z2Nat.id; [reflexivity|].
  induction s as [|c s IH]; cbn [weight]; [lia|]. destruct (Ascii.eqb c x); lia.
Qed.

Lemma paren_excess_counts (s : string) :
  weight paren_excess s = (Z.of_nat (count_char ")" s) - Z.of_nat (count_char "(" s))%Z.
Proof.
  rewrite <- !count_char_weight. induction s as [|c s IH]; cbn [weight]; [reflexivity|].
  rewrite IH. unfold paren_excess.
  destruct (Ascii.eqb_spec c ")") as [E1|E1], (Ascii.eqb_spec c "(") as [E2|E2];
    try lia. subst c. discriminate E2.
Qed.

End syntax_facts.

(** ** Names written into the text by the earlier revision *)

Module occurrence_facts.
Import types events builder builder_facts occurrence.

Lemma strip_prefix_app (v y : string) : strip_prefix v (v +:+ y) = Some y.
Proof.
  induction v as [|c v IH]; simpl; [reflexivity|]. now rewrite Ascii.eqb_refl.
Qed.

Lemma occurs_Contains (v s : string) : occurs v s -> Contains s v = true.
Proof.
  intros (x & y & ->). induction x as [|c x IH].
  - change ("" +:+ v +:+ y) with (v +:+ y).
    assert (H : HasPrefix (v +:+ y) v = true) by (unfold HasPrefix; now rewrite strip_prefix_app).
    destruct (v +:+ y); cbn [Contains]; now rewrite H.
  - change (String c x +:+ v +:+ y) with (String c (x +:+ v +:+ y)).
    cbn [Contains]. rewrite IH. apply orb_true_r.
Qed.

Lemma occurs_here (v y : string) : occurs v (v +:+ y).
Proof. now exists "", y. Qed.

Lemma occurs_prefix (v y s : string) : s = v +:+ y -> occurs v s.
Proof. intros ->. apply occurs_here. Qed.

Ltac string_assoc := repeat (rewrite ?append_assoc; cbn [String.append]); reflexivity.

Lemma occurs_app_l (v a b : string) : occurs v a -> occurs v (a +:+ b).
Proof. intros (x & y & ->). exists x, (y +:+ b). now rewrite !append_assoc. Qed.

Lemma occurs_app_r (v a b : string) : occurs v b -> occurs v (a +:+ b).
Proof. intros (x & y & ->). exists (a +:+ x), y. now rewrite !append_assoc. Qed.

Lemma occurs_trans (u v s : string) : occurs u v -> occurs v s -> occurs u s.
Proof.
  intros (x & y & ->) (x' & y' & ->). exists (x' +:+ x), (y +:+ y').
  now rewrite !append_assoc.
Qed.

Lemma occurs_Join (c : string) (l : list string) (sep : string) :
  In c l -> occurs c (Join l sep).
Proof.
  induction l as [|a l IH]; [intros []|]. intros [->|Hin].
  - destruct l as [|b l]; [exists "", ""; cbn; now rewrite append_nil_r|].
    change (Join (c :: b :: l) sep) with (c +:+ sep +:+ Join (b :: l) sep).
    apply occurs_here.
  - destruct l as [|b l]; [destruct Hin|].
    change (Join (a :: b :: l) sep) with (a +:+ sep +:+ Join (b :: l) sep).
    apply occurs_app_r, occurs_app_r, IH, Hin.
Qed.

Lemma prev_condition_names_property (idx : nat) (property : string) (values : list string) :
  values <> [] ->
  occurs ("JSONExtractString(properties, '" +:+ property +:+ "')")
    (builder_prev.propertyCondition idx property values).1.1.
Proof.
  intros Hne. destruct values as [|v0 [|v1 vs]]; [congruence | |];
    cbn [builder_prev.propertyCondition fst].
  - apply (occurs_prefix _ (" = " +:+ ph idx)). string_assoc.
  - apply (occurs_prefix _
             (" IN (" +:+ Join (imap (fun i _ => ph (idx + i)) (v0 :: v1 :: vs)) "," +:+ ")")).
    string_assoc.
Qed.

Lemma prev_fold_filterStep_keeps (visit : Visit) (acc : Acc) (c : string) :
  In c acc.1.1 -> In c (fold_left builder_prev.filterStep visit acc).1.1.
Proof.
  revert acc. induction visit as [|[p vs] visit IH]; intros [[cs a] i] Hin; [exact Hin|].
  cbn [fold_left]. apply IH. unfold builder_prev.filterStep. destruct vs as [|v vs]; [exact Hin|].
  destruct (builder_prev.propertyCondition i p (v :: vs)) as [[c' a'] i']. cbn [fst snd] in *.
  apply in_or_app. now left.
Qed.

Lemma prev_fold_filterStep_names (visit : Visit) (acc : Acc) (p : string) (vs : list string) :
  In (p, vs) visit -> vs <> [] ->
  exists c : string,
    In c (fold_left builder_prev.filterStep visit acc).1.1
    /\ occurs ("JSONExtractString(properties, '" +:+ p +:+ "')") c.
Proof.
  revert acc. induction visit as [|[q ws] visit IH]; intros [[cs a] i] Hin Hne; [destruct Hin|].
  cbn [fold_left]. destruct Hin as [[= -> ->]|Hin]; [|now apply IH].
  exists (builder_prev.propertyCondition i p vs).1.1. split.
  - apply prev_fold_filterStep_keeps. unfold builder_prev.filterStep.
    destruct vs as [|v vs]; [congruence|].
    destruct (builder_prev.propertyCondition i p (v :: vs)) as [[c' a'] i']. cbn [fst snd].
    apply in_or_app. right. now left.
  - now apply prev_condition_names_property.
Qed.

Lemma prev_base_names (format : Time -> string) (ctx : Context) (params : UsageParams)
  (visit : Visit) (p : string) (vs : list string) :
  In (p, vs) visit -> vs <> [] ->
  occurs ("JSONExtractString(properties, '" +:+ p +:+ "')")
    (Join (builder_prev.baseConditions format ctx params visit).1.1 " AND ").
Proof.
  intros Hin Hne. unfold builder_prev.baseConditions. cbv zeta.
  destruct (if negb (String.eqb (GetTenantID ctx) "") then _ else _) as [[c1 a1] i1].
  destruct (if negb (String.eqb (GetEnvironmentID ctx) "") then _ else _) as [[c2 a2] i2].
  destruct (builder_prev.parseTimeConditions format params) as [tc ta].
  destruct (if negb (String.eqb (ExternalCustomerID params) "") then _ else _) as [[c3 a3] i3].
  destruct (if negb (String.eqb (CustomerID params) "") then _ else _) as [[c4 a4] i4].
  destruct (prev_fold_filterStep_names visit (c4, a4, i4) p vs Hin Hne) as (c & Hc & Ho).
  eapply occurs_trans; [exact Ho|]. now apply occurs_Join.
Qed.

Lemma prev_group_names (groups : list (FilterGroup.t * Visit)) (acc : Acc)
  (g : FilterGroup.t) (v : Visit) :
  In (g, v) groups ->
  exists c : string,
    In c (fold_left builder_prev.groupStep groups acc).1.1
    /\ occurs ("('" +:+ FilterGroup.ID g +:+ "', " +:+ itoaZ (FilterGroup.Priority g) +:+ ", ") c.
Proof.
  assert (Hk : forall gs acc c, In c acc.1.1 -> In c (fold_left builder_prev.groupStep gs acc).1.1).
  { induction gs as [|[g' v'] gs IH]; intros [[fcs a] i] c Hc; [exact Hc|].
    cbn [fold_left]. apply IH. unfold builder_prev.groupStep.
    destruct (fold_left builder_prev.filterStep v' ([], [], i)) as [[cs ga] i'].
    destruct (0 <? length cs)%nat; cbn [fst snd] in *; apply in_or_app; now left. }
  revert acc. induction groups as [|[g' v'] groups IH]; intros [[fcs a] i] Hin; [destruct Hin|].
  cbn [fold_left]. destruct Hin as [[= -> ->]|Hin]; [|now apply IH].
  unfold builder_prev.groupStep at 2.
  destruct (fold_left builder_prev.filterStep v ([], [], i)) as [[cs ga] i'].
  destruct (0 <? length cs)%nat.
  - eexists. split; [apply Hk; cbn [fst snd]; apply in_or_app; right; now left|].
    apply (occurs_prefix _ ("(" +:+ Join cs " AND " +:+ "))")). string_assoc.
  - eexists. split; [apply Hk; cbn [fst snd]; apply in_or_app; right; now left|].
    apply (occurs_prefix _ "1)"). string_assoc.
Qed.

Ltac locate H := repeat first [ exact H | apply occurs_app_l; exact H | apply occurs_app_r ].

Lemma occurs_baseText (v whereClause : string) :
  occurs v whereClause -> occurs v (baseText whereClause).
Proof. intros H. unfold baseText. locate H. Qed.

Lemma occurs_filterText (v joined : string) :
  occurs v joined -> occurs v (filterText joined).
Proof. intros H. unfold filterText. locate H. Qed.

Lemma prev_Build_occurs (qb : QueryBuilder) (component : CTEComponent) (v : string) :
  In component (cteComponents qb) -> occurs v (CQuery component) ->
  occurs v (builder_prev.Build qb).1.
Proof.
  intros Hin Ho. unfold builder_prev.Build. cbn [fst].
  apply occurs_app_r, occurs_app_l.
  eapply occurs_trans;
    [|apply occurs_Join, list_elem_of_In,
        (list_elem_of_fmap_2
           (fun component => Name component +:+ " AS (" +:+ CQuery component +:+ ")")),
        list_elem_of_In, Hin].
  cbv beta. locate Ho.
Qed.

End occurrence_facts.

(** ** Searching a statement text piece by piece *)

Module fragment_facts.

Import types events builder builder_facts layout layout_facts occurrence.

(** *** Cutting a text at a character the searched text does not have *)

Lemma HasPrefix_cut (v a : string) (c : ascii) (b : string) :
  mentions v c = false -> HasPrefix (a +:+ String c b) v = HasPrefix a v.
Proof.
  unfold HasPrefix. revert a. induction v as [|x v IH]; intros a Hm; [reflexivity|].
  cbn [mentions] in Hm. apply orb_false_iff in Hm as [Hx Hv].
  destruct a as [|y a]; cbn [String.append strip_prefix].
  - now rewrite Hx.
  - destruct (Ascii.eqb x y); [now apply IH | reflexivity].
Qed.

Lemma Contains_cut (v a : string) (c : ascii) (b : string) :
  mentions v c = false ->
  Contains (a +:+ String c b) v = Contains a v || Contains b v.
Proof.
  intros Hm. induction a as [|y a IH].
  - pose proof (HasPrefix_cut v "" c b Hm) as H. cbn [String.append] in H.
    cbn [String.append Contains]. rewrite H. now rewrite orb_false_r.
  - change (String y a +:+ String c b) with (String y (a +:+ String c b)).
    cbn [Contains]. rewrite IH.
    change (String y (a +:+ String c b)) with (String y a +:+ String c b).
    rewrite (HasPrefix_cut v (String y a) c b Hm). now rewrite !orb_assoc.
Qed.

Lemma Contains_empty (v : string) : v <> "" -> Contains "" v = false.
Proof. destruct v; [congruence | reflexivity]. Qed.

(** A stretch [m] of characters that [v] does not have separates what
    stands before it from what stands after it. *)
Lemma Contains_skip (v a m b : string) :
  v <> "" -> m <> "" -> avoids v m = true ->
  Contains (a +:+ m +:+ b) v = Contains a v || Contains b v.
Proof.
  intros Hv. revert a. induction m as [|c m IH]; intros a Hm Ha; [congruence|].
  cbn [avoids] in Ha. apply andb_true_iff in Ha as [Hc Hr].
  apply negb_true_iff in Hc.
  change (a +:+ String c m +:+ b) with (a +:+ String c (m +:+ b)).
  rewrite (Contains_cut v a c (m +:+ b) Hc). f_equal.
  destruct m as [|d m]; [reflexivity|].
  change (String d m +:+ b) with ("" +:+ String d m +:+ b).
  rewrite (IH "" ltac:(discriminate) Hr), (Contains_empty v Hv). reflexivity.
Qed.

Lemma Contains_skip_head (v m b : string) :
  v <> "" -> m <> "" -> avoids v m = true -> Contains (m +:+ b) v = Contains b v.
Proof.
  intros Hv Hm Ha. change (m +:+ b) with ("" +:+ m +:+ b).
  now rewrite (Contains_skip v "" m b Hv Hm Ha), (Contains_empty v Hv).
Qed.

Lemma last_outside_snoc (v s : string) :
  last_outside v s = true ->
  exists (s' : string) (c : ascii), s = s' +:+ String c "" /\ mentions v c = false.
Proof.
  induction s as [|x s IH]; [discriminate|]. destruct s as [|y s].
  - cbn [last_outside]. intros H. apply negb_true_iff in H. now exists "", x.
  - intros H. destruct (IH H) as (s' & c & E & Hc). exists (String x s'), c.
    split; [|exact Hc]. cbn [String.append]. now rewrite <- E.
Qed.

(** A text whose last character [v] does not have separates itself from
    what follows. *)
Lemma Contains_after (v a b : string) :
  v <> "" -> last_outside v a = true ->
  Contains (a +:+ b) v = Contains a v || Contains b v.
Proof.
  intros Hv Ha. destruct (last_outside_snoc v a Ha) as (a' & c & -> & Hc).
  rewrite append_assoc. cbn [String.append].
  rewrite !(Contains_cut v a' c _ Hc), (Contains_empty v Hv). now rewrite orb_false_r.
Qed.

Lemma Join_suffix (a : string) (l : list string) (sep post : string) :
  Join (a :: l) sep +:+ post = a +:+ suffix_with sep l post.
Proof.
  revert a. induction l as [|b l IH]; intros a; [reflexivity|].
  change (Join (a :: b :: l) sep) with (a +:+ sep +:+ Join (b :: l) sep).
  unfold suffix_with. cbn [foldr]. fold (suffix_with sep l post).
  now rewrite !append_assoc, IH.
Qed.

Lemma Join_app_suffix (l1 l2 : list string) (sep post : string) :
  l1 <> [] -> Join (l1 ++ l2) sep +:+ post = Join l1 sep +:+ suffix_with sep l2 post.
Proof.
  destruct l1 as [|a l1]; [congruence|]. intros _. rewrite <- app_comm_cons, !Join_suffix.
  f_equal. unfold suffix_with. now rewrite foldr_app.
Qed.

Lemma avoids_app (v a b : string) : avoids v (a +:+ b) = avoids v a && avoids v b.
Proof.
  induction a as [|c a IH]; [reflexivity|]. cbn [String.append avoids].
  now rewrite IH, andb_assoc.
Qed.

Lemma last_outside_app (v a b : string) :
  last_outside v b = true -> last_outside v (a +:+ b) = true.
Proof.
  intros Hb. induction a as [|x a IH]; [exact Hb|].
  cbn [String.append last_outside]. destruct (a +:+ b) eqn:E; [|exact IH].
  destruct a; [|discriminate]. cbn in E. subst b. discriminate.
Qed.

Lemma avoids_sub (v : string) (c : ascii) (s : string) :
  avoids v s = true -> mentions s c = true -> mentions v c = false.
Proof.
  induction s as [|x s IH]; [discriminate|]. cbn [avoids mentions].
  intros Ha Hm. apply andb_true_iff in Ha as [Hx Hs].
  apply orb_true_iff in Hm as [Hm|Hm]; [|now apply IH].
  apply Ascii.eqb_eq in Hm. subst x. now apply negb_true_iff in Hx.
Qed.

(** *** Placeholders *)

Section Quiet.

Variable v : string.
Hypothesis Hq : quiet v = true.

Lemma quiet_nonempty : v <> "".
Proof.
  unfold quiet in Hq. repeat (apply andb_true_iff in Hq as [Hq ?]).
  apply negb_true_iff in Hq. intros ->. discriminate Hq.
Qed.

Lemma quiet_avoids : avoids v ("?0123456789,()" +:+ nl +:+ tab) = true.
Proof. unfold quiet in Hq. now repeat (apply andb_true_iff in Hq as [Hq ?]). Qed.

Lemma quiet_char (c : ascii) :
  mentions ("?0123456789,()" +:+ nl +:+ tab) c = true -> mentions v c = false.
Proof. apply avoids_sub, quiet_avoids. Qed.

Lemma quiet_text (s : string) :
  forallb (mentions ("?0123456789,()" +:+ nl +:+ tab)) (list_ascii_of_string s) = true ->
  avoids v s = true.
Proof.
  induction s as [|c s IH]; [reflexivity|]. cbn [list_ascii_of_string forallb avoids].
  intros H. apply andb_true_iff in H as [Hc Hs]. now rewrite (quiet_char c Hc), IH.
Qed.

Lemma avoids_uint (d : uint) : avoids v (NilEmpty.string_of_uint d) = true.
Proof.
  induction d; cbn [NilEmpty.string_of_uint avoids]; [reflexivity|..];
    rewrite IHd, quiet_char by reflexivity; reflexivity.
Qed.

Lemma avoids_ph (n : nat) : avoids v (ph n) = true.
Proof.
  unfold ph, itoa. rewrite avoids_app, avoids_uint, andb_true_r.
  apply quiet_text. reflexivity.
Qed.

Lemma ph_nonempty (n : nat) : ph n <> "".
Proof. unfold ph. cbn [String.append]. discriminate. Qed.

Lemma avoids_placeholder_list (ns : list nat) :
  avoids v (Join (ph <$> ns) ",") = true.
Proof.
  induction ns as [|n ns IH]; [reflexivity|]. rewrite fmap_cons.
  destruct ns as [|m ns]; [apply avoids_ph|].
  rewrite fmap_cons in *.
  change (Join (ph n :: (ph m :: (ph <$> ns))) ",")
    with (ph n +:+ "," +:+ Join (ph m :: (ph <$> ns)) ",").
  rewrite !avoids_app, avoids_ph, IH, quiet_text by reflexivity. reflexivity.
Qed.

Lemma placeholder_list_nonempty (n : nat) (ns : list nat) : Join (ph <$> n :: ns) "," <> "".
Proof.
  rewrite fmap_cons. destruct ns as [|m ns]; [apply ph_nonempty|].
  rewrite fmap_cons.
  change (Join (ph n :: (ph m :: (ph <$> ns))) ",")
    with (ph n +:+ "," +:+ Join (ph m :: (ph <$> ns)) ",").
  unfold ph. cbn [String.append]. discriminate.
Qed.

(** A placeholder separates what stands before it from what stands
    after it. *)
Lemma Contains_ph (a : string) (n : nat) (b : string) :
  Contains (a +:+ ph n +:+ b) v = Contains a v || Contains b v.
Proof. apply Contains_skip; [apply quiet_nonempty | apply ph_nonempty | apply avoids_ph]. Qed.

Lemma quiet_literals :
  Contains " AND JSONExtractString(properties, " v = false
  /\ Contains "JSONExtractString(properties, " v = false
  /\ Contains ") = " v = false
  /\ Contains ") IN (" v = false
  /\ Contains ", " v = false
  /\ Contains ", 1" v = false.
Proof.
  unfold quiet in Hq. repeat (apply andb_true_iff in Hq as [Hq ?]).
  repeat match goal with H : negb _ = true |- _ => apply negb_true_iff in H end.
  repeat split; assumption.
Qed.

(** *** Property conditions *)

(** A property condition holds no occurrence of [v], whatever stands
    before its call and after it. *)
Lemma Contains_propertyCondition (lead : string) (idx : nat) (property : string)
  (values : list string) (post : string) :
  values <> [] ->
  Contains (lead +:+ "JSONExtractString(properties, ") v = false ->
  Contains (lead +:+ (propertyCondition idx property values).1.1 +:+ post) v
  = Contains post v.
Proof.
  intros Hne Hlead. destruct quiet_literals as (_ & _ & Heq & Hin & _).
  pose proof quiet_nonempty as Hv.
  destruct values as [|v0 [|v1 vs]]; [congruence | |]; cbn [propertyCondition fst].
  - replace (lead +:+ ("JSONExtractString(properties, " +:+ ph idx +:+ ") = " +:+ ph (idx + 1))
               +:+ post)
      with ((lead +:+ "JSONExtractString(properties, ") +:+ ph idx
              +:+ (") = " +:+ ph (idx + 1) +:+ post))
      by (rewrite !append_assoc; reflexivity).
    now rewrite !Contains_ph, Hlead, Heq.
  - rewrite placeholder_list_imap.
    set (ns := seq idx (length (v0 :: v1 :: vs))).
    assert (E : (fun j => ph (j + 1)) <$> ns = ph <$> ((fun j => j + 1) <$> ns))
      by (rewrite <- list_fmap_compose; reflexivity).
    rewrite E.
    assert (Hns : exists n ns', (fun j => j + 1) <$> ns = n :: ns').
    { subst ns. cbn [length seq fmap list_fmap]. eauto. }
    destruct Hns as (n & ns' & ->).
    replace (lead +:+ ("JSONExtractString(properties, " +:+ ph idx +:+ ") IN ("
               +:+ Join (ph <$> n :: ns') "," +:+ ")") +:+ post)
      with ((lead +:+ "JSONExtractString(properties, ") +:+ ph idx
              +:+ (") IN (" +:+ Join (ph <$> n :: ns') ","
                     +:+ (")" +:+ post)))
      by (rewrite !append_assoc; reflexivity).
    rewrite Contains_ph, Hlead. cbn [orb].
    rewrite (Contains_skip v _ _ _ Hv (placeholder_list_nonempty n ns')
               (avoids_placeholder_list (n :: ns'))), Hin. cbn [orb].
    apply Contains_skip_head; [exact Hv | discriminate | apply quiet_text; reflexivity].
Qed.

Lemma filter_conditions_free (visit : Visit) (acc : Acc) :
  Forall (condition_free v) acc.1.1 ->
  Forall (condition_free v) (fold_left filterStep visit acc).1.1.
Proof.
  revert acc. induction visit as [|[p vs] visit IH]; intros [[c a] i] Hacc; [exact Hacc|].
  cbn [fold_left]. apply IH. rewrite (filterStep_unfold c a i p vs).
  destruct vs as [|v0 vs0] eqn:E; [exact Hacc|]. rewrite <- E. cbn [fst snd] in *.
  apply Forall_app. split; [exact Hacc|]. constructor; [|constructor].
  intros lead post Hlead. apply Contains_propertyCondition; [subst; discriminate | exact Hlead].
Qed.

Lemma Contains_suffix_conditions (conds : list string) (post : string) :
  Forall (condition_free v) conds ->
  Contains (suffix_with " AND " conds post) v = Contains post v.
Proof.
  destruct quiet_literals as (Hand & _).
  induction 1 as [|c conds Hc _ IH]; [reflexivity|].
  unfold suffix_with. cbn [foldr]. fold (suffix_with " AND " conds post).
  now rewrite (Hc " AND " _ Hand).
Qed.

Lemma Contains_Join_conditions (conds : list string) (post : string) :
  Forall (condition_free v) conds ->
  Contains (Join conds " AND " +:+ post) v = Contains post v.
Proof.
  destruct quiet_literals as (_ & Hcall & _).
  intros H. destruct H as [|c conds Hc Hl]; [reflexivity|].
  rewrite Join_suffix. rewrite <- (Contains_suffix_conditions conds post Hl).
  exact (Hc "" _ Hcall).
Qed.

(** *** Triples *)

Lemma groupStep_transparent (acc : Acc) (gv : FilterGroup.t * Visit) :
  Forall (transparent v) acc.1.1 -> Forall (transparent v) (groupStep acc gv).1.1.
Proof.
  destruct acc as [[fcs allArgs] idx], gv as [g visit]. intros Hacc. unfold groupStep.
  pose proof (filter_conditions_free visit ([], [], idx) (Forall_nil_2 _)) as Hc.
  destruct (fold_left filterStep visit ([], [], idx)) as [[conds gargs] idx'].
  cbn [fst snd] in *. destruct quiet_literals as (_ & _ & _ & _ & Hcomma & Hone).
  pose proof quiet_nonempty as Hv.
  assert (Hopen : forall a b, Contains (a +:+ "(" +:+ b) v = Contains a v || Contains b v).
  { intros a b. apply Contains_skip; [exact Hv | discriminate | apply quiet_text; reflexivity]. }
  assert (Hhead : forall i j rest,
            Contains ("(" +:+ ph i +:+ ", " +:+ ph j +:+ ", " +:+ rest) v
            = Contains (", " +:+ rest) v).
  { intros i j rest.
    rewrite (Contains_skip_head v "(" _ Hv) by (discriminate || (apply quiet_text; reflexivity)).
    change (ph i +:+ ", " +:+ ph j +:+ ", " +:+ rest)
      with ("" +:+ ph i +:+ ", " +:+ ph j +:+ ", " +:+ rest).
    now rewrite !Contains_ph, (Contains_empty v Hv), Hcomma. }
  destruct (0 <? length conds)%nat; cbn [fst snd]; (apply Forall_app; split; [exact Hacc|]);
    (constructor; [|constructor]); intros post.
  - replace (("(" +:+ ph idx' +:+ ", " +:+ ph (idx' + 1) +:+ ", ("
               +:+ Join conds " AND " +:+ "))") +:+ post)
      with ("(" +:+ ph idx' +:+ ", " +:+ ph (idx' + 1) +:+ ", "
              +:+ ("(" +:+ Join conds " AND " +:+ "))" +:+ post))
      by (rewrite !append_assoc; reflexivity).
    rewrite Hhead, Hopen, Hcomma. cbn [orb].
    rewrite (Contains_Join_conditions conds _ Hc).
    apply Contains_skip_head; [exact Hv | discriminate | apply quiet_text; reflexivity].
  - replace (("(" +:+ ph idx' +:+ ", " +:+ ph (idx' + 1) +:+ ", 1)") +:+ post)
      with ("(" +:+ ph idx' +:+ ", " +:+ ph (idx' + 1) +:+ ", " +:+ ("1)" +:+ post))
      by (rewrite !append_assoc; reflexivity).
    rewrite Hhead.
    change (", " +:+ "1)" +:+ post) with (", 1" +:+ ")" +:+ post).
    rewrite (Contains_skip v ", 1" ")" post Hv) by (discriminate || (apply quiet_text; reflexivity)).
    now rewrite Hone.
Qed.

Lemma filterConditions_transparent (groups : list (FilterGroup.t * Visit)) :
  Forall (transparent v) (filterConditions groups).1.1.
Proof.
  unfold filterConditions.
  assert (H : forall acc, Forall (transparent v) acc.1.1 ->
                Forall (transparent v) (fold_left groupStep groups acc).1.1).
  { induction groups as [|gv groups IH]; intros acc Hacc; [exact Hacc|].
    cbn [fold_left]. apply IH. now apply groupStep_transparent. }
  apply H. constructor.
Qed.

Lemma Contains_Join_transparent (sep : string) (l : list string) (post : string) :
  sep <> "" -> avoids v sep = true -> Forall (transparent v) l ->
  Contains (Join l sep +:+ post) v = Contains post v.
Proof.
  intros Hs Ha H. pose proof quiet_nonempty as Hv.
  destruct H as [|t l Ht Hl]; [reflexivity|]. rewrite Join_suffix, Ht.
  induction Hl as [|t' l Ht' _ IH]; [reflexivity|].
  unfold suffix_with. cbn [foldr]. fold (suffix_with sep l post).
  now rewrite (Contains_skip_head v sep _ Hv Hs Ha), Ht'.
Qed.

(** The where clause between a head and what follows: an occurrence of
    [v] lies before the conditions of the filters or after them. *)
Lemma Contains_where (head : string) (scalar conds : list string) (post : string) :
  scalar <> [] -> last_outside v (Join scalar " AND ") = true ->
  Forall (condition_free v) conds ->
  Contains (head +:+ Join (scalar ++ conds) " AND " +:+ post) v
  = Contains (head +:+ Join scalar " AND ") v || Contains post v.
Proof.
  intros Hs Hl Hc. rewrite (Join_app_suffix scalar conds " AND " post Hs), <- append_assoc.
  rewrite (Contains_after v) by (first [apply quiet_nonempty | now apply last_outside_app]).
  now rewrite (Contains_suffix_conditions conds post Hc).
Qed.

End Quiet.

(** *** The text of a compiled statement *)

Lemma baseText_split (whereClause post : string) :
  baseText whereClause +:+ post = baseHead +:+ whereClause +:+ baseTail +:+ post.
Proof. unfold baseText, baseHead, baseTail. rewrite !append_assoc. reflexivity. Qed.

Lemma filterText_split (joined post : string) :
  filterText joined +:+ post = filterHead +:+ joined +:+ filterTail +:+ post.
Proof. unfold filterText, filterHead, filterTail. rewrite !append_assoc. reflexivity. Qed.

Lemma compile_text_form (ctx : Context) (params : UsageParams) (visit : Visit)
  (groups : list (FilterGroup.t * Visit)) (aggType : types.AggregationType)
  (propertyName : string) :
  (compile ctx params visit groups aggType propertyName).1
  = "WITH " +:+ baseText (Join (baseConditions ctx params visit).1.1 " AND ")
      +:+ groupsText groups +:+ nl
      +:+ Query (finalQuery (WithAggregation ctx aggType propertyName NewQueryBuilder)).
Proof.
  unfold compile, Build, WithAggregation, WithFilterGroups, WithBaseFilters, groupsText.
  destruct (baseConditions ctx params visit) as [[bc ba] bi].
  destruct (aggregationClause aggType propertyName) as [[ac aa] ai].
  destruct groups as [|g groups]; cbn [fst snd cteComponents finalQuery Query NewQueryBuilder app].
  - reflexivity.
  - destruct (filterConditions (g :: groups)) as [[fc fa] fi].
    cbn [fst snd cteComponents finalQuery Query app].
    assert (Hm : exists m ms, CQuery <$> matchedComponents = m :: ms)
      by (vm_compute; eauto).
    destruct Hm as (m & ms & Hm). rewrite !fmap_cons, Hm.
    change (Join (?a :: ?b :: m :: ms) ?sep) with (a +:+ sep +:+ b +:+ sep +:+ Join (m :: ms) sep).
    rewrite !append_assoc. reflexivity.
Qed.

(** *** The probes in a compiled statement *)

Lemma probes_quiet (v : string) : In v probes -> quiet v = true.
Proof.
  unfold probes. intros H. repeat (destruct H as [<-|H]; [vm_compute; reflexivity|]).
  destruct H.
Qed.

Ltac each_probe H :=
  unfold probes in H; repeat (destruct H as [<-|H]; [|]); [..|destruct H].

(** What follows the where clause of the base fragment holds none of the
    probes. *)
Lemma statement_tail_free (v : string) (ctx : Context)
  (groups : list (FilterGroup.t * Visit)) (aggType : types.AggregationType)
  (propertyName : string) :
  In v probes ->
  Contains (baseTail +:+ groupsText groups +:+ nl
              +:+ Query (finalQuery (WithAggregation ctx aggType propertyName NewQueryBuilder))) v
  = false.
Proof.
  intros Hv. pose proof (probes_quiet v Hv) as Hq.
  destruct groups as [|g groups].
  - destruct aggType; each_probe Hv; vm_compute; reflexivity.
  - unfold groupsText.
    set (J := Join (filterConditions (g :: groups)).1.1 ("," +:+ nl +:+ tabs 3 "")).
    set (F := Query (finalQuery (WithAggregation ctx aggType propertyName NewQueryBuilder))).
    set (M := Join (CQuery <$> matchedComponents) ("," +:+ nl)).
    replace (baseTail +:+ ("," +:+ nl +:+ filterText J +:+ "," +:+ nl +:+ M) +:+ nl +:+ F)
      with ((baseTail +:+ "," +:+ nl +:+ filterHead)
              +:+ J +:+ (filterTail +:+ "," +:+ nl +:+ M +:+ nl +:+ F))
      by (rewrite !append_assoc, filterText_split, ?append_assoc; reflexivity).
    rewrite (Contains_after v) by
      (first [apply (quiet_nonempty v Hq) | each_probe Hv; vm_compute; reflexivity]).
    subst J. rewrite (Contains_Join_transparent v Hq) by
      (first [discriminate | apply (quiet_text v Hq); reflexivity
             | apply filterConditions_transparent; exact Hq]).
    subst F M. destruct aggType; each_probe Hv; vm_compute; reflexivity.
Qed.

(** A probe occurs in a compiled statement, and in its base fragment,
    exactly when it occurs in the scalar conditions of the where clause:
    the conditions of the filters and all that follows the where clause
    hold none. *)
Lemma probe_in_scalar_conditions (v : string) (ctx : Context) (params : UsageParams)
  (visit : Visit) (groups : list (FilterGroup.t * Visit)) (aggType : types.AggregationType)
  (propertyName : string) :
  In v probes ->
  let scalar := Join (baseConditions ctx params []).1.1 " AND " in
  Contains (compile ctx params visit groups aggType propertyName).1 v
  = Contains ("WITH " +:+ baseHead +:+ scalar) v
  /\ Contains (baseText (Join (baseConditions ctx params visit).1.1 " AND ")) v
     = Contains ("WITH " +:+ baseHead +:+ scalar) v.
Proof.
  intros Hv. cbv zeta. pose proof (probes_quiet v Hv) as Hq.
  pose proof (quiet_nonempty v Hq) as Hne.
  pose proof (statement_tail_free v ctx groups aggType propertyName Hv) as Htail.
  assert (Hbt : Contains baseTail v = false) by (each_probe Hv; vm_compute; reflexivity).
  rewrite compile_text_form.
  rewrite <- (append_nil_r (baseText (Join (baseConditions ctx params visit).1.1 " AND "))) at 2.
  rewrite !baseText_split, append_nil_r, <- (append_assoc "WITH " baseHead).
  set (R := baseTail +:+ groupsText groups +:+ nl +:+ _) in *.
  unfold baseConditions, parseTimeConditionsWithIndex.
  destruct (String.eqb (GetTenantID ctx) ""), (String.eqb (GetEnvironmentID ctx) ""),
           (IsZero (StartTime params)), (IsZero (EndTime params)),
           (String.eqb (ExternalCustomerID params) ""), (String.eqb (CustomerID params) "");
    cbn [negb app fold_left fst snd]; rewrite fold_filterStep_app; cbn [fst snd];
    match goal with
    | |- context [fold_left filterStep visit ([], [], ?i)] =>
        pose proof (filter_conditions_free v Hq visit ([], [], i) (Forall_nil_2 _)) as Hc;
        set (vconds := (fold_left filterStep visit ([], [], i)).1.1) in *
    end;
    rewrite !(Contains_where v Hq) by
      (first [discriminate | exact Hc | each_probe Hv; vm_compute; reflexivity]);
    rewrite Htail, Hbt, !orb_false_r;
    (split; [now rewrite append_assoc | each_probe Hv; vm_compute; reflexivity]).
Qed.

(** The probes in the scalar conditions: one for every id and bound that
    is present. *)
Lemma scalar_probes (ctx : Context) (params : UsageParams) :
  let head := "WITH " +:+ baseHead +:+ Join (baseConditions ctx params []).1.1 " AND " in
  Contains head "tenant_id = " = negb (String.eqb (GetTenantID ctx) "")
  /\ Contains head "environment_id = " = negb (String.eqb (GetEnvironmentID ctx) "")
  /\ Contains head "timestamp >= " = negb (IsZero (StartTime params))
  /\ Contains head "timestamp < " = negb (IsZero (EndTime params)).
Proof.
  cbv zeta. unfold baseConditions, parseTimeConditionsWithIndex.
  destruct (String.eqb (GetTenantID ctx) ""), (String.eqb (GetEnvironmentID ctx) ""),
           (IsZero (StartTime params)), (IsZero (EndTime params)),
           (String.eqb (ExternalCustomerID params) ""), (String.eqb (CustomerID params) "");
    repeat split; vm_compute; reflexivity.
Qed.

(** *** The base fragment and its arguments in a compiled statement *)

Lemma WithBaseFilters_component (ctx : Context) (params : UsageParams) (visit : Visit)
  (qb : QueryBuilder) :
  cteComponents (WithBaseFilters ctx params visit qb)
  = cteComponents qb
      ++ [{| Name := "base_events";
             CQuery := baseText (Join (baseConditions ctx params visit).1.1 " AND ");
             CArgs := (baseConditions ctx params visit).1.2 |}].
Proof.
  unfold WithBaseFilters. now destruct (baseConditions ctx params visit) as [[c a] i].
Qed.

Lemma visitArgs_no_time (visit : Visit) : omap arg_time (visitArgs visit) = [].
Proof.
  unfold visitArgs. induction visit as [|[p vs] visit IH]; [reflexivity|].
  rewrite fmap_cons. cbn [concat]. rewrite omap_app, IH, app_nil_r.
  apply string_args_no_time. unfold entryArgs. cbn [fst snd].
  destruct vs as [|v0 [|v1 vs]]; repeat constructor.
  apply Forall_app. split; [|repeat constructor].
  apply Forall_fmap, Forall_forall. intros x _. exact I.
Qed.

Lemma groupArgs_no_time (groups : list (FilterGroup.t * Visit)) :
  omap arg_time (concat (groupArgs <$> groups)) = [].
Proof.
  induction groups as [|gv groups IH]; [reflexivity|].
  rewrite fmap_cons. cbn [concat]. rewrite omap_app, IH, app_nil_r.
  unfold groupArgs. rewrite omap_app, visitArgs_no_time. reflexivity.
Qed.

(** The arguments of a compiled statement start with those of the base
    fragment, and no time value follows them. *)
Lemma compile_args_base (ctx : Context) (params : UsageParams) (visit : Visit)
  (groups : list (FilterGroup.t * Visit)) (aggType : types.AggregationType)
  (propertyName : string) :
  exists rest : list Arg,
    (compile ctx params visit groups aggType propertyName).2
    = (baseConditions ctx params visit).1.2 ++ rest
    /\ omap arg_time rest = [].
Proof.
  rewrite compile_args. eexists. split; [reflexivity|].
  rewrite omap_app.
  assert (Ha : omap arg_time (aggregationClause aggType propertyName).1.2 = [])
    by (destruct aggType; reflexivity).
  rewrite Ha, app_nil_r. destruct groups as [|g groups]; [reflexivity|].
  rewrite (proj1 (filterConditions_layout (g :: groups))). apply groupArgs_no_time.
Qed.

(** *** The conditions of the time window and of the tenant *)

Lemma baseConditions_time_window (ctx : Context) (params : UsageParams) (visit : Visit) :
  let conditions := (baseConditions ctx params visit).1.1 in
  let args := (baseConditions ctx params visit).1.2 in
  let i := 2 + Nat.b2n (negb (String.eqb (GetTenantID ctx) ""))
             + Nat.b2n (negb (String.eqb (GetEnvironmentID ctx) "")) in
  let j := i + Nat.b2n (negb (IsZero (StartTime params))) in
  has_condition "timestamp >= " conditions = negb (IsZero (StartTime params))
  /\ has_condition "timestamp < " conditions = negb (IsZero (EndTime params))
  /\ (IsZero (StartTime params) = false ->
      In ("timestamp >= toDateTime64(" +:+ ph i +:+ ", 3)") conditions
      /\ args !! (i - 1) = Some (ArgTime (StartTime params)))
  /\ (IsZero (EndTime params) = false ->
      In ("timestamp < toDateTime64(" +:+ ph j +:+ ", 3)") conditions
      /\ args !! (j - 1) = Some (ArgTime (EndTime params)))
  /\ omap arg_time args
     = (if IsZero (StartTime params) then [] else [StartTime params])
       ++ (if IsZero (EndTime params) then [] else [EndTime params]).
Proof.
  cbv zeta. base_cases ctx params visit; base_goal.
Qed.

Lemma baseConditions_tenant_environment
  (ctx : Context) (params : UsageParams) (visit : Visit) :
  let conditions := (baseConditions ctx params visit).1.1 in
  let args := (baseConditions ctx params visit).1.2 in
  let k := 2 + Nat.b2n (negb (String.eqb (GetTenantID ctx) "")) in
  has_condition "tenant_id = " conditions = negb (String.eqb (GetTenantID ctx) "")
  /\ has_condition "environment_id = " conditions
     = negb (String.eqb (GetEnvironmentID ctx) "")
  /\ (String.eqb (GetTenantID ctx) "" = false ->
      In ("tenant_id = " +:+ ph 2) conditions
      /\ args !! 1 = Some (ArgString (GetTenantID ctx)))
  /\ (String.eqb (GetEnvironmentID ctx) "" = false ->
      In ("environment_id = " +:+ ph k) conditions
      /\ args !! (k - 1) = Some (ArgString (GetEnvironmentID ctx)))
  /\ In ("event_name = " +:+ ph 1) conditions
  /\ args !! 0 = Some (ArgString (EventName params)).
Proof.
  cbv zeta. base_cases ctx params visit; base_goal.
Qed.

(** *** The slots of a triple *)

(** A group with at least one filter that has a value: the placeholders of
    the identifier and the priority are numbered after those of its
    filters, and its arguments are appended before theirs. *)
Lemma groupStep_slots (fcs : list string) (allArgs : list Arg) (idx : nat)
  (g : FilterGroup.t) (visit : Visit) :
  visitArgs visit <> [] ->
  let n := length (visitArgs visit) in
  2 <= n
  /\ exists conds : list string,
       groupStep (fcs, allArgs, idx) (g, visit)
       = (fcs ++ ["(" +:+ ph (idx + n) +:+ ", " +:+ ph (idx + n + 1) +:+ ", ("
                    +:+ Join conds " AND " +:+ "))"],
          (allArgs ++ [ArgString (FilterGroup.ID g); ArgInt (FilterGroup.Priority g)])
            ++ visitArgs visit,
          idx + n + 2).
Proof.
  intros Hne. cbv zeta.
  destruct (fold_filterStep_layout visit idx) as [Ha Hl].
  destruct (fold_filterStep_ok idx visit _ (acc_ok_init idx)) as (nss & _ & _ & L & B).
  assert (Hu : filter usable visit <> []).
  { intros H. apply Hne. now apply visitArgs_nil. }
  assert (H2 : 2 <= length (visitArgs visit)).
  { clear -Hne. unfold visitArgs in *.
    induction visit as [|[p vs] visit IH]; [now contradiction Hne|].
    rewrite fmap_cons in *. cbn [concat] in *. rewrite length_app.
    unfold entryArgs at 1. cbn [fst snd]. destruct vs as [|v0 [|v1 vs]].
    - cbn [length]. apply IH. exact Hne.
    - cbn [length]. lia.
    - rewrite !length_app, length_fmap. cbn [length]. lia. }
  split; [exact H2|]. unfold groupStep.
  destruct (fold_left filterStep visit ([], [], idx)) as [[conds gargs] idx'].
  cbn [fst snd] in *. subst gargs. exists conds.
  assert (E : idx' = idx + length (visitArgs visit)) by lia. subst idx'.
  assert (Hpos : (0 <? length conds)%nat = true).
  { apply Nat.ltb_lt. rewrite Hl. destruct (filter usable visit); [congruence | simpl; lia]. }
  rewrite Hpos. reflexivity.
Qed.

End fragment_facts.

(** * The claims *)

Module claims.

Import types events builder builder_facts examples.
Import layout layout_facts occurrence fragment_facts.

(** C1, as stated, fails: numbering restarts at 1 in every fragment. With
    one filter group and a SUM aggregation the statement reads
    ?1 .. ?6 in [base_events], ?3 ?4 ?1 ?2 in [filter_matches] and ?1 in
    the final query, for 11 arguments. *)
Lemma C1_counterexample :
  placeholders (compile noContext apiCall regionVisit [(goldGroup, tierVisit)]
                  AggregationSum "amount").1 = [1; 2; 3; 4; 5; 6; 3; 4; 1; 2; 1]
  /\ ~ contiguous_numbering
        (compile noContext apiCall regionVisit [(goldGroup, tierVisit)]
           AggregationSum "amount").
Proof.
  split; [vm_compute; reflexivity|].
  unfold contiguous_numbering. vm_compute. discriminate.
Qed.

(** C1, amended: for every builder state reachable by any sequence of
    [WithBaseFilters], [WithFilterGroups] and [WithAggregation] calls, the
    statement returned by [Build] is made of fragments, one per CTE
    component and then the final query: the placeholders of the statement
    text are those of the fragment texts in order, the argument list is
    the concatenation of the fragments' argument lists, every fragment
    uses exactly the numbers 1..n once each for its n arguments (numbering
    restarts in every fragment), and the number of placeholders equals the
    number of arguments. *)
Theorem C1_placeholders_numbered_per_fragment (qb : QueryBuilder) :
  reachable qb ->
  let texts := (CQuery <$> cteComponents qb) ++ [Query (finalQuery qb)] in
  let argss := (CArgs <$> cteComponents qb) ++ [Args (finalQuery qb)] in
  placeholders (Build qb).1 = concat (placeholders <$> texts)
  /\ (Build qb).2 = concat argss
  /\ Forall2 (fun (text : string) (args : list Arg) =>
                placeholders text ≡ₚ seq 1 (length args)) texts argss
  /\ length (placeholders (Build qb).1) = length (Build qb).2.
Proof.
  intros H. cbv zeta.
  destruct (Build_fragments qb (reachable_ok qb H)) as (frags & T & S & P & A & N).
  split; [now rewrite <- T | split; [now rewrite <- S | split]].
  - apply (proj1 (Forall2_fmap_l placeholders
                     (fun (ns : list nat) (args : list Arg) => ns ≡ₚ seq 1 (length args))
                     _ _)).
    rewrite <- T, <- S. clear -N. induction N as [|f frags Hf _ IH]; [constructor|].
    rewrite !fmap_cons. now constructor.
  - rewrite P, A. now apply fragments_length.
Qed.

Lemma C1_witness :
  placeholders (compile noContext apiCall regionVisit [(goldGroup, tierVisit)]
                  AggregationSum "amount").1
    = concat (placeholders <$>
        ((CQuery <$> cteComponents
            (WithFilterGroups noContext [(goldGroup, tierVisit)]
               (WithBaseFilters noContext apiCall regionVisit NewQueryBuilder)))
         ++ [Query (finalQuery (WithAggregation noContext AggregationSum "amount"
                                  NewQueryBuilder))]))
  /\ length (placeholders (compile noContext apiCall regionVisit
                             [(goldGroup, tierVisit)] AggregationSum "amount").1)
     = length (compile noContext apiCall regionVisit [(goldGroup, tierVisit)]
                 AggregationSum "amount").2.
Proof.
  pose proof (C1_placeholders_numbered_per_fragment
                (WithAggregation noContext AggregationSum "amount"
                   (WithFilterGroups noContext [(goldGroup, tierVisit)]
                      (WithBaseFilters noContext apiCall regionVisit NewQueryBuilder)))
                (reach_aggregation _ _ _ _
                   (reach_groups _ _ _ (reach_base _ _ _ _ reach_new))))
    as (Hp & _ & _ & Hl).
  split; [exact Hp | exact Hl].
Defined.

(** C3: a property filter with a single allowed value compiles to an
    equality condition with exactly two placeholders (property name, then
    value); one with k > 1 values compiles to a set-membership condition
    with exactly 1 + k placeholders (property name, then one per value);
    each consumes as many arguments as it shows placeholders, and in both
    cases the condition text is the same whatever the property name and
    the values are: neither is part of the text. *)
Theorem C3_property_condition_placeholders
  (argIndex : nat) (property : string) (values : list string) :
  (forall v : string, values = [v] ->
     (propertyCondition argIndex property values).1.1
       = "JSONExtractString(properties, " +:+ ph argIndex +:+ ") = " +:+ ph (argIndex + 1)
     /\ (propertyCondition argIndex property values).1.2 = [ArgString property; ArgString v])
  /\ (1 < length values ->
      (propertyCondition argIndex property values).1.1
        = "JSONExtractString(properties, " +:+ ph argIndex +:+ ") IN ("
            +:+ Join ((fun j => ph (j + 1)) <$> seq argIndex (length values)) "," +:+ ")")
  /\ (values <> [] ->
      placeholders (propertyCondition argIndex property values).1.1
        = seq argIndex (1 + length values)
      /\ length (propertyCondition argIndex property values).1.2 = 1 + length values
      /\ (propertyCondition argIndex property values).2 = argIndex + (1 + length values))
  /\ (forall (property' : string) (values' : list string),
        length values' = length values ->
        (propertyCondition argIndex property' values').1.1
          = (propertyCondition argIndex property values).1.1).
Proof.
  split; [|split; [|split]].
  - intros v ->. now split.
  - intros H. destruct values as [|v0 [|v1 vs]]; simpl in H; try lia.
    cbn [propertyCondition fst]. now rewrite placeholder_list_imap.
  - intros Hne. destruct (propertyCondition_ok argIndex property values Hne) as ([He _] & Hl & Hi).
    repeat split; try assumption. now apply emits_placeholders.
  - intros property' values' Hl.
    destruct values as [|v0 [|v1 vs]], values' as [|w0 [|w1 ws]]; try discriminate;
      try reflexivity.
    cbn [propertyCondition fst]. rewrite !placeholder_list_imap. now rewrite Hl.
Qed.

Lemma C3_witness :
  ((propertyCondition 4 "tier" ["gold"]).1.1 = "JSONExtractString(properties, ?4) = ?5"
   /\ (propertyCondition 4 "tier" ["gold"]).1.2 = [ArgString "tier"; ArgString "gold"])
  /\ placeholders (propertyCondition 4 "region" ["us-east-1"; "us-west-1"]).1.1 = [4; 5; 6]
  /\ (propertyCondition 4 "zone" ["a"; "b"]).1.1
     = (propertyCondition 4 "region" ["us-east-1"; "us-west-1"]).1.1.
Proof.
  split; [|split].
  - exact (proj1 (C3_property_condition_placeholders 4 "tier" ["gold"]) "gold" eq_refl).
  - exact (proj1 (proj1 (proj2 (proj2
             (C3_property_condition_placeholders 4 "region" ["us-east-1"; "us-west-1"])))
             ltac:(discriminate))).
  - exact (proj2 (proj2 (proj2
             (C3_property_condition_placeholders 4 "region" ["us-east-1"; "us-west-1"])))
             "zone" ["a"; "b"] eq_refl).
Defined.

(** C2, as stated, fails: a value is not always found at the position its
    placeholder number names. With one filter group the group identifier
    "g1" is numbered ?3 inside [filter_matches], while the third argument
    of the statement is the end of the time window and "g1" is the
    seventh. *)
Lemma C2_counterexample :
  (filterConditions [(goldGroup, tierVisit)]).1.1
    = ["(?3, ?4, (JSONExtractString(properties, ?1) = ?2))"]
  /\ (compile noContext apiCall regionVisit [(goldGroup, tierVisit)]
        AggregationCount "").2 !! (3 - 1) = Some (ArgTime T1)
  /\ (compile noContext apiCall regionVisit [(goldGroup, tierVisit)]
        AggregationCount "").2 !! (7 - 1) = Some (ArgString "g1").
Proof. split; [|split]; vm_compute; reflexivity. Qed.

(** C2, amended: the statement text is a function of the shape of the
    input only: two compilations that agree on which optional parts are
    present and on the number of values of every visited filter emit the
    same text, whatever the event name, customer ids, tenant and
    environment ids, property names, filter values, group identifiers and
    priorities are; so no caller value is part of the text. Every such
    value is an element of the returned argument list, unchanged. The
    event name, the customer ids, and the property name and value of every
    single-valued filter of the query are at the position their
    placeholder number names (for multi-valued filters and for the values
    of filter groups position is not promised). *)
Theorem C2_values_bound_not_embedded
  (ctx : Context) (params : UsageParams) (visit : Visit)
  (groups : list (FilterGroup.t * Visit)) (aggType : types.AggregationType)
  (propertyName : string) :
  ranges (Filters params) visit ->
  Forall (fun gv : FilterGroup.t * Visit => ranges (FilterGroup.Filters gv.1) gv.2) groups ->
  let out := compile ctx params visit groups aggType propertyName in
  let conditions := (baseConditions ctx params visit).1.1 in
  let ke := 2 + Nat.b2n (negb (String.eqb (GetTenantID ctx) ""))
              + Nat.b2n (negb (String.eqb (GetEnvironmentID ctx) ""))
              + Nat.b2n (negb (IsZero (StartTime params)))
              + Nat.b2n (negb (IsZero (EndTime params))) in
  let kc := ke + Nat.b2n (negb (String.eqb (ExternalCustomerID params) "")) in
  (forall ctx' params' visit' groups' propertyName',
     same_shape_context ctx ctx' -> same_shape_params params params' ->
     same_shape_visit visit visit' -> same_shape_groups groups groups' ->
     (compile ctx' params' visit' groups' aggType propertyName').1 = out.1)
  /\ (In ("event_name = " +:+ ph 1) conditions
      /\ out.2 !! 0 = Some (ArgString (EventName params)))
  /\ (String.eqb (ExternalCustomerID params) "" = false ->
      In ("external_customer_id = " +:+ ph ke) conditions
      /\ out.2 !! (ke - 1) = Some (ArgString (ExternalCustomerID params)))
  /\ (String.eqb (CustomerID params) "" = false ->
      In ("customer_id = " +:+ ph kc) conditions
      /\ out.2 !! (kc - 1) = Some (ArgString (CustomerID params)))
  /\ (forall property v : string,
        Filters params !! property = Some [v] ->
        exists j : nat,
          1 <= j
          /\ In ("JSONExtractString(properties, " +:+ ph j +:+ ") = " +:+ ph (j + 1))
               conditions
          /\ out.2 !! (j - 1) = Some (ArgString property)
          /\ out.2 !! j = Some (ArgString v))
  /\ (forall (property : string) (values : list string),
        Filters params !! property = Some values -> values <> [] ->
        In (ArgString property) out.2
        /\ forall v : string, In v values -> In (ArgString v) out.2)
  /\ (forall (g : FilterGroup.t) (gv : Visit),
        In (g, gv) groups ->
        In (ArgString (FilterGroup.ID g)) out.2
        /\ forall (property : string) (values : list string),
             FilterGroup.Filters g !! property = Some values -> values <> [] ->
             In (ArgString property) out.2
             /\ forall v : string, In v values -> In (ArgString v) out.2).
Proof.
  intros Hr Hg. cbv zeta. split; [|split; [|split; [|split; [|split; [|split]]]]].
  - intros ctx' params' visit' groups' propertyName' Hc Hp Hv Hgs.
    symmetry. now apply compile_text.
  - rewrite compile_args. base_cases ctx params visit; base_goal.
  - rewrite compile_args. base_cases ctx params visit; base_goal.
  - rewrite compile_args. base_cases ctx params visit; base_goal.
  - intros property v Hm. rewrite compile_args.
    destruct (baseConditions_single ctx params visit property v (ranges_In _ _ _ _ Hr Hm))
      as (j & Hj & Hc & Hp & Hv).
    exists j. repeat split; try assumption; now apply lookup_app_l_Some.
  - intros property values Hm Hne. rewrite compile_args.
    destruct (baseConditions_binds ctx params visit property values
                (ranges_In _ _ _ _ Hr Hm) Hne) as [Hq Hv].
    split; [|intros v Hin]; apply in_or_app; left; auto.
  - intros g gv Hin. rewrite compile_args.
    destruct groups as [|g0 groups]; [destruct Hin|].
    destruct (fold_groupStep_binds (g0 :: groups) ([], [], 1)) as [Hb _].
    destruct (Hb g gv Hin) as (Hi & _ & Hv).
    split; [apply in_or_app; right; apply in_or_app; now left|].
    intros property values Hm Hne.
    rewrite Forall_forall in Hg. specialize (Hg (g, gv)). cbn [fst snd] in Hg.
    destruct (Hv property values (ranges_In _ _ _ _ (Hg ltac:(now apply list_elem_of_In)) Hm) Hne)
      as [Hq Hw].
    split; [|intros v Hv']; apply in_or_app; right; apply in_or_app; left; auto.
Qed.

Lemma regionVisit_ranges : ranges (Filters apiCall) regionVisit.
Proof.
  unfold ranges, apiCall, regionVisit. cbn [Filters]. now rewrite map_to_list_singleton.
Qed.

Lemma tierVisit_ranges : ranges (FilterGroup.Filters goldGroup) tierVisit.
Proof.
  unfold ranges, goldGroup, tierVisit. cbn [FilterGroup.Filters].
  now rewrite map_to_list_singleton.
Qed.

Lemma C2_witness :
  (compile noContext apiCall regionVisit [(goldGroup, tierVisit)] AggregationCount "").2 !! 0
    = Some (ArgString "api_call")
  /\ In (ArgString "region")
       (compile noContext apiCall regionVisit [(goldGroup, tierVisit)] AggregationCount "").2
  /\ In (ArgString "g1")
       (compile noContext apiCall regionVisit [(goldGroup, tierVisit)] AggregationCount "").2.
Proof.
  pose proof (C2_values_bound_not_embedded noContext apiCall regionVisit
                [(goldGroup, tierVisit)] AggregationCount "" regionVisit_ranges
                (Forall_cons_2 (fun gv : FilterGroup.t * Visit => ranges (FilterGroup.Filters gv.1) gv.2)
                   (goldGroup, tierVisit) [] tierVisit_ranges (Forall_nil_2 _)))
    as (_ & [_ Hev] & _ & _ & _ & Hf & Hg).
  split; [exact Hev | split].
  - exact (proj1 (Hf "region" ["us-east-1"; "us-west-1"] (lookup_singleton_eq _ _)
                    ltac:(discriminate))).
  - exact (proj1 (Hg goldGroup tierVisit (or_introl eq_refl))).
Defined.

(** C9: the filter loops range over Go maps, whose iteration order the
    language leaves unspecified (and the runtime randomizes). For the
    query below both visits are iterations of the same [Filters] map, and
    they compile to different texts and different argument lists: the
    output is not a function of the query, the groups and the context
    alone. *)
Theorem C9_range_order_changes_output :
  ranges (Filters twoFilters) endpointFirst
  /\ ranges (Filters twoFilters) methodFirst
  /\ (baseConditions noContext twoFilters endpointFirst).1.1
     = ["event_name = ?1"; "JSONExtractString(properties, ?2) IN (?3,?4)";
        "JSONExtractString(properties, ?5) = ?6"]
  /\ (baseConditions noContext twoFilters methodFirst).1.1
     = ["event_name = ?1"; "JSONExtractString(properties, ?2) = ?3";
        "JSONExtractString(properties, ?4) IN (?5,?6)"]
  /\ (compile noContext twoFilters endpointFirst [] AggregationCount "").2
     = [ArgString "api_call"; ArgString "/users"; ArgString "/orders";
        ArgString "endpoint"; ArgString "method"; ArgString "GET"]
  /\ (compile noContext twoFilters methodFirst [] AggregationCount "").2
     = [ArgString "api_call"; ArgString "method"; ArgString "GET";
        ArgString "/users"; ArgString "/orders"; ArgString "endpoint"]
  /\ (compile noContext twoFilters endpointFirst [] AggregationCount "").1
     <> (compile noContext twoFilters methodFirst [] AggregationCount "").1.
Proof.
  assert (Hm : map_to_list (Filters twoFilters) ≡ₚ methodFirst).
  { unfold twoFilters, methodFirst. cbn [Filters].
    rewrite map_to_list_insert by (vm_compute; reflexivity).
    now rewrite map_to_list_singleton. }
  split; [|split; [|split; [|split; [|split; [|split]]]]].
  - unfold ranges. etransitivity; [apply perm_swap | symmetry; exact Hm].
  - unfold ranges. symmetry. exact Hm.
  - vm_compute. reflexivity.
  - vm_compute. reflexivity.
  - vm_compute. reflexivity.
  - vm_compute. reflexivity.
  - vm_compute. discriminate.
Qed.

(** C4: the filter-group stage as the builder emits it. The templates ask
    for the maximum of (priority, identifier) among the matching triples,
    but the statement cannot select it. For every group with a filter
    that has a value, the placeholders of the identifier and the priority
    are numbered after those of the filters, while the identifier and the
    priority are appended before the arguments of the filters: the
    identifier is argument [idx] and its placeholder reads [idx + n], for
    the [n >= 2] arguments of the filters. In the scenario of two groups
    "g1" (priority 2) and "g2" (priority 1) on tier = gold, the first
    triple reads [(?3, ?4, (JSONExtractString(properties, ?1) = ?2))] over
    the arguments "g1", 2, "tier", "gold": its identifier slot names
    "tier" and its priority slot names "gold" (and, counted over the whole
    statement, the end of the time window and a filter value). The
    matched query has its header [matched_events AS (], the statement has
    lost it, though it still reads [FROM matched_events]. *)
Theorem C4_group_slots_misnumbered :
  let groups := [(goldGroup, tierVisit); (silverGroup, tierVisit)] in
  let qb := WithFilterGroups noContext groups
              (WithBaseFilters noContext apiCall regionVisit NewQueryBuilder) in
  let out := compile noContext apiCall regionVisit groups AggregationCount "" in
  (forall (fcs : list string) (allArgs : list Arg) (g : FilterGroup.t) (visit : Visit),
     visitArgs visit <> [] ->
     let idx := length allArgs + 1 in
     let n := length (visitArgs visit) in
     let step := groupStep (fcs, allArgs, idx) (g, visit) in
     2 <= n
     /\ (exists conds : list string,
           step.1.1 = fcs ++ ["(" +:+ ph (idx + n) +:+ ", " +:+ ph (idx + n + 1) +:+ ", ("
                                +:+ Join conds " AND " +:+ "))"])
     /\ step.1.2 !! (idx - 1) = Some (ArgString (FilterGroup.ID g))
     /\ step.1.2 !! idx = Some (ArgInt (FilterGroup.Priority g)))
  /\ ranges (FilterGroup.Filters goldGroup) tierVisit
  /\ ranges (FilterGroup.Filters silverGroup) tierVisit
  /\ (exists fragment : CTEComponent,
        cteComponents qb !! 1 = Some fragment
        /\ Name fragment = "filter_matches"
        /\ CArgs fragment
           = [ArgString "g1"; ArgInt 2; ArgString "tier"; ArgString "gold";
              ArgString "g2"; ArgInt 1; ArgString "tier"; ArgString "gold"]
        /\ placeholders (CQuery fragment) = [3; 4; 1; 2; 7; 8; 5; 6]
        /\ Contains (CQuery fragment)
             "[(?3, ?4, (JSONExtractString(properties, ?1) = ?2))," = true
        /\ CArgs fragment !! (3 - 1) = Some (ArgString "tier")
        /\ CArgs fragment !! (4 - 1) = Some (ArgString "gold"))
  /\ out.2 !! (3 - 1) = Some (ArgTime T1)
  /\ out.2 !! (4 - 1) = Some (ArgString "us-east-1")
  /\ out.2 !! 6 = Some (ArgString "g1")
  /\ Contains matchedQueryText "matched_events AS (" = true
  /\ Contains out.1 "matched_events AS (" = false
  /\ Contains out.1 "FROM matched_events" = true.
Proof.
  cbv zeta. split; [|split; [|split; [|split]]].
  - intros fcs allArgs g visit Hne.
    destruct (groupStep_slots fcs allArgs (length allArgs + 1) g visit Hne)
      as (Hn & conds & ->).
    cbn [fst snd]. split; [exact Hn | split; [now exists conds | split]].
    + rewrite <- !app_assoc, lookup_app_r by lia.
      replace (length allArgs + 1 - 1 - length allArgs) with 0 by lia. reflexivity.
    + rewrite <- !app_assoc, lookup_app_r by lia.
      replace (length allArgs + 1 - length allArgs) with 1 by lia. reflexivity.
  - exact tierVisit_ranges.
  - unfold ranges, silverGroup, tierVisit. cbn [FilterGroup.Filters].
    now rewrite map_to_list_singleton.
  - eexists. split; [vm_compute; reflexivity|]. cbn [Name CArgs CQuery].
    repeat split; vm_compute; reflexivity.
  - repeat split; vm_compute; reflexivity.
Qed.

(** C5, as stated, fails: [WithAggregation] validates nothing and has no
    way to report an error. SUM with an empty property name yields a final
    query that binds the empty string, and an unknown kind yields a final
    query with an empty aggregate expression. *)
Lemma C5_counterexample :
  Build (WithAggregation noContext AggregationSum "" NewQueryBuilder)
    = ("WITH " +:+ nl +:+
       "SELECT best_match_group as filter_group_id, "
       +:+ "SUM(CAST(JSONExtractString(properties, ?1) AS Float64))"
       +:+ " as value FROM best_matches GROUP BY best_match_group ORDER BY best_match_group",
       [ArgString ""])
  /\ Build (WithAggregation noContext (AggregationOther "MEDIAN") "" NewQueryBuilder)
    = ("WITH " +:+ nl +:+
       "SELECT best_match_group as filter_group_id, "
       +:+ " as value FROM best_matches GROUP BY best_match_group ORDER BY best_match_group",
       []).
Proof. split; vm_compute; reflexivity. Qed.

(** C5, amended: [WithAggregation] never fails and always sets a final
    query, for every aggregation kind and every property name, the empty
    one included; [Build] then returns a statement that ends with it.
    COUNT binds no argument; SUM, AVG and COUNT_UNIQUE bind the property
    name as given (also when it is empty) to the placeholder ?1; any
    other kind leaves the aggregate expression empty and binds nothing.
    The components built so far are left as they are. *)
Theorem C5_aggregation_without_validation
  (ctx : Context) (aggType : types.AggregationType) (propertyName : string)
  (qb : QueryBuilder) :
  let qb' := WithAggregation ctx aggType propertyName qb in
  let expression :=
    match aggType with
    | AggregationCount => "COUNT(*)"
    | AggregationSum => "SUM(CAST(JSONExtractString(properties, ?1) AS Float64))"
    | AggregationAvg => "AVG(CAST(JSONExtractString(properties, ?1) AS Float64))"
    | AggregationCountUnique => "COUNT(DISTINCT JSONExtractString(properties, ?1))"
    | AggregationOther _ => ""
    end in
  let bound :=
    match aggType with
    | AggregationSum | AggregationAvg | AggregationCountUnique => [ArgString propertyName]
    | AggregationCount | AggregationOther _ => []
    end in
  cteComponents qb' = cteComponents qb
  /\ finalQuery qb'
     = {| Query := "SELECT best_match_group as filter_group_id, " +:+ expression
                   +:+ " as value FROM best_matches GROUP BY best_match_group ORDER BY best_match_group";
          Args := bound |}
  /\ placeholders (Query (finalQuery qb')) = seq 1 (length bound)
  /\ Build qb'
     = ("WITH " +:+ Join (CQuery <$> cteComponents qb) ("," +:+ nl) +:+ nl
          +:+ Query (finalQuery qb'),
        concat (CArgs <$> cteComponents qb) ++ bound).
Proof.
  cbv zeta. destruct aggType; (split; [reflexivity | split; [reflexivity | split]]);
    solve [vm_compute; reflexivity | reflexivity].
Qed.

(** C6: the scenario query (event "api_call", filter region in
    {us-east-1, us-west-1}, window [T0, T1), COUNT, no filter groups, no
    tenant or environment in the context). The builder numbers the
    property name ?4 and the values ?5, ?6, but appends the values before
    the property name: the argument list ends
    "us-east-1", "us-west-1", "region" and is not the list the claim
    gives. The filter-group stage adds nothing (the only component is
    [base_events]), and the final query reads from [best_matches]. *)
Theorem C6_scenario_argument_order :
  ranges (Filters apiCall) regionVisit
  /\ (compile noContext apiCall regionVisit [] AggregationCount "").2
     = [ArgString "api_call"; ArgTime T0; ArgTime T1;
        ArgString "us-east-1"; ArgString "us-west-1"; ArgString "region"]
  /\ (compile noContext apiCall regionVisit [] AggregationCount "").2
     <> [ArgString "api_call"; ArgTime T0; ArgTime T1;
         ArgString "region"; ArgString "us-east-1"; ArgString "us-west-1"]
  /\ placeholders (compile noContext apiCall regionVisit [] AggregationCount "").1
     = [1; 2; 3; 4; 5; 6]
  /\ (baseConditions noContext apiCall regionVisit).1.1
     = ["event_name = ?1"; "timestamp >= toDateTime64(?2, 3)";
        "timestamp < toDateTime64(?3, 3)"; "JSONExtractString(properties, ?4) IN (?5,?6)"]
  /\ Name <$> cteComponents
        (WithFilterGroups noContext [] (WithBaseFilters noContext apiCall regionVisit
                                          NewQueryBuilder))
     = ["base_events"]
  /\ Query (finalQuery (WithAggregation noContext AggregationCount ""
                          (WithBaseFilters noContext apiCall regionVisit NewQueryBuilder)))
     = "SELECT best_match_group as filter_group_id, COUNT(*) as value FROM best_matches GROUP BY best_match_group ORDER BY best_match_group".
Proof.
  split; [|split; [|split; [|split; [|split; [|split]]]]].
  - exact regionVisit_ranges.
  - vm_compute. reflexivity.
  - vm_compute. discriminate.
  - vm_compute. reflexivity.
  - vm_compute. reflexivity.
  - vm_compute. reflexivity.
  - vm_compute. reflexivity.
Qed.

(** C8: the base fragment of a compiled statement is the component of
    [WithBaseFilters], the first text after [WITH], and its where clause
    is the conjunction of the base conditions. The fragment, and the whole
    statement, contain [timestamp >= ] exactly when the start time is set
    and [timestamp < ] exactly when the end time is set; the condition is
    [timestamp >= toDateTime64(?i, 3)], respectively
    [timestamp < toDateTime64(?j, 3)], and the argument of the statement at
    the position its placeholder names is the bound itself as a time
    value. The time values among the arguments of the statement are
    exactly the bounds that are set, in order: every other argument is a
    string or an integer. *)
Theorem C8_time_window_conditions (ctx : Context) (params : UsageParams) (visit : Visit)
  (groups : list (FilterGroup.t * Visit)) (aggType : types.AggregationType)
  (propertyName : string) :
  let out := compile ctx params visit groups aggType propertyName in
  let conditions := (baseConditions ctx params visit).1.1 in
  let fragment := baseText (Join conditions " AND ") in
  let i := 2 + Nat.b2n (negb (String.eqb (GetTenantID ctx) ""))
             + Nat.b2n (negb (String.eqb (GetEnvironmentID ctx) "")) in
  let j := i + Nat.b2n (negb (IsZero (StartTime params))) in
  cteComponents (WithBaseFilters ctx params visit NewQueryBuilder)
  = [{| Name := "base_events"; CQuery := fragment;
        CArgs := (baseConditions ctx params visit).1.2 |}]
  /\ (exists rest : string, out.1 = "WITH " +:+ fragment +:+ rest)
  /\ Contains fragment "timestamp >= " = negb (IsZero (StartTime params))
  /\ Contains fragment "timestamp < " = negb (IsZero (EndTime params))
  /\ Contains out.1 "timestamp >= " = negb (IsZero (StartTime params))
  /\ Contains out.1 "timestamp < " = negb (IsZero (EndTime params))
  /\ has_condition "timestamp >= " conditions = negb (IsZero (StartTime params))
  /\ has_condition "timestamp < " conditions = negb (IsZero (EndTime params))
  /\ (IsZero (StartTime params) = false ->
      In ("timestamp >= toDateTime64(" +:+ ph i +:+ ", 3)") conditions
      /\ out.2 !! (i - 1) = Some (ArgTime (StartTime params)))
  /\ (IsZero (EndTime params) = false ->
      In ("timestamp < toDateTime64(" +:+ ph j +:+ ", 3)") conditions
      /\ out.2 !! (j - 1) = Some (ArgTime (EndTime params)))
  /\ omap arg_time out.2
     = (if IsZero (StartTime params) then [] else [StartTime params])
       ++ (if IsZero (EndTime params) then [] else [EndTime params]).
Proof.
  cbv zeta.
  destruct (baseConditions_time_window ctx params visit) as (Hs & He & Hsa & Hea & Ht).
  destruct (compile_args_base ctx params visit groups aggType propertyName)
    as (rest & Hargs & Hrest).
  destruct (scalar_probes ctx params) as (_ & _ & Pge & Plt).
  destruct (probe_in_scalar_conditions "timestamp >= " ctx params visit groups aggType
              propertyName ltac:(vm_compute; tauto)) as [Tge Fge].
  destruct (probe_in_scalar_conditions "timestamp < " ctx params visit groups aggType
              propertyName ltac:(vm_compute; tauto)) as [Tlt Flt].
  cbv zeta in *.
  repeat match goal with |- _ /\ _ => split end.
  - apply (WithBaseFilters_component ctx params visit NewQueryBuilder).
  - eexists. apply compile_text_form.
  - now rewrite Fge.
  - now rewrite Flt.
  - now rewrite Tge.
  - now rewrite Tlt.
  - exact Hs.
  - exact He.
  - intros H. destruct (Hsa H) as [Hin Ha]. split; [exact Hin|].
    rewrite Hargs. now apply lookup_app_l_Some.
  - intros H. destruct (Hea H) as [Hin Ha]. split; [exact Hin|].
    rewrite Hargs. now apply lookup_app_l_Some.
  - now rewrite Hargs, omap_app, Hrest, app_nil_r.
Qed.

(** C10: the base fragment of a compiled statement is the component of
    [WithBaseFilters], the first text after [WITH], and its where clause
    is the conjunction of the base conditions. The fragment, and the whole
    statement, contain [tenant_id = ] exactly when the context yields a
    non-empty tenant id and [environment_id = ] exactly when it yields a
    non-empty environment id; the condition is [tenant_id = ?2],
    respectively [environment_id = ?k], bound to the id the context
    yields. With an empty id the statement has no such condition anywhere;
    the builder is a total function and the event-name condition is
    always there. *)
Theorem C10_tenant_environment_conditions
  (ctx : Context) (params : UsageParams) (visit : Visit)
  (groups : list (FilterGroup.t * Visit)) (aggType : types.AggregationType)
  (propertyName : string) :
  let out := compile ctx params visit groups aggType propertyName in
  let conditions := (baseConditions ctx params visit).1.1 in
  let fragment := baseText (Join conditions " AND ") in
  let k := 2 + Nat.b2n (negb (String.eqb (GetTenantID ctx) "")) in
  cteComponents (WithBaseFilters ctx params visit NewQueryBuilder)
  = [{| Name := "base_events"; CQuery := fragment;
        CArgs := (baseConditions ctx params visit).1.2 |}]
  /\ (exists rest : string, out.1 = "WITH " +:+ fragment +:+ rest)
  /\ Contains fragment "tenant_id = " = negb (String.eqb (GetTenantID ctx) "")
  /\ Contains fragment "environment_id = " = negb (String.eqb (GetEnvironmentID ctx) "")
  /\ Contains out.1 "tenant_id = " = negb (String.eqb (GetTenantID ctx) "")
  /\ Contains out.1 "environment_id = " = negb (String.eqb (GetEnvironmentID ctx) "")
  /\ has_condition "tenant_id = " conditions = negb (String.eqb (GetTenantID ctx) "")
  /\ has_condition "environment_id = " conditions
     = negb (String.eqb (GetEnvironmentID ctx) "")
  /\ (String.eqb (GetTenantID ctx) "" = false ->
      In ("tenant_id = " +:+ ph 2) conditions
      /\ out.2 !! 1 = Some (ArgString (GetTenantID ctx)))
  /\ (String.eqb (GetEnvironmentID ctx) "" = false ->
      In ("environment_id = " +:+ ph k) conditions
      /\ out.2 !! (k - 1) = Some (ArgString (GetEnvironmentID ctx)))
  /\ In ("event_name = " +:+ ph 1) conditions
  /\ out.2 !! 0 = Some (ArgString (EventName params)).
Proof.
  cbv zeta.
  destruct (baseConditions_tenant_environment ctx params visit)
    as (Ht & He & Hta & Hea & Hn & Hna).
  destruct (compile_args_base ctx params visit groups aggType propertyName)
    as (rest & Hargs & _).
  destruct (scalar_probes ctx params) as (Pt & Pe & _).
  destruct (probe_in_scalar_conditions "tenant_id = " ctx params visit groups aggType
              propertyName ltac:(vm_compute; tauto)) as [Tt Ft].
  destruct (probe_in_scalar_conditions "environment_id = " ctx params visit groups aggType
              propertyName ltac:(vm_compute; tauto)) as [Te Fe].
  cbv zeta in *.
  repeat match goal with |- _ /\ _ => split end.
  - apply (WithBaseFilters_component ctx params visit NewQueryBuilder).
  - eexists. apply compile_text_form.
  - now rewrite Ft.
  - now rewrite Fe.
  - now rewrite Tt.
  - now rewrite Te.
  - exact Ht.
  - exact He.
  - intros H. destruct (Hta H) as [Hin Ha]. split; [exact Hin|].
    rewrite Hargs. now apply lookup_app_l_Some.
  - intros H. destruct (Hea H) as [Hin Ha]. split; [exact Hin|].
    rewrite Hargs. now apply lookup_app_l_Some.
  - exact Hn.
  - rewrite Hargs. now apply lookup_app_l_Some.
Qed.

End claims.

(** * Further properties of the sources

    What the code shows besides the claims: the layout of the argument
    lists, how the builder's methods compose, the text of the statements,
    the earlier revision, the time format, the workflow input and the
    test fixtures. *)

Module coverage.

Import types events builder builder_facts examples.
Import layout layout_facts prev_numbering_facts.
Import gotime gotime_facts builder_test syntax syntax_facts.
Import occurrence occurrence_facts fragment_facts.

(** X1: [parseTimeConditionsWithIndex] returns one condition and one
    argument for every bound that is set, the start before the end, each
    bound as the time value itself; the index it returns is the index it
    was given plus the number of arguments, and the conditions are
    numbered consecutively from the index it was given. With neither
    bound set it returns nothing and leaves the index as it was. *)
Theorem time_conditions_contract (params : UsageParams) (startIndex : nat) :
  let out := parseTimeConditionsWithIndex params startIndex in
  out.1.2 = optionalTime (StartTime params) ++ optionalTime (EndTime params)
  /\ length out.1.1 = length out.1.2
  /\ out.2 = startIndex + length out.1.2
  /\ placeholders (Join out.1.1 " AND ") = seq startIndex (length out.1.2)
  /\ (IsZero (StartTime params) = true -> IsZero (EndTime params) = true ->
      out = ([], [], startIndex)).
Proof.
  cbv zeta.
  destruct (parseTimeConditionsWithIndex_ok params startIndex) as (nss & F & C & L & B).
  pose proof (emits_placeholders _ _
    (emits_Join _ _ " AND " eq_refl eq_refl ltac:(discriminate) F)) as Hp.
  rewrite Hp, C. clear nss F C L B Hp.
  unfold parseTimeConditionsWithIndex, optionalTime.
  destruct (IsZero (StartTime params)), (IsZero (EndTime params));
    cbn [negb fst snd app length];
    (split; [reflexivity | split; [reflexivity | split; [lia | split; [f_equal; lia|]]]]);
    intros; first [discriminate | reflexivity].
Qed.

(** X2: the arguments [WithBaseFilters] binds are, in this order: the
    event name (always, also when it is empty); the tenant id and the
    environment id of the context, each only when it is not empty; the
    start and the end of the window, each only when it is set; the
    external customer id and the customer id, each only when it is not
    empty; then, for every filter visited, nothing when it has no value,
    the property name and the value when it has one, and the values
    followed by the property name when it has several. The next free
    placeholder number is one more than the number of arguments, and
    there is one condition per scalar argument and per filter with at
    least one value. *)
Theorem base_arguments_layout (ctx : Context) (params : UsageParams) (visit : Visit) :
  (baseConditions ctx params visit).1.2 = baseArgs ctx params visit
  /\ (baseConditions ctx params visit).2 = 1 + length (baseArgs ctx params visit)
  /\ length (baseConditions ctx params visit).1.1
     = length (baseArgs ctx params []) + length (filter usable visit).
Proof. apply baseConditions_layout. Qed.

(** X3: the arguments [WithFilterGroups] binds are, group by group in the
    order given: the group identifier, the priority, then the arguments
    of the group's filters, laid out as in the base query. There is
    exactly one triple per group, also for a group without any usable
    filter, and the next free placeholder number is one more than the
    number of arguments. *)
Theorem group_arguments_layout (groups : list (FilterGroup.t * Visit)) :
  (filterConditions groups).1.2 = concat (groupArgs <$> groups)
  /\ (filterConditions groups).2 = 1 + length (concat (groupArgs <$> groups))
  /\ length (filterConditions groups).1.1 = length groups.
Proof. apply filterConditions_layout. Qed.

(** X4: a filter whose list of values is empty is skipped, in the query's
    filters and in those of every group: the builder is left in the same
    state as if the entry were not in the map. *)
Theorem empty_value_lists_skipped (ctx : Context) (params : UsageParams) (visit : Visit)
  (groups : list (FilterGroup.t * Visit)) (qb : QueryBuilder) :
  WithBaseFilters ctx params visit qb
  = WithBaseFilters ctx params (filter usable visit) qb
  /\ WithFilterGroups ctx groups qb
     = WithFilterGroups ctx
         ((fun gv : FilterGroup.t * Visit => (gv.1, filter usable gv.2)) <$> groups) qb.
Proof.
  split.
  - unfold WithBaseFilters. now rewrite (baseConditions_skip ctx params visit).
  - unfold WithFilterGroups. destruct groups as [|gv groups]; [reflexivity|].
    rewrite fmap_cons. unfold filterConditions.
    rewrite (fold_groupStep_skip (gv :: groups)). now rewrite fmap_cons.
Qed.

(** X5: the order in which Go ranges over the filter maps changes only
    the order of the arguments: two compilations of the same query and
    groups, whatever the iteration orders, bind the same arguments as
    often (the lists are permutations of each other), so as many of
    them, and have as many conditions in the base WHERE clause. *)
Theorem range_order_permutes_arguments (ctx : Context) (params : UsageParams)
  (visit visit' : Visit) (groups groups' : list (FilterGroup.t * Visit))
  (aggType : types.AggregationType) (propertyName : string) :
  ranges (Filters params) visit -> ranges (Filters params) visit' ->
  Forall2 (fun gv gv' : FilterGroup.t * Visit =>
             gv'.1 = gv.1
             /\ ranges (FilterGroup.Filters gv.1) gv.2
             /\ ranges (FilterGroup.Filters gv.1) gv'.2) groups groups' ->
  (compile ctx params visit groups aggType propertyName).2
    ≡ₚ (compile ctx params visit' groups' aggType propertyName).2
  /\ length (compile ctx params visit groups aggType propertyName).2
     = length (compile ctx params visit' groups' aggType propertyName).2
  /\ length (baseConditions ctx params visit).1.1
     = length (baseConditions ctx params visit').1.1.
Proof.
  intros Hv Hv' Hg.
  assert (Hvv : visit ≡ₚ visit') by (unfold ranges in *; now rewrite Hv, Hv').
  assert (Hp : (compile ctx params visit groups aggType propertyName).2
                 ≡ₚ (compile ctx params visit' groups' aggType propertyName).2).
  { rewrite !compile_args.
    destruct (baseConditions_layout ctx params visit) as [-> _].
    destruct (baseConditions_layout ctx params visit') as [-> _].
    apply Permutation_app.
    - unfold baseArgs. do 7 apply Permutation_app_head. now apply visitArgs_Permutation.
    - apply Permutation_app_tail.
      assert (HF : Forall2 (fun a b : FilterGroup.t * Visit => groupArgs a ≡ₚ groupArgs b)
                     groups groups').
      { eapply Forall2_impl; [exact Hg|].
        intros [g v] [g' v'] (E & R & R'). cbn [fst snd] in *. subst g'.
        unfold groupArgs. cbn [fst snd]. apply Permutation_app_head, visitArgs_Permutation.
        unfold ranges in *. now rewrite R, R'. }
      assert (HC : concat (groupArgs <$> groups) ≡ₚ concat (groupArgs <$> groups')).
      { clear -HF. induction HF as [|a b l l' Hab _ IH]; [reflexivity|].
        rewrite !fmap_cons. cbn [concat]. now apply Permutation_app. }
      destruct HF as [|gv gv' gs gs' _ _]; [reflexivity|].
      destruct (filterConditions_layout (gv :: gs)) as [-> _].
      destruct (filterConditions_layout (gv' :: gs')) as [-> _].
      exact HC. }
  split; [exact Hp | split; [now apply Permutation_length|]].
  destruct (baseConditions_layout ctx params visit) as (_ & _ & ->).
  destruct (baseConditions_layout ctx params visit') as (_ & _ & ->).
  f_equal. apply Permutation_length. unfold Visit in *. now apply filter_Permutation.
Qed.

Lemma range_order_permutes_arguments_witness :
  (compile noContext twoFilters endpointFirst [] AggregationCount "").2
    ≡ₚ (compile noContext twoFilters methodFirst [] AggregationCount "").2.
Proof.
  exact (proj1 (range_order_permutes_arguments noContext twoFilters endpointFirst methodFirst
                  [] [] AggregationCount ""
                  (proj1 (ranges_two "endpoint" "method" ["/users"; "/orders"] ["GET"]
                            ltac:(discriminate)))
                  (proj2 (ranges_two "endpoint" "method" ["/users"; "/orders"] ["GET"]
                            ltac:(discriminate)))
                  (@Forall2_nil_2 _ _ _))).
Defined.

(** X6: with at least one group, [WithFilterGroups] appends 14 components:
    [filter_matches], and the 13 pieces the matched query falls into when
    it is cut at every comma, named [matched_cte_0] to [matched_cte_12],
    without arguments and without placeholders. The pieces do not depend
    on the groups. The first piece has lost the header
    [matched_events AS (] of the matched query, which no piece carries;
    the cut also falls inside the [argMax] call and the [GROUP BY] list. *)
Theorem matched_query_components (ctx : Context) (groups : list (FilterGroup.t * Visit))
  (qb : QueryBuilder) :
  groups <> [] ->
  let qb' := WithFilterGroups ctx groups qb in
  cteComponents qb'
  = cteComponents qb
      ++ {| Name := "filter_matches"; CQuery := Query (filterQuery qb');
            CArgs := Args (filterQuery qb') |} :: matchedComponents
  /\ matchedQuery qb' = {| Query := matchedQueryText; Args := [] |}
  /\ Name <$> matchedComponents = (fun i => "matched_cte_" +:+ itoa i) <$> seq 0 13
  /\ Forall (fun c => CArgs c = [] /\ placeholders (CQuery c) = []) matchedComponents
  /\ CQuery <$> matchedComponents
     = [ nl +:+ tabs 2 "SELECT" +:+ nl +:+ tabs 3 "id";
         "timestamp";
         "properties";
         "arrayJoin(group_matches) as matched_group";
         "matched_group.1 as group_id";
         "matched_group.2 as total_filters";
         "matched_group.3 as matches" +:+ nl +:+ tabs 2 "FROM filter_matches" +:+ nl
           +:+ tabs 1 ")";
         "best_matches AS (" +:+ nl +:+ tabs 2 "SELECT" +:+ nl +:+ tabs 3 "id";
         "properties";
         "argMax(group_id";
         "(total_filters";
         "group_id)) as best_match_group" +:+ nl +:+ tabs 2 "FROM matched_events" +:+ nl
           +:+ tabs 2 "WHERE matches = 1" +:+ nl +:+ tabs 2 "GROUP BY id";
         "properties" +:+ nl +:+ tabs 1 ")" ]
  /\ Contains matchedQueryText "matched_events AS (" = true
  /\ Contains (Join (CQuery <$> matchedComponents) ("," +:+ nl)) "matched_events AS ("
     = false.
Proof.
  intros Hne. cbv zeta. unfold WithFilterGroups.
  destruct groups as [|g groups]; [congruence|].
  destruct (filterConditions (g :: groups)) as [[fc fa] fi].
  cbn [cteComponents filterQuery matchedQuery Query Args].
  split; [now rewrite <- app_assoc | split; [reflexivity|]].
  split; [vm_compute; reflexivity | split; [apply matchedComponents_plain|]].
  split; [vm_compute; reflexivity | split; vm_compute; reflexivity].
Qed.

Lemma matched_query_components_witness :
  length (cteComponents (WithFilterGroups noContext [(goldGroup, tierVisit)]
                           NewQueryBuilder)) = 14.
Proof.
  rewrite (proj1 (matched_query_components noContext [(goldGroup, tierVisit)]
                    NewQueryBuilder ltac:(discriminate))).
  reflexivity.
Defined.

(** X7: the builder's methods only ever append components. What a call
    appends depends on its arguments alone, not on the builder it is
    applied to: one component named [base_events] for [WithBaseFilters]
    (so a second call adds a second [base_events] next to the first),
    none or 14 for [WithFilterGroups], none for [WithAggregation]; the
    components already there are kept, in place, and [Build] binds the
    arguments of the components in that order, then those of the final
    query. *)
Theorem methods_append_components (ctx : Context) (params : UsageParams) (visit : Visit)
  (groups : list (FilterGroup.t * Visit)) (aggType : types.AggregationType)
  (propertyName : string) (qb : QueryBuilder) :
  cteComponents (WithBaseFilters ctx params visit qb)
  = cteComponents qb ++ cteComponents (WithBaseFilters ctx params visit NewQueryBuilder)
  /\ Name <$> cteComponents (WithBaseFilters ctx params visit NewQueryBuilder)
     = ["base_events"]
  /\ cteComponents (WithFilterGroups ctx groups qb)
     = cteComponents qb ++ cteComponents (WithFilterGroups ctx groups NewQueryBuilder)
  /\ length (cteComponents (WithFilterGroups ctx groups NewQueryBuilder))
     = (if decide (groups = []) then 0 else 14)
  /\ cteComponents (WithAggregation ctx aggType propertyName qb) = cteComponents qb
  /\ (Build (WithBaseFilters ctx params visit qb)).2
     = concat (CArgs <$> cteComponents qb)
         ++ (baseConditions ctx params visit).1.2 ++ Args (finalQuery qb).
Proof.
  unfold WithBaseFilters, WithFilterGroups, WithAggregation, Build.
  destruct (baseConditions ctx params visit) as [[c a] i].
  destruct (aggregationClause aggType propertyName) as [[ac aa] ai].
  split; [reflexivity | split; [reflexivity | split; [|split; [|split; [reflexivity|]]]]].
  - destruct groups as [|g groups]; [now rewrite app_nil_r|].
    destruct (filterConditions (g :: groups)) as [[fc fa] fi].
    cbn [cteComponents NewQueryBuilder app]. now rewrite <- app_assoc.
  - destruct groups as [|g groups]; [reflexivity|].
    destruct (filterConditions (g :: groups)) as [[fc fa] fi].
    cbn [cteComponents NewQueryBuilder app length]. rewrite decide_False by discriminate.
    reflexivity.
  - cbn [cteComponents finalQuery fst snd]. rewrite fmap_app, concat_app.
    cbn. now rewrite app_nil_r, <- app_assoc.
Qed.

(** X8: [WithAggregation] only sets the final query: a later call
    replaces an earlier one, the call commutes with [WithBaseFilters] and
    with [WithFilterGroups] (the aggregation may be chosen before or
    after the filters), and its context argument is not used. *)
Theorem aggregation_commutes (ctx ctx' : Context) (aggType aggType' : types.AggregationType)
  (propertyName propertyName' : string) (params : UsageParams) (visit : Visit)
  (groups : list (FilterGroup.t * Visit)) (qb : QueryBuilder) :
  WithAggregation ctx aggType propertyName (WithAggregation ctx' aggType' propertyName' qb)
  = WithAggregation ctx aggType propertyName qb
  /\ WithAggregation ctx aggType propertyName (WithBaseFilters ctx' params visit qb)
     = WithBaseFilters ctx' params visit (WithAggregation ctx aggType propertyName qb)
  /\ WithAggregation ctx aggType propertyName (WithFilterGroups ctx' groups qb)
     = WithFilterGroups ctx' groups (WithAggregation ctx aggType propertyName qb)
  /\ WithAggregation ctx aggType propertyName qb
     = WithAggregation ctx' aggType propertyName qb.
Proof.
  unfold WithAggregation.
  destruct (aggregationClause aggType propertyName) as [[ac aa] ai].
  destruct (aggregationClause aggType' propertyName') as [[ac' aa'] ai'].
  split; [reflexivity | split; [|split; [|reflexivity]]].
  - unfold WithBaseFilters. now destruct (baseConditions ctx' params visit) as [[c a] i].
  - unfold WithFilterGroups. destruct groups as [|g groups]; [reflexivity|].
    now destruct (filterConditions (g :: groups)) as [[c a] i].
Qed.

(** X9: whatever sequence of method calls built it, a statement never
    binds a zero time: every time value among the arguments returned by
    [Build] is a bound that is set. *)
Theorem bound_times_are_set (qb : QueryBuilder) :
  reachable qb -> Forall time_arg_set (Build qb).2.
Proof.
  intros H. destruct (reachable_times_set qb H) as [Hc Hf].
  unfold Build. cbn [snd]. apply Forall_app. split; [|exact Hf].
  clear -Hc. induction Hc as [|c l Hc' _ IH]; [constructor|].
  rewrite fmap_cons. cbn [concat]. apply Forall_app. now split.
Qed.

Lemma bound_times_are_set_witness :
  Forall time_arg_set
    (Build (WithBaseFilters noContext apiCall regionVisit NewQueryBuilder)).2.
Proof.
  exact (bound_times_are_set _ (reach_base noContext apiCall regionVisit _ reach_new)).
Defined.

(** X10: a group none of whose filters has a value (in particular a group
    without filters) is compiled to the triple with the constant [1] for
    its condition, numbered with the next two placeholders, and binds its
    identifier and its priority only. *)
Theorem catch_all_group (g : FilterGroup.t) (visit : Visit) (acc : Acc) :
  ranges (FilterGroup.Filters g) visit ->
  (forall (property : string) (values : list string),
     FilterGroup.Filters g !! property = Some values -> values = []) ->
  groupStep acc (g, visit)
  = (acc.1.1 ++ ["(" +:+ ph acc.2 +:+ ", " +:+ ph (acc.2 + 1) +:+ ", 1)"],
     acc.1.2 ++ [ArgString (FilterGroup.ID g); ArgInt (FilterGroup.Priority g)],
     acc.2 + 2).
Proof.
  intros Hr Hall.
  assert (Hv : Forall (fun e : string * list string => e.2 = []) visit).
  { apply Forall_forall. intros [p vs] Hin. cbn [snd]. apply (Hall p).
    apply elem_of_map_to_list. unfold ranges in Hr. now rewrite <- Hr. }
  destruct acc as [[fcs allArgs] idx]. unfold groupStep. cbn [fst snd].
  assert (Hf : fold_left filterStep visit ([], [], idx) = ([], [], idx)).
  { clear -Hv. induction Hv as [|[p vs] visit Hvs _ IH]; [reflexivity|].
    cbn [snd] in Hvs. subst vs. cbn [fold_left filterStep]. exact IH. }
  rewrite Hf. reflexivity.
Qed.

Lemma catch_all_group_witness :
  groupStep ([], [], 1) (otherGroup, [])
  = (["(?1, ?2, 1)"], [ArgString "other"; ArgInt 0], 3).
Proof.
  assert (Hr : ranges (FilterGroup.Filters otherGroup) []).
  { unfold ranges, otherGroup. cbn [FilterGroup.Filters]. now rewrite map_to_list_empty. }
  assert (Hall : forall (property : string) (values : list string),
            FilterGroup.Filters otherGroup !! property = Some values -> values = []).
  { intros property values H. unfold otherGroup in H. cbn [FilterGroup.Filters] in H.
    rewrite lookup_empty in H. discriminate H. }
  exact (catch_all_group otherGroup [] ([], [], 1) Hr Hall).
Defined.

(** X13: the earlier revision's [WithBaseFilters] binds the values only
    (property names are written into the text) and the time bounds as
    formatted strings behind a [?] without number. For property names
    without a question mark, the numbered placeholders of its WHERE
    clause are, in order, exactly the positions of the arguments other
    than the time bounds: 1 to k for the event name and the context ids,
    then, past the t positions of the bounds, k+t+1 up to the number of
    arguments. *)
Theorem prev_base_numbering (formatClickHouseDateTime : Time -> string)
  (ctx : Context) (params : UsageParams) (visit : Visit) :
  Forall (fun e : string * list string => no_qmark e.1 = true) visit ->
  let out := builder_prev.baseConditions formatClickHouseDateTime ctx params visit in
  let k := 1 + length (optionalArg (GetTenantID ctx) ++ optionalArg (GetEnvironmentID ctx)) in
  let t := length (prev_layout.optionalBound formatClickHouseDateTime (StartTime params)
                     ++ prev_layout.optionalBound formatClickHouseDateTime (EndTime params)) in
  out.1.2 = prev_layout.baseArgs formatClickHouseDateTime ctx params visit
  /\ out.2 = 1 + length out.1.2
  /\ placeholders (Join out.1.1 " AND ")
     = seq 1 k ++ seq (k + t + 1) (length out.1.2 - (k + t)).
Proof. apply prev_baseConditions_numbering. Qed.

Lemma prev_base_numbering_witness :
  placeholders (Join (builder_prev.baseConditions gotime.formatClickHouseDateTime noContext
                        apiCall regionVisit).1.1 " AND ")
  = [1; 4; 5].
Proof.
  exact (proj2 (proj2 (prev_base_numbering gotime.formatClickHouseDateTime noContext apiCall
                         regionVisit
                         (Forall_cons_2 (fun e : string * list string => no_qmark e.1 = true)
                            ("region", ["us-east-1"; "us-west-1"]) [] eq_refl
                            (Forall_nil_2 _))))).
Defined.

(** X14: the earlier revision's [WithFilterGroups] writes group
    identifiers and priorities into the text and binds the filter values
    only, group by group in visiting order. For identifiers and property
    names without a question mark, the placeholders of its triples read
    1, 2, ..., n in textual order for the n arguments; there is one
    triple per group. *)
Theorem prev_group_numbering (groups : list (FilterGroup.t * Visit)) :
  Forall prev_layout.plain_group groups ->
  let out := fold_left builder_prev.groupStep groups ([], [], 1) in
  out.1.2 = concat ((fun gv : FilterGroup.t * Visit => prev_layout.visitValues gv.2) <$> groups)
  /\ out.2 = 1 + length out.1.2
  /\ length out.1.1 = length groups
  /\ placeholders (Join out.1.1 ("," +:+ nl +:+ tabs 3 "")) = seq 1 (length out.1.2).
Proof.
  intros Hg. cbv zeta.
  destruct (prev_fold_groupStep groups ([], [], 1) Hg (acc_ok_init 1))
    as ((nss & F & C & L & B) & Ha & Hl).
  cbn [fst snd app length] in *.
  split; [exact Ha | split; [lia | split; [exact Hl|]]].
  rewrite (emits_placeholders _ _
    (emits_Join _ _ ("," +:+ nl +:+ tabs 3 "") eq_refl eq_refl ltac:(discriminate) F)).
  now rewrite C, L.
Qed.

Lemma prev_group_numbering_witness :
  (fold_left builder_prev.groupStep [(goldGroup, tierVisit)] ([], [], 1)).1.2
  = [ArgString "gold"].
Proof.
  refine (proj1 (prev_group_numbering [(goldGroup, tierVisit)] _)).
  apply Forall_cons_2; [|apply Forall_nil_2].
  split; [reflexivity|]. apply Forall_cons_2; [reflexivity | apply Forall_nil_2].
Defined.

(** X15: the earlier revision's [Build] wraps every component in
    [name AS (...)], binding the same arguments as the current one. The
    text of the base component already carries its header, so that a
    statement of the earlier revision begins
    [WITH base_events AS (base_events AS (]; the current [Build] joins
    the component texts as they are. *)
Theorem prev_build_wraps_components (formatClickHouseDateTime : Time -> string)
  (ctx : Context) (params : UsageParams) (visit : Visit) (qb : QueryBuilder) :
  (builder_prev.Build qb).2 = (Build qb).2
  /\ (builder_prev.Build qb).1
     = "WITH " +:+ Join ((fun c => Name c +:+ " AS (" +:+ CQuery c +:+ ")")
                           <$> cteComponents qb) ("," +:+ nl)
         +:+ nl +:+ Query (finalQuery qb)
  /\ HasPrefix (builder_prev.Build
                  (builder_prev.WithBaseFilters formatClickHouseDateTime ctx params visit
                     NewQueryBuilder)).1
       "WITH base_events AS (base_events AS (" = true
  /\ HasPrefix (Build (WithBaseFilters ctx params visit NewQueryBuilder)).1
       "WITH base_events AS (base_events AS (" = false.
Proof.
  split; [reflexivity | split; [reflexivity | split]].
  - unfold builder_prev.WithBaseFilters.
    destruct (builder_prev.baseConditions formatClickHouseDateTime ctx params visit)
      as [[c a] i].
    reflexivity.
  - unfold WithBaseFilters. destruct (baseConditions ctx params visit) as [[c a] i].
    reflexivity.
Qed.

(** X16: [formatClickHouseDateTime] renders every instant of the years 1
    to 9999 as 23 characters of the form [dddd-dd-dd dd:dd:dd.ddd]
    (digits, the two dashes, the space, the two colons and the dot): the
    result has no quote, semicolon or comment characters. *)
Theorem format_shape (t : Time) :
  year_range t -> matches_classes datetime_pattern (formatClickHouseDateTime t) = true.
Proof. apply format_matches_pattern. Qed.

Lemma format_shape_witness :
  matches_classes datetime_pattern (formatClickHouseDateTime christmas) = true
  /\ formatClickHouseDateTime christmas = "2024-12-25 14:30:45.123".
Proof.
  split; [|vm_compute; reflexivity].
  apply format_shape. unfold year_range, christmas. cbn. lia.
Defined.

(** X17: [formatClickHouseDateTime] cuts the instant to milliseconds: two
    instants of the same second whose nanoseconds fall into the same
    millisecond are rendered alike. *)
Theorem format_drops_submillisecond (s n n' : Z) :
  (0 <= n < 1000000000)%Z -> (0 <= n' < 1000000000)%Z ->
  (n / 1000000 = n' / 1000000)%Z ->
  formatClickHouseDateTime {| sec := s; nsec := n |}
  = formatClickHouseDateTime {| sec := s; nsec := n' |}.
Proof.
  intros Hn Hn' E. unfold formatClickHouseDateTime. cbn [sec nsec]. cbv zeta.
  destruct (absDate _) as [year yday]. destruct (monthDay _ _) as [month day].
  rewrite !appendNano3_digits by assumption. now rewrite E.
Qed.

Lemma format_drops_submillisecond_witness :
  formatClickHouseDateTime {| sec := 63870733845; nsec := 123456789 |}
  = formatClickHouseDateTime {| sec := 63870733845; nsec := 123000000 |}.
Proof.
  apply format_drops_submillisecond; [lia | lia | reflexivity].
Defined.

(** X18: the earlier revision's [parseTimeConditions] returns as many
    conditions as arguments, one for every bound that is set; no
    condition has a numbered placeholder; and for bounds of the years 1
    to 9999 every argument is a string of the form
    [dddd-dd-dd dd:dd:dd.ddd]. *)
Theorem prev_time_bounds_shaped (params : UsageParams) :
  (IsZero (StartTime params) = false -> year_range (StartTime params)) ->
  (IsZero (EndTime params) = false -> year_range (EndTime params)) ->
  let out := builder_prev.parseTimeConditions formatClickHouseDateTime params in
  length out.1 = length out.2
  /\ length out.2 = Nat.b2n (negb (IsZero (StartTime params)))
                    + Nat.b2n (negb (IsZero (EndTime params)))
  /\ Forall (fun c : string => placeholders c = []) out.1
  /\ Forall (fun a : Arg => exists s : string,
               a = ArgString s /\ matches_classes datetime_pattern s = true) out.2.
Proof.
  intros Hs He. cbv zeta. unfold builder_prev.parseTimeConditions.
  destruct (IsZero (StartTime params)), (IsZero (EndTime params));
    cbn [negb fst snd app length Nat.b2n];
    (split; [reflexivity | split; [reflexivity | split]]);
    repeat (constructor; try reflexivity);
    eexists; (split; [reflexivity|]); apply format_matches_pattern; auto.
Qed.

Lemma prev_time_bounds_shaped_witness :
  (builder_prev.parseTimeConditions formatClickHouseDateTime apiCall).2
  = [ArgString "2024-01-01 00:00:00.000"; ArgString "2024-01-31 23:59:59.000"]
  /\ length (builder_prev.parseTimeConditions formatClickHouseDateTime apiCall).1
     = length (builder_prev.parseTimeConditions formatClickHouseDateTime apiCall).2.
Proof.
  split; [vm_compute; reflexivity|].
  exact (proj1 (prev_time_bounds_shaped apiCall (fun _ => T0_year_range)
                  (fun _ => T1_year_range))).
Defined.

(** X19: [Validate] accepts an input exactly when its plan, tenant,
    environment and user ids are all non-empty. An empty plan id is
    reported first, whatever the other fields are, as the validation
    error "plan ID is required"; otherwise an empty tenant, environment
    or user id is reported as the validation error "tenant ID,
    environment ID and user ID are required", whose hint names the tenant
    and the environment id only. *)
Theorem validate_accepts_iff_complete (p : models.PriceSyncWorkflowInput) :
  (models.Validate p = None
   <-> models.PlanID p <> "" /\ models.TenantID p <> "" /\ models.EnvironmentID p <> ""
       /\ models.UserID p <> "")
  /\ (models.PlanID p = "" ->
      models.Validate p
      = Some {| ierr.message := "plan ID is required";
                ierr.hint := "Plan ID is required";
                ierr.marked := Some ierr.ErrValidation |})
  /\ (models.PlanID p <> "" ->
      models.TenantID p = "" \/ models.EnvironmentID p = "" \/ models.UserID p = "" ->
      models.Validate p
      = Some {| ierr.message := "tenant ID, environment ID and user ID are required";
                ierr.hint := "Tenant ID and environment ID are required";
                ierr.marked := Some ierr.ErrValidation |}).
Proof.
  unfold models.Validate.
  destruct (String.eqb_spec (models.PlanID p) "") as [Ep|Ep],
           (String.eqb_spec (models.TenantID p) "") as [Et|Et],
           (String.eqb_spec (models.EnvironmentID p) "") as [Ee|Ee],
           (String.eqb_spec (models.UserID p) "") as [Eu|Eu]; cbn [orb];
    (split; [split; [intros H; try discriminate H; tauto
                    | intros (? & ? & ? & ?); congruence]|]);
    (split; [intros H; first [reflexivity | congruence]
            | intros H [H'|[H'|H']]; first [reflexivity | congruence]]).
Qed.

(** X20: the fixtures of the test suite. [createTestContext] gives a
    context whose tenant and environment lookups return the ids passed,
    the empty ones included (an empty id is not set at all). The filter
    map of [createTestUsageParams] has a single entry, so it is visited
    in one order only, and [WithBaseFilters] binds for the two fixtures:
    the event name, the non-empty ids, the bounds that are set, the two
    customer ids, the two regions and then the property name. *)
Theorem test_fixtures (tenantID environmentID eventName : string)
  (startTime endTime : Time) (visit : Visit) :
  GetTenantID (createTestContext tenantID environmentID) = tenantID
  /\ GetEnvironmentID (createTestContext tenantID environmentID) = environmentID
  /\ (ranges (Filters (createTestUsageParams eventName startTime endTime)) visit ->
      visit = [("region", ["us-west-1"; "us-east-1"])]
      /\ (baseConditions (createTestContext tenantID environmentID)
            (createTestUsageParams eventName startTime endTime) visit).1.2
         = [ArgString eventName] ++ optionalArg tenantID ++ optionalArg environmentID
             ++ optionalTime startTime ++ optionalTime endTime
             ++ [ArgString "test_customer"; ArgString "cust_123"; ArgString "us-west-1";
                 ArgString "us-east-1"; ArgString "region"]).
Proof.
  assert (Ht : GetTenantID (createTestContext tenantID environmentID) = tenantID).
  { unfold createTestContext. destruct (String.eqb_spec tenantID "") as [->|_],
      (String.eqb_spec environmentID "") as [->|_]; reflexivity. }
  assert (He : GetEnvironmentID (createTestContext tenantID environmentID) = environmentID).
  { unfold createTestContext. destruct (String.eqb_spec tenantID "") as [->|_],
      (String.eqb_spec environmentID "") as [->|_]; reflexivity. }
  split; [exact Ht | split; [exact He|]]. intros Hr.
  apply ranges_singleton in Hr. split; [exact Hr|]. subst visit.
  destruct (baseConditions_layout (createTestContext tenantID environmentID)
              (createTestUsageParams eventName startTime endTime)
              [("region", ["us-west-1"; "us-east-1"])]) as [-> _].
  unfold baseArgs. rewrite Ht, He. reflexivity.
Qed.

(** X21: the number of arguments of a compiled statement: one for the
    event name, one for each of the tenant id, environment id, start,
    end, external customer id and customer id that is present, one more
    than its number of values for every filter of the query that has a
    value, two for every filter group and again one more than its number
    of values for every filter of a group that has a value, and one for
    the property name of a SUM, AVG or COUNT_UNIQUE aggregation. *)
Theorem compile_argument_count (ctx : Context) (params : UsageParams) (visit : Visit)
  (groups : list (FilterGroup.t * Visit)) (aggType : types.AggregationType)
  (propertyName : string) :
  length (compile ctx params visit groups aggType propertyName).2
  = 1 + Nat.b2n (negb (String.eqb (GetTenantID ctx) ""))
      + Nat.b2n (negb (String.eqb (GetEnvironmentID ctx) ""))
      + Nat.b2n (negb (IsZero (StartTime params)))
      + Nat.b2n (negb (IsZero (EndTime params)))
      + Nat.b2n (negb (String.eqb (ExternalCustomerID params) ""))
      + Nat.b2n (negb (String.eqb (CustomerID params) ""))
      + sum_list (entryCount <$> visit)
      + sum_list ((fun gv : FilterGroup.t * Visit => 2 + sum_list (entryCount <$> gv.2))
                    <$> groups)
      + aggregationCount aggType.
Proof.
  rewrite compile_args, !length_app.
  destruct (baseConditions_layout ctx params visit) as [-> _].
  assert (Hg : length (match groups with [] => [] | _ => (filterConditions groups).1.2 end)
               = sum_list ((fun gv : FilterGroup.t * Visit =>
                              2 + sum_list (entryCount <$> gv.2)) <$> groups)).
  { destruct groups as [|g groups]; [reflexivity|].
    destruct (filterConditions_layout (g :: groups)) as [-> _]. apply groupArgs_length. }
  rewrite Hg.
  assert (Ha : length (aggregationClause aggType propertyName).1.2 = aggregationCount aggType)
    by now destruct aggType.
  rewrite Ha. unfold baseArgs, optionalArg, optionalTime.
  rewrite !length_app, visitArgs_length.
  destruct (String.eqb (GetTenantID ctx) ""), (String.eqb (GetEnvironmentID ctx) ""),
           (IsZero (StartTime params)), (IsZero (EndTime params)),
           (String.eqb (ExternalCustomerID params) ""), (String.eqb (CustomerID params) "");
    cbn [negb Nat.b2n length]; lia.
Qed.

(** X22: whatever the inputs and whatever sequence of method calls built
    it, the statement text returned by [Build] has no double quote, hash,
    single quote, slash, semicolon, backslash or backquote; so no string
    that has one of these characters occurs in it. Every injection vector
    of the test suite has one. *)
Theorem statement_free_of_quoting (qb : QueryBuilder) :
  reachable qb ->
  weight quoting (Build qb).1 = 0%Z
  /\ (forall v : string, (0 < weight quoting v)%Z -> Contains (Build qb).1 v = false)
  /\ Forall (fun v => (0 < weight quoting v)%Z) sqlInjectionVectors.
Proof.
  intros H. destruct (reachable_free_of_quoting qb H) as [Hc Hf].
  assert (Hz : weight quoting (Build qb).1 = 0%Z).
  { rewrite Build_weight by now left. rewrite Hf, total_neutral; [reflexivity|].
    apply Forall_fmap. exact Hc. }
  split; [exact Hz | split].
  - intros v Hv. destruct (Contains (Build qb).1 v) eqn:E; [|reflexivity].
    apply Contains_quoting in E. lia.
  - repeat (constructor; [vm_compute; reflexivity|]). constructor.
Qed.

Lemma statement_free_of_quoting_witness :
  Contains (compile noContext apiCall regionVisit [(goldGroup, tierVisit)]
              AggregationSum "amount").1 "' OR 1=1; --" = false.
Proof.
  exact (proj1 (proj2 (statement_free_of_quoting _
                         (reach_aggregation noContext AggregationSum "amount" _
                            (reach_groups noContext [(goldGroup, tierVisit)] _
                               (reach_base noContext apiCall regionVisit _ reach_new)))))
           "' OR 1=1; --" ltac:(vm_compute; reflexivity)).
Defined.

(** X23: the parentheses of a compiled statement. Without filter groups
    the text closes as many parentheses as it opens. With at least one
    filter group it closes one more than it opens, whatever the inputs:
    the pieces of the matched query are joined without the header
    [matched_events AS (] that opened the first of them. *)
Theorem parentheses_of_statement (ctx : Context) (params : UsageParams) (visit : Visit)
  (groups : list (FilterGroup.t * Visit)) (aggType : types.AggregationType)
  (propertyName : string) :
  count_char ")" (compile ctx params visit groups aggType propertyName).1
  = count_char "(" (compile ctx params visit groups aggType propertyName).1
    + (if decide (groups = []) then 0 else 1).
Proof.
  assert (K : known_weight paren_excess) by now right.
  assert (H : weight paren_excess (compile ctx params visit groups aggType propertyName).1
              = (if decide (groups = []) then 0 else 1)%Z).
  { unfold compile. rewrite Build_weight by exact K.
    rewrite final_query_neutral by exact K.
    pose proof (base_component_neutral paren_excess ctx params visit K) as Hb.
    assert (Ec : cteComponents (WithAggregation ctx aggType propertyName
                   (WithFilterGroups ctx groups (WithBaseFilters ctx params visit NewQueryBuilder)))
                 = cteComponents (WithFilterGroups ctx groups
                     (WithBaseFilters ctx params visit NewQueryBuilder))).
    { unfold WithAggregation. now destruct (aggregationClause aggType propertyName) as [[? ?] ?]. }
    rewrite Ec. unfold WithFilterGroups, WithBaseFilters.
    destruct (baseConditions ctx params visit) as [[c a] i]. cbn [fst snd] in Hb.
    destruct groups as [|g groups].
    - rewrite decide_True by reflexivity.
      cbn [cteComponents NewQueryBuilder app fmap list_fmap CQuery].
      unfold total. cbn [fmap list_fmap foldr]. lia.
    - rewrite decide_False by discriminate.
      pose proof (filter_component_neutral paren_excess (g :: groups) K) as Hf.
      destruct (filterConditions (g :: groups)) as [[fc fa] fi]. cbn [fst snd] in Hf.
      cbn [cteComponents NewQueryBuilder app]. rewrite !fmap_cons, !total_cons.
      rewrite (proj2 matched_components_weight). cbn [CQuery]. lia. }
  rewrite paren_excess_counts in H. destruct (decide (groups = [])); lia.
Qed.

(** X24: the earlier revision writes names into the text. Every filter
    property that has values appears verbatim, between the quotes of its
    [JSONExtractString] call, in the built statement, and so does the ID of
    every filter group, with its priority, at the head of its tuple. *)
Theorem prev_names_in_text (formatClickHouseDateTime : Time -> string) (ctx : Context)
  (params : UsageParams) (visit : Visit) (groups : list (FilterGroup.t * Visit))
  (aggType : types.AggregationType) (propertyName : string) :
  let text := (builder_prev.compile formatClickHouseDateTime ctx params visit groups
                 aggType propertyName).1 in
  (forall (property : string) (values : list string),
     In (property, values) visit -> values <> [] ->
     Contains text ("JSONExtractString(properties, '" +:+ property +:+ "')") = true)
  /\ (forall (g : FilterGroup.t) (v : Visit),
        In (g, v) groups ->
        Contains text ("('" +:+ FilterGroup.ID g +:+ "', " +:+ itoaZ (FilterGroup.Priority g)
                         +:+ ", ") = true).
Proof.
  cbv zeta. unfold builder_prev.compile. split.
  - intros property values Hin Hne. apply occurs_Contains.
    pose proof (prev_base_names formatClickHouseDateTime ctx params visit property values Hin Hne)
      as Ho.
    apply (prev_Build_occurs _
             {| Name := "base_events";
                CQuery := baseText (Join (builder_prev.baseConditions formatClickHouseDateTime
                                            ctx params visit).1.1 " AND ");
                CArgs := (builder_prev.baseConditions formatClickHouseDateTime
                            ctx params visit).1.2 |});
      [|apply occurs_baseText, Ho].
    unfold WithAggregation, builder_prev.WithFilterGroups, builder_prev.WithBaseFilters.
    destruct (aggregationClause aggType propertyName) as [[ac aa] ai].
    destruct (builder_prev.baseConditions formatClickHouseDateTime ctx params visit)
      as [[c a] i].
    destruct groups as [|g groups]; cbn [cteComponents NewQueryBuilder app fst snd].
    + left. reflexivity.
    + destruct (fold_left builder_prev.groupStep (g :: groups) ([], [], 1)) as [[fc fa] fi].
      cbn [cteComponents app]. left. reflexivity.
  - intros g v Hin. apply occurs_Contains.
    destruct groups as [|g0 groups]; [destruct Hin|].
    destruct (prev_group_names (g0 :: groups) ([], [], 1) g v Hin) as (c & Hc & Ho).
    apply (prev_Build_occurs _
             {| Name := "filter_matches";
                CQuery := filterText
                            (Join (fold_left builder_prev.groupStep (g0 :: groups) ([], [], 1)).1.1
                               ("," +:+ nl +:+ tabs 3 ""));
                CArgs := (fold_left builder_prev.groupStep (g0 :: groups) ([], [], 1)).1.2 |});
      [|apply occurs_filterText; eapply occurs_trans; [exact Ho|apply occurs_Join, Hc]].
    unfold WithAggregation, builder_prev.WithFilterGroups, builder_prev.WithBaseFilters.
    destruct (aggregationClause aggType propertyName) as [[ac aa] ai].
    destruct (builder_prev.baseConditions formatClickHouseDateTime ctx params visit)
      as [[bc ba] bi].
    destruct (fold_left builder_prev.groupStep (g0 :: groups) ([], [], 1)) as [[fc fa] fi].
    cbn [cteComponents NewQueryBuilder app fst snd]. right. left. reflexivity.
Qed.

(** X25: the duplicate elimination in the statement text. Every compiled
    statement starts with the base fragment, which selects
    [DISTINCT ON (tenant_id, environment_id, timestamp, id)] from
    [events], with the where clause of the base conditions inside that
    select and the same four columns in its [ORDER BY]. *)
Theorem deduplication_in_statement (ctx : Context) (params : UsageParams) (visit : Visit)
  (groups : list (FilterGroup.t * Visit)) (aggType : types.AggregationType)
  (propertyName : string) :
  getDeduplicationKey = "tenant_id, environment_id, timestamp, id"
  /\ exists rest : string,
       (compile ctx params visit groups aggType propertyName).1
       = "WITH base_events AS (" +:+ nl
         +:+ tabs 3 "SELECT * FROM (" +:+ nl
         +:+ tabs 4 "SELECT DISTINCT ON (tenant_id, environment_id, timestamp, id) * FROM events WHERE "
         +:+ Join (baseConditions ctx params visit).1.1 " AND "
         +:+ " ORDER BY tenant_id, environment_id, timestamp, id DESC" +:+ nl
         +:+ tabs 3 ")" +:+ nl
         +:+ tabs 2 ")" +:+ rest.
Proof.
  split; [reflexivity|].
  exists (groupsText groups +:+ nl
          +:+ Query (finalQuery (WithAggregation ctx aggType propertyName NewQueryBuilder))).
  rewrite compile_text_form, baseText_split.
  unfold baseHead, baseTail, getDeduplicationKey. rewrite !append_assoc. reflexivity.
Qed.

End coverage.
